(** * interactive-server.py: the scribble transform and the refine-and-republish
      protocol of the interactive segmentation server

    The development embeds [src/interactive-server.py].  Conventions:

    - Python integers are [Z]; strings are [string].
    - Floating-point data (numpy float64 / torch float32 arrays) are extended
      reals [xreal]: the IEEE special values NaN and the two infinities are
      kept, because the code divides by quantities that can be zero; rounding,
      overflow, underflow and the sign of zero are not modelled.
    - A 3-D array is a shape together with a function from voxel indices to
      values; a torch tensor of shape [1,5,Z,Y,X] is a shape and five channels.
    - Functions of the server run in a state-and-exception monad [M] over the
      [world]: the global session table, the global archive client and the
      console/archive event log.  Everything outside the process (archive
      answers, the network, the file system, the neural network's forward
      pass, the platform) is read from an [environment] record.
    - [pdb.set_trace()] under [MODE_DEBUG] is logged as a [Breakpoint] event and
      the run resumes (the debugger's continue): it changes no program state. *)

From Stdlib Require Import ZArith List String Bool Reals Lra Lia.
From stdpp Require Import gmap strings list.

Local Open Scope Z_scope.

(** ** Extended reals: the values held by float arrays *)

Inductive xreal : Type :=
  | XNaN
  | XFin (r : R)
  | XInf (negative : bool).

Definition xneg (x : xreal) : xreal :=
  match x with
  | XNaN => XNaN
  | XFin r => XFin (- r)%R
  | XInf s => XInf (negb s)
  end.

Definition xadd (x y : xreal) : xreal :=
  match x, y with
  | XNaN, _ | _, XNaN => XNaN
  | XFin a, XFin b => XFin (a + b)%R
  | XFin _, XInf s | XInf s, XFin _ => XInf s
  | XInf s, XInf s' => if Bool.eqb s s' then XInf s else XNaN
  end.

Definition xsub (x y : xreal) : xreal := xadd x (xneg y).

(** [x ** 2] *)
Definition xsqr (x : xreal) : xreal :=
  match x with
  | XNaN => XNaN
  | XFin r => XFin (r * r)%R
  | XInf _ => XInf false
  end.

(** [x / y]; a zero divisor is +0 everywhere in this program (a maximum of
    distances, or [2 * sigma**2]). *)
Definition xdiv (x y : xreal) : xreal :=
  match x, y with
  | XNaN, _ | _, XNaN => XNaN
  | XFin a, XFin b =>
      if Req_dec_T b 0 then
        if Req_dec_T a 0 then XNaN
        else if Rlt_dec 0 a then XInf false else XInf true
      else XFin (a / b)%R
  | XFin _, XInf _ => XFin 0
  | XInf s, XFin b => if Rlt_dec b 0 then XInf (negb s) else XInf s
  | XInf _, XInf _ => XNaN
  end.

Definition xexp (x : xreal) : xreal :=
  match x with
  | XNaN => XNaN
  | XFin r => XFin (exp r)
  | XInf false => XInf false
  | XInf true => XFin 0
  end.

(** [x == 0] *)
Definition xis_zero (x : xreal) : bool :=
  match x with
  | XFin r => if Req_dec_T r 0 then true else false
  | _ => false
  end.

(** [x <= c] and [x > c] for a finite constant (comparisons with NaN are
    false). *)
Definition xle_const (x : xreal) (c : R) : bool :=
  match x with
  | XNaN => false
  | XFin r => if Rle_dec r c then true else false
  | XInf s => s
  end.

Definition xgt_const (x : xreal) (c : R) : bool :=
  match x with
  | XNaN => false
  | XFin r => if Rlt_dec c r then true else false
  | XInf s => negb s
  end.

(** [torch.sigmoid] *)
Definition xsigmoid (x : xreal) : xreal :=
  xdiv (XFin 1) (xadd (XFin 1) (xexp (xneg x))).

(** ** Arrays *)

Definition voxel : Type := Z * Z * Z.
Definition shape3 : Type := Z * Z * Z.

Record ndarray : Type := mkArray {
  shape : shape3;
  elems : voxel -> xreal
}.

Definition voxel_eqb (u v : voxel) : bool :=
  let '(a, b, c) := u in
  let '(a', b', c') := v in
  (a =? a') && (b =? b') && (c =? c').

Definition in_range (sh : shape3) (v : voxel) : Prop :=
  let '(n0, n1, n2) := sh in
  let '(i, j, k) := v in
  0 <= i < n0 /\ 0 <= j < n1 /\ 0 <= k < n2.

(** All indices of an array, in storage order. *)
Definition all_voxels (sh : shape3) : list voxel :=
  let '(n0, n1, n2) := sh in
  i ← seqZ 0 n0; j ← seqZ 0 n1; k ← seqZ 0 n2; [(i, j, k)].

(** [np.zeros_like(a)] / [np.zeros(shape)] *)
Definition np_zeros (sh : shape3) : ndarray := mkArray sh (fun _ => XFin 0).

(** [a.sum()] / [torch.sum(a)] *)
Definition array_sum (a : ndarray) : xreal :=
  fold_right (fun v acc => xadd (elems a v) acc) (XFin 0) (all_voxels (shape a)).

(** ** Tensors of shape [1, 5, Z, Y, X] *)

Record tensor : Type := mkTensor {
  tshape : shape3;
  tchan : nat -> voxel -> xreal
}.

(** [torch.zeros([1, 5, n0, n1, n2])] *)
Definition torch_zeros (sh : shape3) : tensor := mkTensor sh (fun _ _ => XFin 0).

(** [t[0, c]] *)
Definition channel (t : tensor) (c : nat) : ndarray := mkArray (tshape t) (tchan t c).

(** A source dimension fits a target dimension when it is equal or 1
    (broadcasting). *)
Definition broadcastable (src dst : shape3) : bool :=
  let '(a0, a1, a2) := src in
  let '(b0, b1, b2) := dst in
  ((a0 =? b0) || (a0 =? 1)) && ((a1 =? b1) || (a1 =? 1)) && ((a2 =? b2) || (a2 =? 1)).

Definition broadcast_index (src : shape3) (v : voxel) : voxel :=
  let '(a0, a1, a2) := src in
  let '(i, j, k) := v in
  (if a0 =? 1 then 0 else i, if a1 =? 1 then 0 else j, if a2 =? 1 then 0 else k).

Definition shape_eqb (a b : shape3) : bool := voxel_eqb a b.

(** [t[0, c, :, :, :] = torch.tensor(a)] ([None] when the shapes do not fit and
    torch raises). *)
Definition set_channel (t : tensor) (c : nat) (a : ndarray) : option tensor :=
  if shape_eqb (shape a) (tshape t) then
    Some (mkTensor (tshape t) (fun c' => if Nat.eqb c' c then elems a else tchan t c'))
  else if broadcastable (shape a) (tshape t) then
    Some (mkTensor (tshape t)
            (fun c' => if Nat.eqb c' c
                       then fun v => elems a (broadcast_index (shape a) v)
                       else tchan t c'))
  else None.

Definition zero_everywhere (a : ndarray) : Prop :=
  forall v, in_range (shape a) v -> elems a v = XFin 0.

Definition array_map (f : xreal -> xreal) (a : ndarray) : ndarray :=
  mkArray (shape a) (fun v => f (elems a v)).

(** [np.max]: NaN propagates. *)
Definition xmax (x y : xreal) : xreal :=
  match x, y with
  | XNaN, _ | _, XNaN => XNaN
  | XFin a, XFin b => XFin (Rmax a b)
  | XInf false, _ | _, XInf false => XInf false
  | XInf true, z | z, XInf true => z
  end.

(** [a.max()]; [None] stands for the ValueError numpy raises on a zero-size
    array. *)
Definition array_max (a : ndarray) : option xreal :=
  match all_voxels (shape a) with
  | [] => None
  | v :: vs => Some (fold_left (fun acc u => xmax acc (elems a u)) vs (elems a v))
  end.

(** ** Keys and settings *)

Definition KEY_SCRIBBLE_FGD : string := "fgd".
Definition KEY_SCRIBBLE_BGD : string := "bgd".

(** The three view names [KEY_SAGITTAL], [KEY_CORONAL], [KEY_AXIAL]. *)
Inductive view : Type := KEY_SAGITTAL | KEY_CORONAL | KEY_AXIAL.

Definition DISTMAP_Z : Z := 3.
Definition DISTMAP_SIGMA : R := (5 / 1000)%R.

(** ** Data models *)

Record SearchObj : Type := mkSearchObj {
  StudyInstanceUID : string;
  SeriesInstanceUID : string;
  SOPInstanceUID : string;
  wadoRsRoot : string
}.

Record PreparedData : Type := mkPreparedData {
  searchObjCT : SearchObj;
  searchObjPET : SearchObj;
  searchObjRTSGT : SearchObj;
  searchObjRTSPred : SearchObj;
  caseName : string
}.

#[global] Instance SearchObj_eq_dec : EqDecision SearchObj.
Proof. solve_decision. Defined.

#[global] Instance PreparedData_eq_dec : EqDecision PreparedData.
Proof. solve_decision. Defined.

Record PayloadPrepare : Type := mkPayloadPrepare {
  prepare_data : PreparedData;
  prepare_identifier : string
}.

Record ProcessData : Type := mkProcessData {
  points3D : list (Z * Z * Z);
  scribbleType : string;
  process_caseName : string
}.

Record PayloadProcess : Type := mkPayloadProcess {
  process_data : ProcessData;
  process_identifier : string
}.

(** A fetched DICOM instance, as far as the server reads it. *)
Record instance : Type := mkInstance {
  InstanceNumber : Z;
  instance_StudyInstanceUID : string
}.

(** ** Session data *)

(** [patientData[KEY_TORCH_DATA]] starts as [{}], is reset to the empty list by
    [prepare] and becomes a tensor once the primary series is loaded. *)
Inductive torch_data : Type :=
  | EmptyDict
  | EmptyList
  | Tensor (t : tensor).

(** The per-patient dictionary, one field per key. *)
Record session : Type := mkSession {
  data : option PreparedData;          (* KEY_DATA; [None] is the initial [{}] *)
  torchData : torch_data;              (* KEY_TORCH_DATA *)
  dcmList : list instance;             (* KEY_DCM_LIST *)
  scribbleCounter : Z;                 (* KEY_SCRIBBLE_COUNTER *)
  segSOPInstanceUID : string;          (* KEY_SEG_SOP_INSTANCE_UID *)
  segSeriesInstanceUID : string;       (* KEY_SEG_SERIES_INSTANCE_UID *)
  segOrthancID : option string;        (* KEY_SEG_ORTHANC_ID *)
  dateTime : string                    (* KEY_DATETIME *)
}.

(** [SESSIONSGLOBAL[clientIdentifier]] maps the keys 'userAgent' and
    'clientIdentifier' to strings and every patient name to a session. *)
Inductive entry : Type :=
  | EStr (s : string)
  | ESession (s : session).

Record dcmclient : Type := mkClient { base_url : string }.

(** ** Exceptions, events, world *)

Inductive exn : Type :=
  | IndexError
  | TypeError
  | KeyError
  | ValueError
  | AssertionError
  | UnboundLocalError
  | RuntimeError
  | OSError
  | ConnectionError
  | HTTPError (status_code : Z)
  | HTTPException (status_code : Z) (detail : string).

Inductive event : Type :=
  | Print (msg : string)
  | Traceback (e : exn)
  | Breakpoint
  | RetrieveSeries (study series : string)
  | RetrieveInstance (study series sop : string)
  | SaveDicom (patientName : string) (counter : Z)
  | HttpDelete (url : string)
  | HttpPost (url : string).

Record world : Type := mkWorld {
  SESSIONSGLOBAL : gmap string (gmap string entry);
  DCMCLIENT : option dcmclient;
  console : list event
}.

(** Answers of the archive and of the other collaborators during one request. *)
Inductive http_answer : Type :=
  | HttpRaises (e : exn)
  | HttpStatus (status_code : Z) (json_id : option string).

Inductive series_answer : Type :=
  | SeriesRaises (e : exn)               (* retrieval or sorting raises *)
  | SeriesEmpty                          (* no instance *)
  | SeriesUnreadable (partial : option ndarray) (e : exn)
                                         (* building the array raises *)
  | SeriesLoaded (instances : list instance) (array : ndarray).

Inductive seg_answer : Type :=
  | SegRaises (e : exn)
  | SegLoaded (array : option ndarray).  (* [None]: no segment in the object *)

Record environment : Type := mkEnv {
  platform_system : string;
  user_agent : string;
  generate_uid_1 : string;
  generate_uid_2 : string;
  datetime_now : string;
  DICOMwebClient : string -> option dcmclient;
  retrieve_ct : series_answer;
  retrieve_pt : series_answer;
  retrieve_seg_gt : seg_answer;
  retrieve_seg_pred : seg_answer;
  MODEL : tensor -> option ndarray;      (* the forward pass; [None] when it raises *)
  write_dicom : option exn;              (* packaging and saving the SEG file *)
  requests_delete : http_answer;
  requests_post : http_answer
}.

(** ** The monad *)

Inductive result (A : Type) : Type :=
  | Ret (a : A)
  | Raise (e : exn).
Arguments Ret {A} a.
Arguments Raise {A} e.

Definition M (A : Type) : Type := world -> result A * world.

#[global] Instance M_ret : MRet M := fun A a w => (Ret a, w).

#[global] Instance M_bind : MBind M := fun A B f m w =>
  match m w with
  | (Ret a, w') => f a w'
  | (Raise e, w') => (Raise e, w')
  end.

Definition raise {A : Type} (e : exn) : M A := fun w => (Raise e, w).

(** [try: body except: handler] *)
Definition try_except {A : Type} (body : M A) (handler : exn -> M A) : M A :=
  fun w =>
    match body w with
    | (Ret a, w') => (Ret a, w')
    | (Raise e, w') => handler e w'
    end.

Definition get_world : M world := fun w => (Ret w, w).

Definition emit (ev : event) : M unit :=
  fun w => (Ret tt, mkWorld (SESSIONSGLOBAL w) (DCMCLIENT w) (console w ++ [ev])).

Definition print (msg : string) : M unit := emit (Print msg).
Definition print_exc (e : exn) : M unit := emit (Traceback e).
Definition set_trace : M unit := emit Breakpoint.

Definition set_sessions (s : gmap string (gmap string entry)) : M unit :=
  fun w => (Ret tt, mkWorld s (DCMCLIENT w) (console w)).

Definition set_client (c : option dcmclient) : M unit :=
  fun w => (Ret tt, mkWorld (SESSIONSGLOBAL w) c (console w)).

(** [getMemoryUsage]: [gpuUsageInMB] is bound on Darwin only. *)
Definition getMemoryUsage (env : environment) : M unit :=
  if String.eqb (platform_system env) "Darwin"
  then print "Memory usage"
  else raise UnboundLocalError.

(** ** DIST MAP UTILS *)

(** [np.unique] on a 1-D integer array: the sorted distinct values. *)
Fixpoint insert_unique (x : Z) (l : list Z) : list Z :=
  match l with
  | [] => [x]
  | y :: r =>
      if x <? y then x :: l
      else if x =? y then l
      else y :: insert_unique x r
  end.

Definition np_unique (l : list Z) : list Z := fold_right insert_unique [] l.

Definition coord (viewIdx : nat) (p : Z * Z * Z) : Z :=
  let '(x, y, z) := p in
  match viewIdx with
  | O => x
  | S O => y
  | _ => z
  end.

(** [points3D[:, viewIdx]]; [np.array([])] has one axis only and the index
    raises. *)
Definition column (points3D : list (Z * Z * Z)) (viewIdx : nat) : M (list Z) :=
  match points3D with
  | [] => raise IndexError
  | _ => mret (map (coord viewIdx) points3D)
  end.

Definition view_of_index (viewIdx : nat) : option view :=
  match viewIdx with
  | O => Some KEY_SAGITTAL
  | S O => Some KEY_CORONAL
  | S (S O) => Some KEY_AXIAL
  | _ => None
  end.

(** The loop [for viewIdx in [0,1,2]] with its [break]. *)
Fixpoint scan_views (views : list nat) (points3D : list (Z * Z * Z))
  : M (option view * option Z) :=
  match views with
  | [] => mret (None, None)
  | viewIdx :: rest =>
      points3DAtIdx ← column points3D viewIdx;
      if (length (np_unique points3DAtIdx) =? 1)%nat
      then mret (view_of_index viewIdx, head points3DAtIdx)
      else scan_views rest points3D
  end.

Definition getViewTypeAndSliceId (points3D : list (Z * Z * Z))
  : M (option view * option Z) :=
  try_except
    (scan_views [0; 1; 2]%nat points3D)
    (fun e => print_exc e;; set_trace;; mret (None, None)).

(** An integer index into an axis of length [n]: negative indices count from
    the end, anything outside [-n, n) is an IndexError. *)
Definition np_index (n i : Z) : option Z :=
  if (0 <=? i) && (i <? n) then Some i
  else if (- n <=? i) && (i <? 0) then Some (i + n)
  else None.

(** The voxel marked for a point: [points3DInVolume[y, x, z]]. *)
Definition point_voxel (sh : shape3) (p : Z * Z * Z) : option voxel :=
  let '(n0, n1, n2) := sh in
  let '(x, y, z) := p in
  match np_index n0 y, np_index n1 x, np_index n2 z with
  | Some i, Some j, Some k => Some (i, j, k)
  | _, _, _ => None
  end.

Fixpoint point_voxels (sh : shape3) (points3D : list (Z * Z * Z)) : option (list voxel) :=
  match points3D with
  | [] => Some []
  | p :: rest =>
      match point_voxel sh p, point_voxels sh rest with
      | Some v, Some vs => Some (v :: vs)
      | _, _ => None
      end
  end.

(** The array [a] with 1 written at the voxels [marked]. *)
Definition set_ones (a : ndarray) (marked : list voxel) : ndarray :=
  mkArray (shape a)
    (fun v => if existsb (voxel_eqb v) marked then XFin 1 else elems a v).

(** [a[points3D[:,1], points3D[:,0], points3D[:,2]] = 1] *)
Definition scatter_ones (a : ndarray) (points3D : list (Z * Z * Z)) : M ndarray :=
  match point_voxels (shape a) points3D with
  | Some marked => mret (set_ones a marked)
  | None => raise IndexError
  end.

(** Squared distance between two voxels under a per-axis sampling. *)
Definition dist2 (sampling : Z * Z * Z) (v u : voxel) : Z :=
  let '(s0, s1, s2) := sampling in
  let '(i, j, k) := v in
  let '(i', j', k') := u in
  (s0 * (i - i')) * (s0 * (i - i')) + (s1 * (j - j')) * (s1 * (j - j'))
  + (s2 * (k - k')) * (s2 * (k - k')).

(** The background of a distance transform: the zero-valued elements. *)
Definition background (input : ndarray) : list voxel :=
  List.filter (fun u => xis_zero (elems input u)) (all_voxels (shape input)).

(** Squared distance from [v] to the nearest of [b :: bs]. *)
Definition nearest2 (sampling : Z * Z * Z) (b : voxel) (bs : list voxel) (v : voxel) : Z :=
  fold_left Z.min (map (dist2 sampling v) bs) (dist2 sampling v b).

(** [scipy.ndimage.distance_transform_edt(input, sampling)]: every element is
    replaced by its Euclidean distance to the nearest background element.
    An input without background is not modelled ([None]); the caller below
    always marks at least one voxel. *)
Definition distance_transform_edt (input : ndarray) (sampling : Z * Z * Z)
  : option ndarray :=
  match background input with
  | [] => None
  | b :: bs =>
      Some (mkArray (shape input)
              (fun v => XFin (sqrt (IZR (nearest2 sampling b bs v)))))
  end.

Definition sampling_of (viewType : view) (distZ : Z) : Z * Z * Z :=
  match viewType with
  | KEY_AXIAL => (1, 1, distZ)
  | KEY_SAGITTAL => (distZ, 1, 1)
  | KEY_CORONAL => (1, distZ, 1)
  end.

(** What [getGaussianDistanceMap] hands back: a bare [None] on the early
    return, a triple otherwise. *)
Inductive gdm_return : Type :=
  | GdmNone
  | GdmTuple (gaussianDistanceMap : option ndarray) (viewType : option view)
             (sliceId : option Z).

Definition of_option {A : Type} (o : option A) (e : exn) : M A :=
  match o with
  | Some a => mret a
  | None => raise e
  end.

(** [np.exp(-(1-e)**2 / (2 * sigma**2))] *)
Definition gaussian (sigma : R) (e : xreal) : xreal :=
  xexp (xdiv (xneg (xsqr (xsub (XFin 1) e))) (XFin (2 * (sigma * sigma))%R)).

Definition getGaussianDistanceMap (ctArray : ndarray) (points3D : list (Z * Z * Z))
    (distZ : Z) (sigma : R) : M gdm_return :=
  (* Step 0 - Identify viewType and sliceID (this call never raises) *)
  '(viewType, sliceId) ← getViewTypeAndSliceId points3D;
  match viewType, sliceId with
  | Some vt, Some _ =>
      try_except
        ((* Step 1 - Put points3D in an array *)
         points3DInVolume ← scatter_ones (np_zeros (shape ctArray)) points3D;
         (* Step 2 - Get distance map *)
         let sampling := sampling_of vt distZ in
         euclideanDistanceMap ←
           of_option (distance_transform_edt
                        (array_map (xsub (XFin 1)) points3DInVolume) sampling)
                     RuntimeError;
         maxVal ← of_option (array_max euclideanDistanceMap) ValueError;
         let euclideanDistanceMap :=
           array_map (fun d => xsub (XFin 1) (xdiv d maxVal)) euclideanDistanceMap in
         (* Step 2 - Get gaussian distance map *)
         let gaussianDistanceMap := array_map (gaussian sigma) euclideanDistanceMap in
         mret (GdmTuple (Some gaussianDistanceMap) viewType sliceId))
        (fun e => print_exc e;; set_trace;; mret (GdmTuple None viewType sliceId))
  | _, _ => mret GdmNone
  end.

(** [a, _, _ = r] *)
Definition unpack3 (r : gdm_return) : M (option ndarray) :=
  match r with
  | GdmNone => raise TypeError
  | GdmTuple m _ _ => mret m
  end.

(** [preparedDataTorch[0, c] = torch.tensor(map, dtype=torch.float32)] *)
Definition write_prior (t : tensor) (c : nat) (map : option ndarray) : M tensor :=
  a ← of_option map RuntimeError;
  of_option (set_channel t c a) RuntimeError.

Definition getDistanceMap (preparedDataTorch : tensor) (scribbleType : string)
    (points3D : list (Z * Z * Z)) (distMapZ : Z) (distMapSigma : R) : M tensor :=
  try_except
    (let ctArray := channel preparedDataTorch 0 in
     if String.eqb scribbleType KEY_SCRIBBLE_FGD then
       r ← getGaussianDistanceMap ctArray points3D distMapZ distMapSigma;
       fgdMap ← unpack3 r;
       write_prior preparedDataTorch 3 fgdMap
     else if String.eqb scribbleType KEY_SCRIBBLE_BGD then
       r ← getGaussianDistanceMap ctArray points3D distMapZ distMapSigma;
       bgdMap ← unpack3 r;
       write_prior preparedDataTorch 4 bgdMap
     else
       print "Unknown scribbleType";; mret preparedDataTorch)
    (fun e => print_exc e;; set_trace;; mret preparedDataTorch).

(** ** NNET MODELS *)

(** [seg[seg <= 0.5] = 0] followed by [seg[seg > 0.5] = 1] *)
Definition binarize (x : xreal) : xreal :=
  let x1 := if xle_const x (1 / 2) then XFin 0 else x in
  if xgt_const x1 (1 / 2) then XFin 1 else x1.

Definition doInference (env : environment) (preparedDataTorch : tensor)
  : M (option ndarray) :=
  try_except
    (segArrayRefinedTorch ← of_option (MODEL env preparedDataTorch) RuntimeError;
     mret (Some (array_map (fun x => binarize (xsigmoid x)) segArrayRefinedTorch)))
    (fun e => print_exc e;; set_trace;; mret None).

(** ** Session references

    [patientData] is a reference to the dictionary stored in the table under
    (client identifier, patient name): reads and writes go through the
    table, so a mutation survives an exception raised later. *)

Definition session_ref : Type := string * string.

Definition lookup_entry (w : world) (ref : session_ref) : option entry :=
  d ← SESSIONSGLOBAL w !! ref.1; d !! ref.2.

(** [patientData[key]]: a string entry cannot be indexed by a key. *)
Definition read_session (ref : session_ref) : M session :=
  w ← get_world;
  match lookup_entry w ref with
  | Some (ESession s) => mret s
  | Some (EStr _) => raise TypeError
  | None => raise KeyError
  end.

(** [patientData[key] = value] *)
Definition modify_session (ref : session_ref) (f : session -> session) : M unit :=
  s ← read_session ref;
  w ← get_world;
  match SESSIONSGLOBAL w !! ref.1 with
  | Some d => set_sessions (<[ref.1 := <[ref.2 := ESession (f s)]> d]> (SESSIONSGLOBAL w))
  | None => raise KeyError
  end.

Definition set_data (v : option PreparedData) (s : session) : session :=
  mkSession v (torchData s) (dcmList s) (scribbleCounter s) (segSOPInstanceUID s)
    (segSeriesInstanceUID s) (segOrthancID s) (dateTime s).

Definition set_torchData (v : torch_data) (s : session) : session :=
  mkSession (data s) v (dcmList s) (scribbleCounter s) (segSOPInstanceUID s)
    (segSeriesInstanceUID s) (segOrthancID s) (dateTime s).

Definition set_dcmList (v : list instance) (s : session) : session :=
  mkSession (data s) (torchData s) v (scribbleCounter s) (segSOPInstanceUID s)
    (segSeriesInstanceUID s) (segOrthancID s) (dateTime s).

Definition set_scribbleCounter (v : Z) (s : session) : session :=
  mkSession (data s) (torchData s) (dcmList s) v (segSOPInstanceUID s)
    (segSeriesInstanceUID s) (segOrthancID s) (dateTime s).

Definition set_segOrthancID (v : option string) (s : session) : session :=
  mkSession (data s) (torchData s) (dcmList s) (scribbleCounter s) (segSOPInstanceUID s)
    (segSeriesInstanceUID s) v (dateTime s).

(** [torchData[0, c]]: neither [{}] nor the empty list can be indexed so. *)
Definition as_tensor (d : torch_data) : M tensor :=
  match d with
  | Tensor t => mret t
  | EmptyDict => raise KeyError
  | EmptyList => raise TypeError
  end.

(** ** DCM SERVER *)

Definition getDCMClient (env : environment) (wadoRsRoot : string) : M (option dcmclient) :=
  match DICOMwebClient env wadoRsRoot with
  | Some client => mret (Some client)
  | None => print_exc ConnectionError;; mret None
  end.

Definition getCTArray (env : environment) (patientData : session_ref)
  : M (option ndarray) :=
  (* the except clause returns [ctArray] as far as it was built *)
  let handler (ctArray : option ndarray) (e : exn) : M (option ndarray) :=
    print_exc e;; mret ctArray in
  try_except
    ((* Step 0 - Init *)
     sess ← read_session patientData;
     preparedData ← of_option (data sess) KeyError;
     (* Step 1, 2 - Get and sort the CT instances *)
     emit (RetrieveSeries (StudyInstanceUID (searchObjCT preparedData))
                          (SeriesInstanceUID (searchObjCT preparedData)));;
     match retrieve_ct env with
     | SeriesRaises e => raise e
     | SeriesEmpty => print "No CT instances found";; mret None
     | SeriesUnreadable partial e => handler partial e
     | SeriesLoaded ctInstances ctArray =>
         try_except
           ((* Step 4 - Update sessionsGlobal *)
            modify_session patientData (set_torchData (Tensor (torch_zeros (shape ctArray))));;
            t ← of_option (set_channel (torch_zeros (shape ctArray)) 0 ctArray) RuntimeError;
            modify_session patientData (set_torchData (Tensor t));;
            modify_session patientData (set_dcmList ctInstances);;
            mret (Some ctArray))
           (handler (Some ctArray))
     end)
    (handler None).

Definition getPTArray (env : environment) (patientData : session_ref)
  : M (option ndarray) :=
  let handler (ptArray : option ndarray) (e : exn) : M (option ndarray) :=
    print_exc e;; mret ptArray in
  try_except
    (sess ← read_session patientData;
     preparedData ← of_option (data sess) KeyError;
     emit (RetrieveSeries (StudyInstanceUID (searchObjPET preparedData))
                          (SeriesInstanceUID (searchObjPET preparedData)));;
     match retrieve_pt env with
     | SeriesRaises e => raise e
     | SeriesEmpty => print "No PT instances found";; mret None
     | SeriesUnreadable partial e => handler partial e
     | SeriesLoaded _ ptArray =>
         try_except
           ((* Step 4 - Update sessionsGlobal *)
            sess ← read_session patientData;
            t ← as_tensor (torchData sess);
            t' ← of_option (set_channel t 1 ptArray) RuntimeError;
            modify_session patientData (set_torchData (Tensor t'));;
            mret (Some ptArray))
           (handler (Some ptArray))
     end)
    (handler None).

(** One SEG retrieval of [getSEGs]: skipped for an empty study UID; an
    HTTPError is swallowed (reported when it is a 404), any other exception
    goes on to the enclosing except clause. *)
Definition fetch_seg (answer : seg_answer) (so : SearchObj) (msg : string)
  : M (option ndarray) :=
  if String.eqb (StudyInstanceUID so) "" then mret None
  else
    try_except
      (emit (RetrieveInstance (StudyInstanceUID so) (SeriesInstanceUID so)
                              (SOPInstanceUID so));;
       match answer with
       | SegRaises e => raise e
       | SegLoaded a => mret a
       end)
      (fun e =>
         match e with
         | HTTPError code => (if code =? 404 then print msg else mret tt);; mret None
         | _ => raise e
         end).

Definition getSEGs (env : environment) (patientData : session_ref)
  : M (option ndarray * option ndarray) :=
  let handler (segArrayGT segArrayPred : option ndarray) (e : exn) :=
    print_exc e;; mret (segArrayGT, segArrayPred) in
  try_except
    ((* Step 0 - Init *)
     sess ← read_session patientData;
     preparedData ← of_option (data sess) KeyError;
     (* Step 1 - Get SEG-GT instance *)
     segArrayGT ← fetch_seg (retrieve_seg_gt env) (searchObjRTSGT preparedData)
                            "No SEG-GT instance found";
     try_except
       ((* Step 2 - Get SEG-Pred instance *)
        segArrayPred ← fetch_seg (retrieve_seg_pred env) (searchObjRTSPred preparedData)
                                 "No SEG-Pred instance found";
        try_except
          ((* Step 3 - Update sessionsGlobal *)
           match segArrayPred with
           | Some a =>
               sess ← read_session patientData;
               t ← as_tensor (torchData sess);
               t' ← of_option (set_channel t 2 a) RuntimeError;
               modify_session patientData (set_torchData (Tensor t'))
           | None => mret tt
           end;;
           mret (segArrayGT, segArrayPred))
          (handler segArrayGT segArrayPred))
       (handler segArrayGT None))
    (handler None None).

(** What [makeSEGDicom] hands back: the pair (status, session), or the bare
    status on the two early returns. *)
Inductive msd_return : Type :=
  | MsdBare (makeDICOMStatus : bool)
  | MsdTuple (makeDICOMStatus : bool).

(** Step 4.1 - Delete existing instance; [Some r] is an early return. *)
Definition delete_existing (env : environment) (requestBaseURL : string)
    (instanceOrthanID : option string) : M (option msd_return) :=
  match instanceOrthanID with
  | Some id =>
      try_except
        (emit (HttpDelete (requestBaseURL ++ "/instances/" ++ id));;
         match requests_delete env with
         | HttpRaises e => raise e
         | HttpStatus _ _ => mret None   (* 404 and 200 both only [pass] *)
         end)
        (fun e => print_exc e;; print "Could not delete instance";;
                  mret (Some (MsdBare false)))
  | None => mret None
  end.

(** Step 4.2 - Post new instance; [inl r] is an early return, [inr id] the
    value of [instanceOrthanID] afterwards. *)
Definition post_new (env : environment) (requestBaseURL : string)
    (instanceOrthanID : option string) : M (msd_return + option string) :=
  try_except
    (emit (HttpPost (requestBaseURL ++ "/instances"));;
     match requests_post env with
     | HttpRaises e => raise e
     | HttpStatus code json_id =>
         if code =? 200 then
           id ← of_option json_id KeyError;
           mret (inr (Some id))
         else if code =? 404 then
           print "Could not post instance";; set_trace;; mret (inr instanceOrthanID)
         else mret (inr instanceOrthanID)
     end)
    (fun e => print_exc e;; print "Could not post instance";;
              mret (inl (MsdBare false))).

Definition makeSEGDicom (env : environment) (maskArray : option ndarray)
    (clientIdentifier : string) (patientSessionData : session_ref) : M msd_return :=
  try_except
    ((* Step 0 - Init *)
     sess ← read_session patientSessionData;
     preparedData ← of_option (data sess) KeyError;
     let patientName := caseName preparedData in
     let counter := scribbleCounter sess in
     (* Step 1 - Convert to sitk image *)
     _ ← of_option (head (dcmList sess)) IndexError;
     _ ← of_option maskArray ValueError;
     (* Step 2, 3 - Create and save the dicom file *)
     match write_dicom env with
     | Some e => raise e
     | None => emit (SaveDicom patientName counter)
     end;;
     (* Step 4 - Post to DICOM server *)
     let instanceOrthanID := segOrthancID sess in
     w ← get_world;
     match DCMCLIENT w with
     | Some client =>
         let requestBaseURL := base_url client in
         early ← delete_existing env requestBaseURL instanceOrthanID;
         match early with
         | Some r => mret r
         | None =>
             posted ← post_new env requestBaseURL instanceOrthanID;
             match posted with
             | inl r => mret r
             | inr instanceOrthanID' =>
                 (* Step 99 - Final *)
                 modify_session patientSessionData (set_segOrthancID instanceOrthanID');;
                 mret (MsdTuple true)
             end
         end
     | None => print "DCMCLIENT is None. Not posting SEG to DICOM server";;
               mret (MsdTuple false)
     end)
    (fun e => print_exc e;; set_trace;; mret (MsdTuple false)).

(** ** API ENDPOINTS *)

(** The answer to a request: the returned object, or the HTTPException the
    handler raises in its except clause (always status 500), with the
    exception it reports. *)
Inductive http_result (A : Type) : Type :=
  | Returned (body : A)
  | Failed (status_code : Z) (cause : exn).
Arguments Returned {A} body.
Arguments Failed {A} status_code cause.

Definition new_session (env : environment) : session :=
  mkSession None EmptyDict [] 0 (generate_uid_1 env) (generate_uid_2 env) None
    (datetime_now env).

Definition prepare_body (env : environment) (payload : PayloadPrepare) : M bool :=
  (* Step 0 - Init *)
  let clientIdentifier := prepare_identifier payload in
  let preparePayloadData := prepare_data payload in
  let patientName := caseName preparePayloadData in
  w ← get_world;
  match SESSIONSGLOBAL w !! clientIdentifier with
  | None =>
      set_sessions
        (<[clientIdentifier :=
             <["clientIdentifier" := EStr clientIdentifier]>
               {["userAgent" := EStr (user_agent env)]}]> (SESSIONSGLOBAL w))
  | Some _ => mret tt
  end;;
  w ← get_world;
  match SESSIONSGLOBAL w !! clientIdentifier with
  | Some d =>
      match d !! patientName with
      | None =>
          set_sessions
            (<[clientIdentifier := <[patientName := ESession (new_session env)]> d]>
               (SESSIONSGLOBAL w))
      | Some _ => mret tt
      end
  | None => raise KeyError
  end;;
  (* Step 1 - Check if new scans are selected on the client side *)
  let patientData : session_ref := (clientIdentifier, patientName) in
  sess ← read_session patientData;
  dataAlreadyPresent ←
    (if bool_decide (data sess ≠ Some preparePayloadData) then
       modify_session patientData (set_data (Some preparePayloadData));;
       modify_session patientData (set_torchData EmptyList);;
       w ← get_world;
       match DCMCLIENT w with
       | None =>
           c ← getDCMClient env (wadoRsRoot (searchObjCT preparePayloadData));
           set_client c
       | Some _ => mret tt
       end;;
       w ← get_world;
       match DCMCLIENT w with
       | Some _ =>
           ctArray ← getCTArray env patientData;
           match ctArray with
           | Some _ =>
               ptArray ← getPTArray env patientData;
               match ptArray with
               | Some _ => _ ← getSEGs env patientData; mret tt
               | None => mret tt
               end
           | None => mret tt
           end
       | None => mret tt
       end;;
       mret false
     else mret true);
  (* Step 2 - Logging *)
  print "/prepare";;
  (* Step 99 - Return *)
  getMemoryUsage env;;
  mret dataAlreadyPresent.

(** [/prepare]; the body of the answer is [dataAlreadyPresent], which selects
    between the two status texts. *)
Definition prepare (env : environment) (payload : PayloadPrepare) : M (http_result bool) :=
  try_except
    (r ← prepare_body env payload; mret (Returned r))
    (fun e => print_exc e;; mret (Failed 500 e)).

Record process_response : Type := mkResponse {
  resp_StudyInstanceUID : string;
  resp_SeriesInstanceUID : string;
  resp_SOPInstanceUID : string;
  resp_wadoRsRoot : string
}.

(** [assert c, msg] *)
Definition assert_ (c : bool) : M unit :=
  if c then mret tt else raise AssertionError.

(** [status, patientData = r] *)
Definition unpack2 (r : msd_return) : M bool :=
  match r with
  | MsdBare _ => raise TypeError
  | MsdTuple status => mret status
  end.

(** Step 3.0 of [process]: the working copy of the cached tensor, checked. *)
Definition checked_copy (patientData : session_ref) : M tensor :=
  sess ← read_session patientData;
  preparedDataTorch ← as_tensor (torchData sess);
  assert_ (xis_zero (array_sum (channel preparedDataTorch 3))
           && xis_zero (array_sum (channel preparedDataTorch 4)));;
  mret preparedDataTorch.

(** Steps 4.1 to 5 of [process], from the tensor handed to the model. *)
Definition infer_and_publish (env : environment) (clientIdentifier : string)
    (patientData : session_ref) (preparedData : option PreparedData)
    (preparedDataTorch : tensor) : M process_response :=
  (* Step 4.1 - Get refined segmentation *)
  segArrayRefinedNumpy ← doInference env preparedDataTorch;
  (* Step 4.2 - Update counter for patient *)
  modify_session patientData (fun s => set_scribbleCounter (scribbleCounter s + 1) s);;
  (* Step 4.2 - Save refined segmentation *)
  r ← makeSEGDicom env segArrayRefinedNumpy clientIdentifier patientData;
  makeSEGDICOMStatus ← unpack2 r;
  if negb makeSEGDICOMStatus then
    raise (HTTPException 500 "Error in /process => makeSEGDicom failed")
  else
    (* Step 5 - Return *)
    pd ← of_option preparedData KeyError;
    sess ← read_session patientData;
    mret (mkResponse (StudyInstanceUID (searchObjCT pd)) (segSeriesInstanceUID sess)
                     (segSOPInstanceUID sess) (wadoRsRoot (searchObjCT pd))).

Definition process_body (env : environment) (payload : PayloadProcess)
  : M process_response :=
  (* Step 0 - Init *)
  let clientIdentifier := process_identifier payload in
  let processPayloadData := process_data payload in
  let patientName := process_caseName processPayloadData in
  (* Step 1 - Check if session data is available *)
  w ← get_world;
  let dataAlreadyPresent :=
    match SESSIONSGLOBAL w !! clientIdentifier with
    | None => false
    | Some d => bool_decide (is_Some (d !! patientName))
    end in
  (* Step 2 - Logging *)
  print "/process";;
  getMemoryUsage env;;
  (* Step 3 - Process scribble data *)
  if dataAlreadyPresent then
    (* Step 3.0 - Init *)
    let patientData : session_ref := (clientIdentifier, patientName) in
    sess ← read_session patientData;
    let preparedData := data sess in
    preparedDataTorch ← checked_copy patientData;
    (* Step 3.1, 3.2 - Extract data, get distance map *)
    preparedDataTorch ← getDistanceMap preparedDataTorch (scribbleType processPayloadData)
                          (points3D processPayloadData) DISTMAP_Z DISTMAP_SIGMA;
    infer_and_publish env clientIdentifier patientData preparedData preparedDataTorch
  else
    raise (HTTPException 500 "No data present in python server. Reload page.").

Definition process (env : environment) (payload : PayloadProcess)
  : M (http_result process_response) :=
  try_except
    (r ← process_body env payload; mret (Returned r))
    (fun e => print_exc e;; mret (Failed 500 e)).

(** ** Vocabulary of the statements *)

(** All points carry the value [c] on axis [viewIdx]. *)
Definition agree_on (viewIdx : nat) (pts : list (Z * Z * Z)) (c : Z) : Prop :=
  forall p, In p pts -> coord viewIdx p = c.

(** The points share a single value on axis [viewIdx]. *)
Definition single_valued (viewIdx : nat) (pts : list (Z * Z * Z)) : Prop :=
  exists c, agree_on viewIdx pts c.

(** The voxel a point marks when it lies inside the volume: the first two
    coordinates are swapped. *)
Definition swap_xy (p : Z * Z * Z) : voxel := let '(x, y, z) := p in (y, x, z).

(** The server right after start-up. *)
Definition initial_world : world := mkWorld ∅ None [].

(** Two small CT arrays used as concrete inputs. *)
Definition one_voxel_ct : ndarray := np_zeros (1, 1, 1).
Definition two_voxel_ct : ndarray := np_zeros (1, 2, 1).

(** [wp m Q w]: running [m] from [w] ends in an outcome and a world that
    satisfy [Q]. *)
Definition wp {A : Type} (m : M A) (Q : result A -> world -> Prop) (w : world) : Prop :=
  Q (m w).1 (m w).2.

(** The session table and the archive client are the same in both worlds (the
    console may have grown). *)
Definition same_state (w w' : world) : Prop :=
  SESSIONSGLOBAL w' = SESSIONSGLOBAL w /\ DCMCLIENT w' = DCMCLIENT w.

(** The outcome is a normal return that satisfies [P] and leaves the state of
    [w] as it is. *)
Definition returns_quietly {A : Type} (w : world) (P : A -> Prop)
  : result A -> world -> Prop :=
  fun r w' => exists a, r = Ret a /\ same_state w w' /\ P a.

(** The session table with the session under [ref] replaced by [s]. *)
Definition sessions_with (m : gmap string (gmap string entry)) (ref : session_ref)
    (s : session) : gmap string (gmap string entry) :=
  match m !! ref.1 with
  | Some d => <[ref.1 := <[ref.2 := ESession s]> d]> m
  | None => m
  end.

(** What [makeSEGDicom] hands back and the value [KEY_SEG_ORTHANC_ID] holds
    afterwards, read off the answers of the collaborators: packaging first,
    then the client, the delete, the post. *)
Definition publish_outcome (env : environment) (maskArray : option ndarray)
    (client : option dcmclient) (s : session) : msd_return * option string :=
  match data s, dcmList s, maskArray, write_dicom env, client with
  | Some _, _ :: _, Some _, None, Some _ =>
      match segOrthancID s, requests_delete env with
      | Some _, HttpRaises _ => (MsdBare false, segOrthancID s)
      | _, _ =>
          match requests_post env with
          | HttpRaises _ => (MsdBare false, segOrthancID s)
          | HttpStatus code json_id =>
              if code =? 200 then
                match json_id with
                | Some id => (MsdTuple true, Some id)
                | None => (MsdBare false, segOrthancID s)
                end
              else (MsdTuple true, segOrthancID s)
          end
      end
  | _, _, _, _, _ => (MsdTuple false, segOrthancID s)
  end.

(** What [doInference] returns for the tensor [t]. *)
Definition inference_result (env : environment) (t : tensor) : option ndarray :=
  match MODEL env t with
  | Some out => Some (array_map (fun x => binarize (xsigmoid x)) out)
  | None => None
  end.

(** How [process] goes on from the answer of [makeSEGDicom]: unpacking a bare
    status raises, a false status raises the makeSEGDicom-failed exception, a
    true status builds the response from the session. *)
Definition turn_result (status : msd_return) (preparedData : option PreparedData)
    (s : session) : result process_response :=
  match status with
  | MsdBare _ => Raise TypeError
  | MsdTuple false =>
      Raise (HTTPException 500 "Error in /process => makeSEGDicom failed")
  | MsdTuple true =>
      match preparedData with
      | Some pd =>
          Ret (mkResponse (StudyInstanceUID (searchObjCT pd)) (segSeriesInstanceUID s)
                 (segSOPInstanceUID s) (wadoRsRoot (searchObjCT pd)))
      | None => Raise KeyError
      end
  end.

(** The answer of an endpoint for the outcome of its body. *)
Definition answer {A : Type} (r : result A) : http_result A :=
  match r with
  | Ret a => Returned a
  | Raise e => Failed 500 e
  end.

(** The session a request addresses. *)
Definition process_ref (payload : PayloadProcess) : session_ref :=
  (process_identifier payload, process_caseName (process_data payload)).

(** A refine turn gets as far as the scribble: the platform lets
    [getMemoryUsage] return, the session exists and holds a tensor [t] whose
    channels 3 and 4 pass the reset check. *)
Definition turn_ready (env : environment) (w : world) (ref : session_ref)
    (s : session) (t : tensor) : Prop :=
  platform_system env = "Darwin"
  /\ lookup_entry w ref = Some (ESession s)
  /\ torchData s = Tensor t
  /\ xis_zero (array_sum (channel t 3)) = true
  /\ xis_zero (array_sum (channel t 4)) = true.

(** The session after a turn that reached the publish step: the counter is
    one higher and the published id is [id]. *)
Definition after_turn (s : session) (id : option string) : session :=
  set_segOrthancID id (set_scribbleCounter (scribbleCounter s + 1) s).

(** A value a prior map can hold: NaN or a number of [0,1]. *)
Definition prior_value (x : xreal) : Prop :=
  x = XNaN \/ exists r, x = XFin r /\ (0 <= r <= 1)%R.

(** A channel that carries a stale prior: prior values, not all of them 0. *)
Definition stale (a : ndarray) : Prop :=
  (forall v, in_range (shape a) v -> prior_value (elems a v))
  /\ exists v, in_range (shape a) v /\ elems a v <> XFin 0.

(** Channels 3 and 4 of a tensor are zero everywhere. *)
Definition tensor_clean (t : tensor) : Prop :=
  zero_everywhere (channel t 3) /\ zero_everywhere (channel t 4).

(** The worlds the server can be in: the initial one and those reached by
    answering [/prepare] and [/process] requests, whatever the payload and
    whatever the collaborators answer. *)
Inductive reachable : world -> Prop :=
  | reach_initial : reachable initial_world
  | reach_prepare env payload w :
      reachable w -> reachable (prepare env payload w).2
  | reach_process env payload w :
      reachable w -> reachable (process env payload w).2.

(** A concrete deployment used for the examples below: one client, one case
    whose series hold a single voxel, an archive that accepts every call and
    a network that returns a one-voxel mask. *)
Definition ex_series (series : string) : SearchObj :=
  mkSearchObj "study-1" series "sop-1" "http://localhost:8042/dicom-web".

Definition ex_case : PreparedData :=
  mkPreparedData (ex_series "ct") (ex_series "pet")
    (mkSearchObj "" "" "" "") (mkSearchObj "" "" "" "") "case-1".

Definition ex_env : environment :=
  mkEnv "Darwin" "browser" "uid-sop" "uid-series" "2024-01-01 00:00:00"
    (fun url => Some (mkClient url))
    (SeriesLoaded [mkInstance 1 "study-1"] one_voxel_ct)
    (SeriesLoaded [mkInstance 1 "study-1"] one_voxel_ct)
    (SegLoaded None) (SegLoaded None)
    (fun _ => Some one_voxel_ct)
    None
    (HttpStatus 200 None)
    (HttpStatus 200 (Some "seg-1")).

(** The world after the case has been prepared once. *)
Definition prepared_world : world :=
  (prepare ex_env (mkPayloadPrepare ex_case "client-1") initial_world).2.

Definition ex_ref : session_ref := ("client-1", "case-1").

(** The tensor and the session [prepare] has built in [prepared_world]. *)
Definition ex_tensor : tensor :=
  mkTensor (1, 1, 1)
    (fun c => if Nat.eqb c 1 then elems one_voxel_ct
              else if Nat.eqb c 0 then elems one_voxel_ct
              else fun _ => XFin 0).

Definition ex_session : session :=
  mkSession (Some ex_case) (Tensor ex_tensor) [mkInstance 1 "study-1"] 0
    "uid-sop" "uid-series" None "2024-01-01 00:00:00".

(** A scribble whose two points share no coordinate on any axis. *)
Definition ambiguous_scribble : PayloadProcess :=
  mkPayloadProcess (mkProcessData [(1, 1, 1); (2, 2, 2)] "fgd" "case-1") "client-1".


(** A scribble on the only voxel of the example case. *)
Definition valid_scribble : PayloadProcess :=
  mkPayloadProcess (mkProcessData [(0, 0, 0)] "fgd" "case-1") "client-1".

(** The world after one refine turn on the prepared case. *)
Definition published_world : world :=
  (process ex_env valid_scribble prepared_world).2.


(** A tensor whose channel 3 still holds a prior, and a world that caches it. *)
Definition stale_tensor : tensor :=
  mkTensor (1, 1, 1) (fun c _ => if Nat.eqb c 3 then XFin 1 else XFin 0).

Definition stale_world : world :=
  mkWorld
    {["client-1" :=
        {["case-1" := ESession (set_torchData (Tensor stale_tensor) ex_session)]}]}
    None [].

(** The session a [/prepare] request addresses. *)
Definition prepare_ref (payload : PayloadPrepare) : session_ref :=
  (prepare_identifier payload, caseName (prepare_data payload)).

(** The fields of a session that [/prepare] writes at creation only. *)
Definition same_identity (s s' : session) : Prop :=
  scribbleCounter s' = scribbleCounter s
  /\ segSOPInstanceUID s' = segSOPInstanceUID s
  /\ segSeriesInstanceUID s' = segSeriesInstanceUID s
  /\ segOrthancID s' = segOrthancID s
  /\ dateTime s' = dateTime s.

(** The same, and the descriptor as well. *)
Definition same_descriptor (s s' : session) : Prop :=
  same_identity s s' /\ data s' = data s.

(** A cached tensor, if there is one, has channels 3 and 4 zero everywhere. *)
Definition tensor_ok (s : session) : Prop :=
  forall t, torchData s = Tensor t -> tensor_clean t.

Definition all_clean (w : world) : Prop :=
  forall ref s, lookup_entry w ref = Some (ESession s) -> tensor_ok s.

(** How the state moves from [w] to [w'] while the session under [ref0] is
    worked on: a client once set stays, entries under other references stay as
    they are, the entry under [ref0] stays a string or stays a session related
    by [Rs], and clean tensors stay clean. *)
Definition evolves (Rs : session -> session -> Prop) (ref0 : session_ref)
    (w w' : world) : Prop :=
  (forall c, DCMCLIENT w = Some c -> DCMCLIENT w' = Some c)
  /\ (forall ref e, ref <> ref0 -> lookup_entry w ref = Some e ->
        lookup_entry w' ref = Some e)
  /\ (forall x, lookup_entry w ref0 = Some (EStr x) ->
        lookup_entry w' ref0 = Some (EStr x))
  /\ (forall s, lookup_entry w ref0 = Some (ESession s) ->
        exists s', lookup_entry w' ref0 = Some (ESession s') /\ Rs s s')
  /\ (all_clean w -> all_clean w').

(** The world after Step 0 of [prepare]: the client dictionary and the
    session of the case are there. *)
Definition registered (env : environment) (payload : PayloadPrepare) (w : world)
  : world :=
  let clientIdentifier := prepare_identifier payload in
  let patientName := caseName (prepare_data payload) in
  let sessions :=
    match SESSIONSGLOBAL w !! clientIdentifier with
    | None =>
        <[clientIdentifier :=
            <["clientIdentifier" := EStr clientIdentifier]>
              {["userAgent" := EStr (user_agent env)]}]> (SESSIONSGLOBAL w)
    | Some _ => SESSIONSGLOBAL w
    end in
  let sessions' :=
    match sessions !! clientIdentifier with
    | Some d =>
        match d !! patientName with
        | None =>
            <[clientIdentifier := <[patientName := ESession (new_session env)]> d]>
              sessions
        | Some _ => sessions
        end
    | None => sessions
    end in
  mkWorld sessions' (DCMCLIENT w) (console w).

(** The case name is not one of the two string keys of a client dictionary,
    and no string is stored under it. *)
Definition session_slot (payload : PayloadPrepare) (w : world) : Prop :=
  caseName (prepare_data payload) <> "userAgent"
  /\ caseName (prepare_data payload) <> "clientIdentifier"
  /\ forall x, lookup_entry w (prepare_ref payload) <> Some (EStr x).

(** What the body of [prepare] hands back when the session of the case is
    [s]: on Darwin the flag [dataAlreadyPresent], elsewhere the exception of
    [getMemoryUsage]. *)
Definition prepare_answer (env : environment) (payload : PayloadPrepare)
    (s : session) : result bool :=
  if String.eqb (platform_system env) "Darwin"
  then Ret (bool_decide (data s = Some (prepare_data payload)))
  else Raise UnboundLocalError.

(** A Darwin deployment whose archive cannot be reached, and one on another
    platform. *)
Definition unreachable_env : environment :=
  mkEnv "Darwin" "browser" "uid-sop" "uid-series" "2024-01-01 00:00:00"
    (fun _ => None)
    (SeriesRaises ConnectionError) (SeriesRaises ConnectionError)
    (SegRaises ConnectionError) (SegRaises ConnectionError)
    (fun _ => None) None (HttpRaises ConnectionError) (HttpRaises ConnectionError).

Definition offline_env : environment :=
  mkEnv "Linux" "browser" "uid-sop" "uid-series" "2024-01-01 00:00:00"
    (fun _ => None)
    (SeriesRaises ConnectionError) (SeriesRaises ConnectionError)
    (SegRaises ConnectionError) (SegRaises ConnectionError)
    (fun _ => None) None (HttpRaises ConnectionError) (HttpRaises ConnectionError).

(** A world in which the example case has been published once under the id
    seg-0. *)
Definition stored_session : session := set_segOrthancID (Some "seg-0") ex_session.

Definition stored_world : world :=
  mkWorld {["client-1" := {["case-1" := ESession stored_session]}]}
    (Some (mkClient "http://localhost:8042")) [].



(** The example deployment with a second series of another shape. *)
Definition mismatch_env : environment :=
  mkEnv (platform_system ex_env) (user_agent ex_env) (generate_uid_1 ex_env)
    (generate_uid_2 ex_env) (datetime_now ex_env) (DICOMwebClient ex_env)
    (retrieve_ct ex_env) (SeriesLoaded [mkInstance 1 "study-1"] (np_zeros (2, 2, 2)))
    (retrieve_seg_gt ex_env) (retrieve_seg_pred ex_env) (MODEL ex_env)
    (write_dicom ex_env) (requests_delete ex_env) (requests_post ex_env).

(** The primary series cannot be had: no client can be created where none
    is set, or the retrieval finds no instance or raises. *)
Definition no_primary_series (env : environment) (payload : PayloadPrepare)
    (w : world) : Prop :=
  (DCMCLIENT w = None
   /\ DICOMwebClient env (wadoRsRoot (searchObjCT (prepare_data payload))) = None)
  \/ retrieve_ct env = SeriesEmpty
  \/ exists e, retrieve_ct env = SeriesRaises e.

(** The example case with a predicted SEG object asked for, a world that
    holds it, and a deployment whose archive does not have the object. *)
Definition seg_case : PreparedData :=
  mkPreparedData (ex_series "ct") (ex_series "pet")
    (mkSearchObj "" "" "" "") (ex_series "seg") "case-1".

Definition seg_world : world :=
  mkWorld {["client-1" := {["case-1" := ESession (set_data (Some seg_case) ex_session)]}]}
    (Some (mkClient "http://localhost:8042")) [].

Definition seg_missing_env : environment :=
  mkEnv (platform_system ex_env) (user_agent ex_env) (generate_uid_1 ex_env)
    (generate_uid_2 ex_env) (datetime_now ex_env) (DICOMwebClient ex_env)
    (retrieve_ct ex_env) (retrieve_pt ex_env) (retrieve_seg_gt ex_env)
    (SegRaises (HTTPError 404)) (MODEL ex_env) (write_dicom ex_env)
    (requests_delete ex_env) (requests_post ex_env).

(** * Properties *)

(** ** Running monadic code *)

Ltac munfold :=
  unfold of_option, print, print_exc, set_trace in *;
  unfold mbind, M_bind, mret, M_ret, raise, try_except, get_world, emit,
    set_sessions, set_client in *.

(** ** View detection *)

Lemma insert_unique_not_nil x l : insert_unique x l <> [].
Proof.
  destruct l as [|y r]; simpl; [discriminate|].
  destruct (x <? y); [discriminate|].
  destruct (x =? y); discriminate.
Qed.

Lemma np_unique_nil l : np_unique l = [] -> l = [].
Proof.
  destruct l as [|a l]; [reflexivity|]. simpl. intros H.
  exfalso. exact (insert_unique_not_nil _ _ H).
Qed.

Lemma insert_unique_singleton x u c :
  insert_unique x u = [c] -> x = c /\ (u = [] \/ u = [c]).
Proof.
  destruct u as [|y [|z r]]; simpl.
  - intros [= ->]. auto.
  - destruct (Z.ltb_spec x y); [discriminate|].
    destruct (Z.eqb_spec x y) as [->|]; [|discriminate].
    intros [= ->]. auto.
  - destruct (x <? y); [discriminate|].
    destruct (x =? y); [discriminate|].
    destruct (x <? z); [discriminate|].
    destruct (x =? z); [discriminate|].
    discriminate.
Qed.

Lemma np_unique_singleton l c :
  np_unique l = [c] <-> l <> [] /\ forall x, In x l -> x = c.
Proof.
  induction l as [|a l IH]; simpl.
  - split; [discriminate | intros [H _]; congruence].
  - split.
    + intros H. apply insert_unique_singleton in H as [-> [Hu|Hu]].
      * apply np_unique_nil in Hu as ->. split; [discriminate|].
        intros x [<-|[]]. reflexivity.
      * apply IH in Hu as [_ Hall]. split; [discriminate|].
        intros x [<-|Hx]; auto.
    + intros [_ Hall]. assert (a = c) as -> by (apply Hall; auto).
      destruct l as [|b l]; [reflexivity|].
      assert (np_unique (b :: l) = [c]) as Hu.
      { apply IH. split; [discriminate|]. intros x Hx. apply Hall. auto. }
      change (insert_unique c (np_unique (b :: l)) = [c]). rewrite Hu. simpl.
      rewrite Z.ltb_irrefl, Z.eqb_refl. reflexivity.
Qed.

Lemma unique_count_one viewIdx pts :
  pts <> [] ->
  (length (np_unique (map (coord viewIdx) pts)) =? 1)%nat = true
  <-> single_valued viewIdx pts.
Proof.
  intros Hne. rewrite Nat.eqb_eq. split.
  - intros Hlen.
    destruct (np_unique (map (coord viewIdx) pts)) as [|c [|? ?]] eqn:Hu;
      try discriminate.
    apply np_unique_singleton in Hu as [_ Hall].
    exists c. intros p Hp. apply Hall. apply in_map. exact Hp.
  - intros [c Hc].
    assert (np_unique (map (coord viewIdx) pts) = [c]) as ->; [|reflexivity].
    apply np_unique_singleton. split.
    + destruct pts; [congruence | discriminate].
    + intros x Hx. apply in_map_iff in Hx as (p & <- & Hp). auto.
Qed.

Lemma head_column viewIdx pts c :
  pts <> [] -> agree_on viewIdx pts c -> head (map (coord viewIdx) pts) = Some c.
Proof.
  intros Hne Hc. destruct pts as [|p pts]; [congruence|].
  simpl. f_equal. apply Hc. left. reflexivity.
Qed.

Lemma scan_views_hit viewIdx rest pts c w :
  pts <> [] -> agree_on viewIdx pts c ->
  scan_views (viewIdx :: rest) pts w = (Ret (view_of_index viewIdx, Some c), w).
Proof.
  intros Hne Hc. simpl. unfold column.
  destruct pts as [|p pts'] eqn:E; [congruence|]. rewrite <- E in *.
  munfold.
  assert ((length (np_unique (map (coord viewIdx) pts)) =? 1)%nat = true) as ->.
  { apply unique_count_one; [congruence|]. exists c. exact Hc. }
  rewrite (head_column viewIdx pts c); [reflexivity | congruence | exact Hc].
Qed.

Lemma scan_views_miss viewIdx rest pts w :
  pts <> [] -> ~ single_valued viewIdx pts ->
  scan_views (viewIdx :: rest) pts w = scan_views rest pts w.
Proof.
  intros Hne Hc. simpl. unfold column.
  destruct pts as [|p pts'] eqn:E; [congruence|]. rewrite <- E in *.
  munfold.
  destruct (length (np_unique (map (coord viewIdx) pts)) =? 1)%nat eqn:Hu;
    [|reflexivity].
  exfalso. apply Hc. apply unique_count_one; [congruence | exact Hu].
Qed.

(** C1. For a non-empty sequence of points, [getViewTypeAndSliceId] returns the
    first axis, in the order 0, 1, 2, on which all points share one value,
    named Sagittal, Coronal, Axial respectively, with that value as slice
    index; it returns neither view nor slice when no axis carries a single
    shared value. *)
Theorem getViewTypeAndSliceId_first_shared_axis (pts : list (Z * Z * Z)) (w : world) :
  pts <> [] ->
  (forall c, agree_on 0 pts c ->
     getViewTypeAndSliceId pts w = (Ret (Some KEY_SAGITTAL, Some c), w))
  /\ (forall c, ~ single_valued 0 pts -> agree_on 1 pts c ->
     getViewTypeAndSliceId pts w = (Ret (Some KEY_CORONAL, Some c), w))
  /\ (forall c, ~ single_valued 0 pts -> ~ single_valued 1 pts -> agree_on 2 pts c ->
     getViewTypeAndSliceId pts w = (Ret (Some KEY_AXIAL, Some c), w))
  /\ (~ single_valued 0 pts -> ~ single_valued 1 pts -> ~ single_valued 2 pts ->
     getViewTypeAndSliceId pts w = (Ret (None, None), w)).
Proof.
  intros Hne. unfold getViewTypeAndSliceId, try_except. repeat split.
  - intros c H0. rewrite (scan_views_hit 0 _ pts c); auto.
  - intros c N0 H1. rewrite scan_views_miss by auto.
    rewrite (scan_views_hit 1 _ pts c); auto.
  - intros c N0 N1 H2. do 2 (rewrite scan_views_miss by auto).
    rewrite (scan_views_hit 2 _ pts c); auto.
  - intros N0 N1 N2. do 3 (rewrite scan_views_miss by auto). reflexivity.
Qed.

(** ** The distance map *)

Lemma voxel_eqb_eq u v : voxel_eqb u v = true <-> u = v.
Proof.
  destruct u as [[a b] c], v as [[a' b'] c']. unfold voxel_eqb.
  rewrite !andb_true_iff, !Z.eqb_eq. split.
  - intros [[-> ->] ->]. reflexivity.
  - intros [= -> -> ->]. auto.
Qed.

Lemma existsb_voxel v marked : existsb (voxel_eqb v) marked = true <-> In v marked.
Proof.
  rewrite existsb_exists. split.
  - intros (u & Hu & E). apply voxel_eqb_eq in E as ->. exact Hu.
  - intros H. exists v. split; [exact H | apply voxel_eqb_eq; reflexivity].
Qed.

Lemma all_voxels_in_range sh v : In v (all_voxels sh) <-> in_range sh v.
Proof.
  destruct sh as [[n0 n1] n2], v as [[i j] k]. unfold all_voxels, in_range.
  rewrite <- list_elem_of_In, list_elem_of_bind. split.
  - intros (i' & H & Hi). apply list_elem_of_bind in H as (j' & H & Hj).
    apply list_elem_of_bind in H as (k' & H & Hk).
    apply list_elem_of_singleton in H as [= -> -> ->].
    apply elem_of_seqZ in Hi, Hj, Hk. lia.
  - intros (Hi & Hj & Hk). exists i. split; [|apply elem_of_seqZ; lia].
    apply list_elem_of_bind. exists j. split; [|apply elem_of_seqZ; lia].
    apply list_elem_of_bind. exists k. split; [|apply elem_of_seqZ; lia].
    apply list_elem_of_singleton. reflexivity.
Qed.

Lemma fold_min_spec (l : list Z) (a : Z) :
  let m := fold_left Z.min l a in
  (m = a \/ In m l) /\ m <= a /\ forall x, In x l -> m <= x.
Proof.
  revert a. induction l as [|y l IH]; intros a; simpl.
  - repeat split; auto; try lia; try (intros x []).
  - destruct (IH (Z.min a y)) as ([E|Hin] & Hle & Hall).
    + repeat split.
      * rewrite E. destruct (Z.min_spec a y) as [[_ ->]|[_ ->]]; auto.
      * lia.
      * intros x [<-|Hx]; [lia | auto].
    + repeat split; auto; try lia. intros x [<-|Hx]; [lia | auto].
Qed.

Lemma dist2_nonneg sampling v u : 0 <= dist2 sampling v u.
Proof.
  destruct sampling as [[s0 s1] s2], v as [[i j] k], u as [[i' j'] k'].
  unfold dist2.
  pose proof (Z.square_nonneg (s0 * (i - i'))).
  pose proof (Z.square_nonneg (s1 * (j - j'))).
  pose proof (Z.square_nonneg (s2 * (k - k'))).
  lia.
Qed.

Lemma nearest2_nonneg sampling b bs v : 0 <= nearest2 sampling b bs v.
Proof.
  unfold nearest2.
  destruct (fold_min_spec (map (dist2 sampling v) bs) (dist2 sampling v b))
    as ([E|Hin] & _).
  - rewrite E. apply dist2_nonneg.
  - apply in_map_iff in Hin as (u & <- & _). apply dist2_nonneg.
Qed.

Section DistanceTransform.

Variable sampling : Z * Z * Z.
Hypothesis sampling_nonzero :
  sampling.1.1 <> 0 /\ sampling.1.2 <> 0 /\ sampling.2 <> 0.

Lemma dist2_zero v u : dist2 sampling v u = 0 <-> v = u.
Proof.
  destruct sampling as [[s0 s1] s2], v as [[i j] k], u as [[i' j'] k'].
  simpl in sampling_nonzero. unfold dist2. split.
  - intros H.
    pose proof (Z.square_nonneg (s0 * (i - i'))) as P0.
    pose proof (Z.square_nonneg (s1 * (j - j'))) as P1.
    pose proof (Z.square_nonneg (s2 * (k - k'))) as P2.
    assert (s0 * (i - i') = 0) by nia.
    assert (s1 * (j - j') = 0) by nia.
    assert (s2 * (k - k') = 0) by nia.
    assert (i = i') by nia. assert (j = j') by nia. assert (k = k') by nia.
    congruence.
  - intros [= -> -> ->]. lia.
Qed.

Lemma nearest2_zero b bs v : nearest2 sampling b bs v = 0 <-> In v (b :: bs).
Proof.
  unfold nearest2.
  destruct (fold_min_spec (map (dist2 sampling v) bs) (dist2 sampling v b))
    as (Hwit & Hle & Hall).
  split.
  - intros H0. rewrite H0 in Hwit. destruct Hwit as [E|Hin].
    + left. symmetry. apply dist2_zero. symmetry. exact E.
    + right. apply in_map_iff in Hin as (u & E & Hu).
      apply dist2_zero in E as ->. exact Hu.
  - intros Hin.
    assert (fold_left Z.min (map (dist2 sampling v) bs) (dist2 sampling v b) <= 0).
    { destruct Hin as [->|Hin].
      - assert (dist2 sampling v v = 0) as E by (apply dist2_zero; reflexivity).
        lia.
      - assert (dist2 sampling v v = 0) as E by (apply dist2_zero; reflexivity).
        rewrite <- E. apply Hall. apply in_map. exact Hin. }
    pose proof (nearest2_nonneg sampling b bs v) as Hnn. unfold nearest2 in Hnn. lia.
Qed.

End DistanceTransform.

Lemma sampling_of_nonzero vt distZ :
  distZ <> 0 ->
  (sampling_of vt distZ).1.1 <> 0 /\ (sampling_of vt distZ).1.2 <> 0
  /\ (sampling_of vt distZ).2 <> 0.
Proof. intros H. destruct vt; simpl; repeat split; (exact H || lia). Qed.

(** The background of the complemented indicator is the set of marked voxels
    of the volume. *)
Lemma background_complement sh marked u :
  In u (background (array_map (xsub (XFin 1)) (set_ones (np_zeros sh) marked)))
  <-> in_range sh u /\ In u marked.
Proof.
  unfold background. rewrite filter_In. simpl. rewrite all_voxels_in_range.
  split; intros [Hr H]; split; auto.
  - apply existsb_voxel. destruct (existsb (voxel_eqb u) marked); [reflexivity|].
    simpl in H. destruct (Req_dec_T _ _) as [E|_]; [lra | discriminate].
  - apply existsb_voxel in H. rewrite H. simpl.
    destruct (Req_dec_T _ _) as [_|N]; [reflexivity | lra].
Qed.

Section Gaussian.

Local Open Scope R_scope.

Lemma exp_le_1 x : x <= 0 -> exp x <= 1.
Proof.
  intros [Hlt | ->]; [|rewrite exp_0; lra].
  apply exp_increasing in Hlt. rewrite exp_0 in Hlt. lra.
Qed.

Lemma exp_eq_1 x : x <= 0 -> exp x = 1 <-> x = 0.
Proof.
  intros Hx. split; [|intros ->; apply exp_0].
  intros E. destruct Hx as [Hlt | ->]; [|reflexivity].
  apply exp_increasing in Hlt. rewrite exp_0 in Hlt. lra.
Qed.

(** The prior at a voxel at distance [d] when the largest distance is
    positive. *)
Lemma gaussian_value sigma d mx :
  sigma <> 0 -> 0 < mx -> 0 <= d ->
  exists r,
    gaussian sigma (xsub (XFin 1) (xdiv (XFin d) (XFin mx))) = XFin r
    /\ 0 <= r <= 1 /\ (r = 1 <-> d = 0).
Proof.
  intros Hs Hmx Hd. unfold gaussian, xsub, xdiv, xneg, xadd, xsqr, xexp.
  destruct (Req_dec_T mx 0) as [E|_]; [lra|].
  destruct (Req_dec_T (2 * (sigma * sigma)) 0) as [E|_]; [nra|].
  eexists. split; [reflexivity|].
  set (q := 1 + - (1 + - (d / mx))).
  assert (q = d * / mx) as Hq by (unfold q, Rdiv; ring).
  assert (0 < / mx) as Hk by (apply Rinv_0_lt_compat; exact Hmx).
  assert (0 < / (2 * (sigma * sigma))) as Hk'
    by (apply Rinv_0_lt_compat; nra).
  set (x := - (q * q) / (2 * (sigma * sigma))).
  assert (x = - (q * q) * / (2 * (sigma * sigma))) as Hx by reflexivity.
  assert (x <= 0) as Hx0 by (rewrite Hx; nra).
  split; [split; [left; apply exp_pos | apply exp_le_1; exact Hx0]|].
  rewrite (exp_eq_1 x Hx0). split.
  - intros E. assert (q * q = 0) by nra. assert (q = 0) by nra.
    assert (d * / mx = 0) by lra. nra.
  - intros ->. rewrite Hx, Hq. ring.
Qed.

(** The prior when the largest distance is zero: the division is 0/0. *)
Lemma gaussian_nan sigma :
  gaussian sigma (xsub (XFin 1) (xdiv (XFin 0) (XFin 0))) = XNaN.
Proof.
  unfold gaussian, xsub, xdiv.
  destruct (Req_dec_T 0 0) as [_|N]; [reflexivity | lra].
Qed.

Lemma sqrt_IZR_zero n : (0 <= n)%Z -> sqrt (IZR n) = 0 <-> n = 0%Z.
Proof.
  intros Hn. split.
  - intros E. apply sqrt_eq_0 in E; [apply eq_IZR_R0; exact E|].
    apply IZR_le in Hn. exact Hn.
  - intros ->. apply sqrt_0.
Qed.

End Gaussian.

(** [a.max()] on an array of finite values is one of them and bounds them
    all. *)
Lemma fold_xmax_fin (a : ndarray) (f : voxel -> R) vs r0 :
  (forall v, elems a v = XFin (f v)) ->
  exists m, fold_left (fun acc u => xmax acc (elems a u)) vs (XFin r0) = XFin m
            /\ (r0 <= m)%R /\ (forall u, In u vs -> (f u <= m)%R)
            /\ (m = r0 \/ exists u, In u vs /\ m = f u).
Proof.
  intros Hf. revert r0. induction vs as [|v vs IH]; intros r0; simpl.
  - exists r0. repeat split; [lra | intros u [] | left; reflexivity].
  - rewrite Hf. simpl.
    destruct (IH (Rmax r0 (f v))) as (m & E & Hle & Hall & Hwit).
    exists m. split; [exact E|].
    pose proof (Rmax_l r0 (f v)). pose proof (Rmax_r r0 (f v)).
    split; [lra|]. split; [intros u [<-|Hu]; [lra | auto]|].
    destruct Hwit as [->|(u & Hu & ->)].
    + unfold Rmax. destruct (Rle_dec r0 (f v)); [|left; reflexivity].
      right. exists v. auto.
    + right. exists u. auto.
Qed.

Lemma array_max_fin (a : ndarray) (f : voxel -> R) mx :
  (forall v, elems a v = XFin (f v)) ->
  array_max a = Some mx ->
  exists m, mx = XFin m
            /\ (forall u, in_range (shape a) u -> (f u <= m)%R)
            /\ (exists u, in_range (shape a) u /\ m = f u).
Proof.
  intros Hf. unfold array_max.
  destruct (all_voxels (shape a)) as [|v vs] eqn:E; [discriminate|].
  intros [= <-]. rewrite Hf.
  destruct (fold_xmax_fin a f vs (f v) Hf) as (m & Em & Hle & Hall & Hwit).
  exists m. split; [exact Em|]. split.
  - intros u Hu. apply all_voxels_in_range in Hu. rewrite E in Hu.
    destruct Hu as [<-|Hu]; auto.
  - destruct Hwit as [->|(u & Hu & ->)].
    + exists v. split; [|reflexivity]. apply all_voxels_in_range.
      rewrite E. left. reflexivity.
    + exists u. split; [|reflexivity]. apply all_voxels_in_range.
      rewrite E. right. exact Hu.
Qed.

(** The run of [getGaussianDistanceMap] on a single-plane point set inside
    the volume. *)
Lemma getGaussianDistanceMap_run ctArray pts distZ sigma w vt sl marked edm mx :
  getViewTypeAndSliceId pts w = (Ret (Some vt, Some sl), w) ->
  point_voxels (shape ctArray) pts = Some marked ->
  distance_transform_edt
    (array_map (xsub (XFin 1)) (set_ones (np_zeros (shape ctArray)) marked))
    (sampling_of vt distZ) = Some edm ->
  array_max edm = Some mx ->
  getGaussianDistanceMap ctArray pts distZ sigma w
  = (Ret (GdmTuple
            (Some (array_map (gaussian sigma)
                     (array_map (fun d => xsub (XFin 1) (xdiv d mx)) edm)))
            (Some vt) (Some sl)), w).
Proof.
  intros Hview Hpts Hedt Hmax. unfold getGaussianDistanceMap, scatter_ones.
  munfold. rewrite Hview. cbv beta iota. change (shape (np_zeros ?s)) with s.
  rewrite Hpts. cbv beta iota. rewrite Hedt. cbv beta iota. rewrite Hmax.
  reflexivity.
Qed.

(** The values of the Euclidean distance map of the complemented indicator. *)
Lemma edt_complement sh marked sampling edm :
  distance_transform_edt
    (array_map (xsub (XFin 1)) (set_ones (np_zeros sh) marked)) sampling = Some edm ->
  shape edm = sh
  /\ exists f : voxel -> R,
       (forall v, elems edm v = XFin (f v))
       /\ (forall v, 0 <= f v)%R
       /\ (sampling.1.1 <> 0 /\ sampling.1.2 <> 0 /\ sampling.2 <> 0 ->
           forall v, in_range sh v -> f v = 0%R <-> In v marked).
Proof.
  intros Hedt. unfold distance_transform_edt in Hedt.
  destruct (background _) as [|b bs] eqn:Hbg; [discriminate|].
  injection Hedt as <-. split; [reflexivity|].
  exists (fun v => sqrt (IZR (nearest2 sampling b bs v))).
  split; [reflexivity|]. split; [intros v; apply sqrt_pos|].
  intros Hs v Hv. cbv beta. rewrite sqrt_IZR_zero by (apply nearest2_nonneg).
  rewrite (nearest2_zero sampling Hs), <- Hbg, background_complement. tauto.
Qed.

(** The values of the prior map computed from the distance map [edm] and its
    maximum [mx]. *)
Lemma prior_values sh marked sampling edm mx sigma :
  distance_transform_edt
    (array_map (xsub (XFin 1)) (set_ones (np_zeros sh) marked)) sampling = Some edm ->
  array_max edm = Some mx ->
  let g := array_map (gaussian sigma)
             (array_map (fun d => xsub (XFin 1) (xdiv d mx)) edm) in
  shape g = sh
  /\ exists m, mx = XFin m /\ (0 <= m)%R
       /\ (m = 0%R -> forall v, in_range sh v -> elems g v = XNaN)
       /\ ((0 < m)%R -> sigma <> 0%R ->
           sampling.1.1 <> 0 /\ sampling.1.2 <> 0 /\ sampling.2 <> 0 ->
           forall v, in_range sh v ->
             exists r, elems g v = XFin r /\ (0 <= r <= 1)%R
                       /\ (r = 1%R <-> In v marked)).
Proof.
  intros Hedt Hmax g.
  destruct (edt_complement _ _ _ _ Hedt) as (Hsh & f & Hf & Hnn & Hzero).
  destruct (array_max_fin edm f mx Hf Hmax) as (m & -> & Hle & (u & Hu & Em)).
  rewrite Hsh in Hle. split; [exact Hsh|].
  exists m. split; [reflexivity|]. split; [rewrite Em; apply Hnn|]. split.
  - intros -> v Hv. unfold g. simpl. rewrite Hf.
    assert (f v = 0%R) as -> by (pose proof (Hle v Hv); pose proof (Hnn v); lra).
    apply gaussian_nan.
  - intros Hm Hs Hsamp v Hv. unfold g. simpl. rewrite Hf.
    destruct (gaussian_value sigma (f v) m Hs Hm (Hnn v)) as (r & E & Hr & H1).
    exists r. split; [exact E|]. split; [exact Hr|].
    rewrite H1. apply Hzero; assumption.
Qed.

(** The marked voxels lie inside the volume. *)
Lemma np_index_range n i k : np_index n i = Some k -> 0 <= k < n.
Proof.
  unfold np_index.
  destruct ((0 <=? i) && (i <? n)) eqn:E1.
  - intros [= <-]. apply andb_true_iff in E1 as [? ?]. lia.
  - destruct ((- n <=? i) && (i <? 0)) eqn:E2; [|discriminate].
    intros [= <-]. apply andb_true_iff in E2 as [? ?]. lia.
Qed.

Lemma point_voxel_range sh p v : point_voxel sh p = Some v -> in_range sh v.
Proof.
  destruct sh as [[n0 n1] n2], p as [[x y] z]. unfold point_voxel.
  destruct (np_index n0 y) eqn:E0; [|discriminate].
  destruct (np_index n1 x) eqn:E1; [|discriminate].
  destruct (np_index n2 z) eqn:E2; [|discriminate].
  intros [= <-]. apply np_index_range in E0, E1, E2. simpl. lia.
Qed.

Lemma point_voxels_range sh pts marked :
  point_voxels sh pts = Some marked -> forall v, In v marked -> in_range sh v.
Proof.
  revert marked. induction pts as [|p pts IH]; intros marked; simpl.
  - intros [= <-] v [].
  - destruct (point_voxel sh p) as [u|] eqn:Ep; [|discriminate].
    destruct (point_voxels sh pts) as [us|] eqn:Eps; [|discriminate].
    intros [= <-] v [<-|Hv]; [eapply point_voxel_range; eauto | eapply IH; eauto].
Qed.

Lemma point_voxels_not_nil sh pts marked :
  point_voxels sh pts = Some marked -> pts <> [] -> marked <> [].
Proof.
  destruct pts as [|p pts]; [congruence|]. simpl.
  destruct (point_voxel sh p); [|discriminate].
  destruct (point_voxels sh pts); [|discriminate].
  intros [= <-] _. discriminate.
Qed.

(** With at least one point marked, the distance transform and its maximum
    exist. *)
Lemma edt_complement_defined sh pts marked sampling :
  point_voxels sh pts = Some marked -> pts <> [] ->
  exists edm mx,
    distance_transform_edt
      (array_map (xsub (XFin 1)) (set_ones (np_zeros sh) marked)) sampling = Some edm
    /\ array_max edm = Some mx.
Proof.
  intros Hpts Hne.
  pose proof (point_voxels_not_nil _ _ _ Hpts Hne) as Hm.
  destruct marked as [|u marked']; [congruence|].
  assert (in_range sh u) as Hu
    by (eapply point_voxels_range; [exact Hpts | left; reflexivity]).
  unfold distance_transform_edt.
  destruct (background _) as [|b bs] eqn:Hbg.
  - exfalso.
    assert (In u (background (array_map (xsub (XFin 1))
                                (set_ones (np_zeros sh) (u :: marked'))))) as Hin
      by (apply background_complement; split; [exact Hu | left; reflexivity]).
    rewrite Hbg in Hin. exact Hin.
  - destruct (all_voxels sh) as [|v vs] eqn:E.
    + exfalso. apply all_voxels_in_range in Hu. rewrite E in Hu. exact Hu.
    + eexists. eexists. split; [reflexivity|].
      unfold array_max. cbn [shape array_map set_ones np_zeros].
      rewrite E. reflexivity.
Qed.

(** The maximum distance is zero when every voxel is marked and positive as
    soon as one voxel is not. *)
Lemma array_max_sign sh marked sampling edm mx :
  distance_transform_edt
    (array_map (xsub (XFin 1)) (set_ones (np_zeros sh) marked)) sampling = Some edm ->
  array_max edm = Some mx ->
  sampling.1.1 <> 0 /\ sampling.1.2 <> 0 /\ sampling.2 <> 0 ->
  exists m, mx = XFin m
    /\ ((forall v, in_range sh v -> In v marked) -> m = 0%R)
    /\ (forall v, in_range sh v -> ~ In v marked -> (0 < m)%R).
Proof.
  intros Hedt Hmax Hs.
  destruct (edt_complement _ _ _ _ Hedt) as (Hsh & f & Hf & Hnn & Hzero).
  destruct (array_max_fin edm f mx Hf Hmax) as (m & -> & Hle & (u & Hu & Em)).
  rewrite Hsh in Hle, Hu. exists m. split; [reflexivity|]. split.
  - intros Hall. rewrite Em. apply (Hzero Hs u Hu). apply Hall. exact Hu.
  - intros v Hv Hnot. pose proof (Hle v Hv). pose proof (Hnn v).
    assert (f v <> 0%R) by (intros E; apply Hnot, (Hzero Hs v Hv), E). lra.
Qed.

Lemma point_voxels_inside sh pts :
  Forall (fun p => in_range sh (swap_xy p)) pts ->
  point_voxels sh pts = Some (map swap_xy pts).
Proof.
  induction 1 as [|p pts Hp _ IH]; [reflexivity|]. simpl. rewrite IH.
  destruct sh as [[n0 n1] n2], p as [[x y] z]. simpl in Hp.
  unfold point_voxel, np_index.
  assert ((0 <=? y) && (y <? n0) = true) as -> by (apply andb_true_iff; lia).
  assert ((0 <=? x) && (x <? n1) = true) as -> by (apply andb_true_iff; lia).
  assert ((0 <=? z) && (z <? n2) = true) as -> by (apply andb_true_iff; lia).
  reflexivity.
Qed.

(** C2. On a single-plane point set inside the volume whose largest distance
    to the scribble is positive, [getGaussianDistanceMap] (with the settings
    DISTMAP_Z and DISTMAP_SIGMA) returns a map whose values all lie in [0,1];
    the value is 1 exactly at the scribbled voxels, which are the voxels
    (y, x, z) of the points (x, y, z) ([swap_xy]), and strictly below 1 at
    every other voxel. *)
Theorem getGaussianDistanceMap_unit_peak
    (ctArray : ndarray) (pts : list (Z * Z * Z)) (w : world)
    (vt : view) (sl : Z) (edm : ndarray) (mx : R) :
  getViewTypeAndSliceId pts w = (Ret (Some vt, Some sl), w) ->
  Forall (fun p => in_range (shape ctArray) (swap_xy p)) pts ->
  distance_transform_edt
    (array_map (xsub (XFin 1))
       (set_ones (np_zeros (shape ctArray)) (map swap_xy pts)))
    (sampling_of vt DISTMAP_Z) = Some edm ->
  array_max edm = Some (XFin mx) ->
  (0 < mx)%R ->
  exists g,
    getGaussianDistanceMap ctArray pts DISTMAP_Z DISTMAP_SIGMA w
    = (Ret (GdmTuple (Some g) (Some vt) (Some sl)), w)
    /\ shape g = shape ctArray
    /\ forall v, in_range (shape ctArray) v ->
         exists r, elems g v = XFin r
                   /\ (0 <= r <= 1)%R
                   /\ (r = 1%R <-> In v (map swap_xy pts))
                   /\ (~ In v (map swap_xy pts) -> (r < 1)%R).
Proof.
  intros Hview Hin Hedt Hmax Hpos.
  pose proof (point_voxels_inside _ _ Hin) as Hpts.
  eexists. split; [eapply getGaussianDistanceMap_run; eassumption|].
  destruct (prior_values _ _ _ _ _ DISTMAP_SIGMA Hedt Hmax)
    as (Hsh & m & [= <-] & _ & _ & Hval).
  split; [exact Hsh|]. intros v Hv.
  destruct (Hval Hpos) with (v := v) as (r & E & Hr & H1); auto.
  - unfold DISTMAP_SIGMA. lra.
  - apply sampling_of_nonzero. discriminate.
  - exists r. repeat split; try tauto; try lra.
    intros Hnot. destruct (Req_dec_T r 1) as [E1|N1]; [tauto | lra].
Qed.

(** C9 (as the code behaves). When the largest distance is 0,
    [getGaussianDistanceMap] does not fail: it performs the division 0/0 and
    returns a map that is NaN at every voxel of the volume. *)
Theorem getGaussianDistanceMap_zero_max_nan
    (ctArray : ndarray) (pts : list (Z * Z * Z)) (distZ : Z) (sigma : R) (w : world)
    (vt : view) (sl : Z) (marked : list voxel) (edm : ndarray) :
  getViewTypeAndSliceId pts w = (Ret (Some vt, Some sl), w) ->
  point_voxels (shape ctArray) pts = Some marked ->
  distance_transform_edt
    (array_map (xsub (XFin 1)) (set_ones (np_zeros (shape ctArray)) marked))
    (sampling_of vt distZ) = Some edm ->
  array_max edm = Some (XFin 0) ->
  exists g,
    getGaussianDistanceMap ctArray pts distZ sigma w
    = (Ret (GdmTuple (Some g) (Some vt) (Some sl)), w)
    /\ forall v, in_range (shape ctArray) v -> elems g v = XNaN.
Proof.
  intros Hview Hpts Hedt Hmax.
  eexists. split; [eapply getGaussianDistanceMap_run; eassumption|].
  destruct (prior_values _ _ _ _ _ sigma Hedt Hmax)
    as (_ & m & [= <-] & _ & Hnan & _).
  apply Hnan. reflexivity.
Qed.

(** The scenario of the specification: three points of the axial slice 4. *)
Lemma getViewTypeAndSliceId_first_shared_axis_witness :
  getViewTypeAndSliceId [(30, 30, 4); (31, 30, 4); (30, 31, 4)] initial_world
  = (Ret (Some KEY_AXIAL, Some 4), initial_world).
Proof.
  destruct (getViewTypeAndSliceId_first_shared_axis
              [(30, 30, 4); (31, 30, 4); (30, 31, 4)] initial_world)
    as (_ & _ & H & _).
  - discriminate.
  - apply H.
    + intros [c Hc].
      assert (30 = c) by (apply (Hc (30, 30, 4)); simpl; auto).
      assert (31 = c) by (apply (Hc (31, 30, 4)); simpl; auto).
      lia.
    + intros [c Hc].
      assert (30 = c) by (apply (Hc (30, 30, 4)); simpl; auto).
      assert (31 = c) by (apply (Hc (30, 31, 4)); simpl; auto).
      lia.
    + intros p [<-|[<-|[<-|[]]]]; reflexivity.
Defined.

(** The point (x, y, z) = (1, 0, 0) in a volume of shape (1, 2, 1): it marks
    the voxel (0, 1, 0), and the other voxel, (0, 0, 0), is at distance 1. *)
Lemma two_voxel_distance :
  exists edm mx,
    distance_transform_edt
      (array_map (xsub (XFin 1)) (set_ones (np_zeros (shape two_voxel_ct)) [(0, 1, 0)]))
      (sampling_of KEY_SAGITTAL DISTMAP_Z) = Some edm
    /\ array_max edm = Some (XFin mx) /\ (0 < mx)%R.
Proof.
  destruct (edt_complement_defined (1, 2, 1) [(1, 0, 0)] [(0, 1, 0)]
              (sampling_of KEY_SAGITTAL DISTMAP_Z))
    as (edm & mx & H3 & H4); [reflexivity | discriminate |].
  destruct (array_max_sign _ _ _ _ _ H3 H4) as (m & -> & _ & Hpos).
  { apply sampling_of_nonzero. discriminate. }
  exists edm, m. split; [exact H3|]. split; [exact H4|].
  apply (Hpos (0, 0, 0)); [simpl; lia|]. intros [E|[]]. discriminate.
Qed.

Lemma getGaussianDistanceMap_unit_peak_witness :
  exists g,
    getGaussianDistanceMap two_voxel_ct [(1, 0, 0)] DISTMAP_Z DISTMAP_SIGMA initial_world
    = (Ret (GdmTuple (Some g) (Some KEY_SAGITTAL) (Some 1)), initial_world)
    /\ shape g = shape two_voxel_ct
    /\ forall v, in_range (shape two_voxel_ct) v ->
         exists r, elems g v = XFin r
                   /\ (0 <= r <= 1)%R
                   /\ (r = 1%R <-> In v [(0, 1, 0)])
                   /\ (~ In v [(0, 1, 0)] -> (r < 1)%R).
Proof.
  destruct two_voxel_distance as (edm & mx & H3 & H4 & H5).
  apply (getGaussianDistanceMap_unit_peak two_voxel_ct [(1, 0, 0)] initial_world
           KEY_SAGITTAL 1 edm mx).
  - reflexivity.
  - constructor; [simpl; lia | constructor].
  - exact H3.
  - exact H4.
  - exact H5.
Defined.

(** One point in a volume of one voxel: the largest distance is 0. *)
Lemma one_voxel_distance :
  exists edm,
    distance_transform_edt
      (array_map (xsub (XFin 1)) (set_ones (np_zeros (shape one_voxel_ct)) [(0, 0, 0)]))
      (sampling_of KEY_SAGITTAL DISTMAP_Z) = Some edm
    /\ array_max edm = Some (XFin 0).
Proof.
  destruct (edt_complement_defined (1, 1, 1) [(0, 0, 0)] [(0, 0, 0)]
              (sampling_of KEY_SAGITTAL DISTMAP_Z))
    as (edm & mx & H3 & H4); [reflexivity | discriminate |].
  destruct (array_max_sign _ _ _ _ _ H3 H4) as (m & -> & Hzero & _).
  { apply sampling_of_nonzero. discriminate. }
  exists edm. split; [exact H3|]. rewrite H4, Hzero; [reflexivity|].
  intros [[i j] k] Hv. simpl in Hv. left. f_equal; [f_equal|]; lia.
Qed.

Lemma getGaussianDistanceMap_zero_max_nan_witness :
  exists g,
    getGaussianDistanceMap one_voxel_ct [(0, 0, 0)] DISTMAP_Z DISTMAP_SIGMA initial_world
    = (Ret (GdmTuple (Some g) (Some KEY_SAGITTAL) (Some 0)), initial_world)
    /\ forall v, in_range (shape one_voxel_ct) v -> elems g v = XNaN.
Proof.
  destruct one_voxel_distance as (edm & H3 & H4).
  exact (getGaussianDistanceMap_zero_max_nan one_voxel_ct [(0, 0, 0)] DISTMAP_Z
           DISTMAP_SIGMA initial_world KEY_SAGITTAL 0 [(0, 0, 0)] edm
           eq_refl eq_refl H3 H4).
Defined.

(** C9 as stated fails: on the one-voxel volume the largest distance is 0, yet
    the function returns a map (holding NaN) instead of failing. *)
Lemma getGaussianDistanceMap_zero_max_no_failure :
  exists edm g,
    distance_transform_edt
      (array_map (xsub (XFin 1)) (set_ones (np_zeros (shape one_voxel_ct)) [(0, 0, 0)]))
      (sampling_of KEY_SAGITTAL DISTMAP_Z) = Some edm
    /\ array_max edm = Some (XFin 0)
    /\ getGaussianDistanceMap one_voxel_ct [(0, 0, 0)] DISTMAP_Z DISTMAP_SIGMA
         initial_world
       = (Ret (GdmTuple (Some g) (Some KEY_SAGITTAL) (Some 0)), initial_world)
    /\ elems g (0, 0, 0) = XNaN.
Proof.
  destruct one_voxel_distance as (edm & H3 & H4).
  exists edm. eexists. split; [exact H3|]. split; [exact H4|]. split.
  - apply (getGaussianDistanceMap_run one_voxel_ct [(0, 0, 0)] DISTMAP_Z
             DISTMAP_SIGMA initial_world KEY_SAGITTAL 0 [(0, 0, 0)] edm (XFin 0));
      [reflexivity | reflexivity | exact H3 | exact H4].
  - destruct (prior_values _ _ _ _ _ DISTMAP_SIGMA H3 H4)
      as (_ & m & [= <-] & _ & Hnan & _).
    apply Hnan; [reflexivity | simpl; lia].
Qed.

(** ** Weakest preconditions for the monad *)

Lemma wp_ret {A} (a : A) Q w : Q (Ret a) w -> wp (mret a) Q w.
Proof. intros H. exact H. Qed.

Lemma wp_raise {A} (e : exn) (Q : result A -> world -> Prop) w :
  Q (Raise e) w -> wp (raise e) Q w.
Proof. intros H. exact H. Qed.

Lemma wp_bind {A B} (m : M A) (f : A -> M B) Q w :
  wp m (fun r w' => match r with
                    | Ret a => wp (f a) Q w'
                    | Raise e => Q (Raise e) w'
                    end) w ->
  wp (m ≫= f) Q w.
Proof.
  unfold wp, mbind, M_bind. destruct (m w) as [[a|e] w']; simpl; auto.
Qed.

Lemma wp_try {A} (body : M A) (handler : exn -> M A) Q w :
  wp body (fun r w' => match r with
                       | Ret a => Q (Ret a) w'
                       | Raise e => wp (handler e) Q w'
                       end) w ->
  wp (try_except body handler) Q w.
Proof.
  unfold wp, try_except. destruct (body w) as [[a|e] w']; simpl; auto.
Qed.

Lemma wp_mono {A} (m : M A) (Q Q' : result A -> world -> Prop) w :
  wp m Q w -> (forall r w', Q r w' -> Q' r w') -> wp m Q' w.
Proof. unfold wp. auto. Qed.

Lemma wp_run {A} (m : M A) Q w r w' : wp m Q w -> m w = (r, w') -> Q r w'.
Proof. unfold wp. intros H E. rewrite E in H. exact H. Qed.

Lemma wp_emit ev (Q : result unit -> world -> Prop) w :
  Q (Ret tt) (mkWorld (SESSIONSGLOBAL w) (DCMCLIENT w) (console w ++ [ev])) ->
  wp (emit ev) Q w.
Proof. intros H. exact H. Qed.

Lemma wp_get_world (Q : result world -> world -> Prop) w :
  Q (Ret w) w -> wp get_world Q w.
Proof. intros H. exact H. Qed.

Lemma wp_of_option {A} (o : option A) e (Q : result A -> world -> Prop) w :
  match o with Some a => Q (Ret a) w | None => Q (Raise e) w end ->
  wp (of_option o e) Q w.
Proof. destruct o; intros H; exact H. Qed.

Lemma same_state_refl w : same_state w w.
Proof. split; reflexivity. Qed.

Lemma same_state_trans w1 w2 w3 :
  same_state w1 w2 -> same_state w2 w3 -> same_state w1 w3.
Proof. intros [? ?] [? ?]. split; congruence. Qed.

Lemma same_state_log w ev :
  same_state w (mkWorld (SESSIONSGLOBAL w) (DCMCLIENT w) (console w ++ [ev])).
Proof. split; reflexivity. Qed.

#[local] Hint Resolve same_state_refl same_state_log : core.

(** A handler that logs and returns a value. *)
Lemma wp_log_and_return {A} (e : exn) (a : A) (P : A -> Prop) w0 w :
  same_state w0 w -> P a ->
  wp (print_exc e;; set_trace;; mret a) (returns_quietly w0 P) w.
Proof.
  intros Hs HP. exists a. split; [reflexivity|]. split; [|exact HP].
  destruct Hs as [? ?]. split; simpl; assumption.
Qed.

(** ** The scribble transform never raises and touches no session *)

Lemma scan_views_world views pts w : (scan_views views pts w).2 = w.
Proof.
  induction views as [|viewIdx rest IH]; [reflexivity|].
  destruct pts as [|p pts]; [reflexivity|].
  simpl. munfold. simpl.
  destruct (length _ =? 1)%nat; [reflexivity|]. exact IH.
Qed.

Lemma getViewTypeAndSliceId_total pts w :
  exists v w', getViewTypeAndSliceId pts w = (Ret v, w') /\ same_state w w'.
Proof.
  unfold getViewTypeAndSliceId, try_except.
  pose proof (scan_views_world [0; 1; 2]%nat pts w) as Hw.
  destruct (scan_views [0; 1; 2]%nat pts w) as [[v|e] w']; simpl in Hw; subst w'.
  - exists v, w. auto.
  - eexists. eexists. split; [reflexivity|]. split; reflexivity.
Qed.

(** Points that share no coordinate on any axis: no view is detected. *)
Lemma getViewTypeAndSliceId_ambiguous pts w :
  pts <> [] ->
  ~ single_valued 0 pts -> ~ single_valued 1 pts -> ~ single_valued 2 pts ->
  getViewTypeAndSliceId pts w = (Ret (None, None), w).
Proof.
  intros Hne N0 N1 N2. unfold getViewTypeAndSliceId, try_except.
  do 3 (rewrite scan_views_miss by auto). reflexivity.
Qed.

Lemma getGaussianDistanceMap_ambiguous ctArray pts distZ sigma w :
  pts <> [] ->
  ~ single_valued 0 pts -> ~ single_valued 1 pts -> ~ single_valued 2 pts ->
  getGaussianDistanceMap ctArray pts distZ sigma w = (Ret GdmNone, w).
Proof.
  intros Hne N0 N1 N2. unfold getGaussianDistanceMap. munfold.
  rewrite getViewTypeAndSliceId_ambiguous by assumption. reflexivity.
Qed.

Lemma getGaussianDistanceMap_total ctArray pts distZ sigma w :
  exists r w',
    getGaussianDistanceMap ctArray pts distZ sigma w = (Ret r, w') /\ same_state w w'.
Proof.
  unfold getGaussianDistanceMap.
  destruct (getViewTypeAndSliceId_total pts w) as ([vt sl] & w1 & E & Hs).
  munfold. rewrite E. cbv beta iota.
  destruct vt as [vt|]; [destruct sl as [sl|]|]; try (eexists; eexists; split; [reflexivity | exact Hs]).
  unfold scatter_ones. munfold.
  destruct (point_voxels _ pts) as [marked|]; cbv beta iota.
  - destruct (distance_transform_edt _ _) as [edm|]; cbv beta iota.
    + destruct (array_max edm) as [mx|]; cbv beta iota;
        (eexists; eexists; split; [reflexivity|];
         destruct Hs; split; simpl; assumption).
    + eexists; eexists; split; [reflexivity|]. destruct Hs; split; simpl; assumption.
  - eexists; eexists; split; [reflexivity|]. destruct Hs; split; simpl; assumption.
Qed.

Lemma set_channel_frame t c a t' :
  set_channel t c a = Some t' ->
  tshape t' = tshape t /\ forall c', c' <> c -> tchan t' c' = tchan t c'.
Proof.
  unfold set_channel.
  destruct (shape_eqb _ _); [|destruct (broadcastable _ _); [|discriminate]];
    intros [= <-]; (split; [reflexivity|]); intros c' Hc; simpl;
    apply Nat.eqb_neq in Hc; rewrite Hc; reflexivity.
Qed.

(** One polarity branch of [getDistanceMap]: the map is computed, unpacked
    and written to channel [c]. *)
Lemma polarity_branch t c ctArray pts distZ sigma w :
  exists r w',
    (r ← getGaussianDistanceMap ctArray pts distZ sigma;
     m ← unpack3 r;
     write_prior t c m) w = (r, w')
    /\ same_state w w'
    /\ match r with
       | Ret t' => tshape t' = tshape t /\ forall c', c' <> c -> tchan t' c' = tchan t c'
       | Raise _ => True
       end.
Proof.
  destruct (getGaussianDistanceMap_total ctArray pts distZ sigma w)
    as (r & w1 & E & Hs).
  unfold write_prior, unpack3. munfold. rewrite E. cbv beta iota.
  destruct r as [|[a|] vt sl]; cbv beta iota;
    try (eexists; eexists; split; [reflexivity|]; split; [exact Hs | exact I]).
  destruct (set_channel t c a) as [t'|] eqn:Es; cbv beta iota.
  - eexists; eexists; split; [reflexivity|]. split; [exact Hs|].
    apply set_channel_frame in Es. exact Es.
  - eexists; eexists; split; [reflexivity|]. split; [exact Hs | exact I].
Qed.

Lemma getDistanceMap_spec t ty pts distZ sigma w :
  exists t' w',
    getDistanceMap t ty pts distZ sigma w = (Ret t', w')
    /\ same_state w w'
    /\ tshape t' = tshape t
    /\ (ty = KEY_SCRIBBLE_FGD -> forall c, c <> 3%nat -> tchan t' c = tchan t c)
    /\ (ty = KEY_SCRIBBLE_BGD -> forall c, c <> 4%nat -> tchan t' c = tchan t c)
    /\ (ty <> KEY_SCRIBBLE_FGD -> ty <> KEY_SCRIBBLE_BGD ->
        t' = t /\ console w' = console w ++ [Print "Unknown scribbleType"]).
Proof.
  unfold getDistanceMap, try_except.
  destruct (String.eqb_spec ty KEY_SCRIBBLE_FGD) as [Ef|Nf];
    [|destruct (String.eqb_spec ty KEY_SCRIBBLE_BGD) as [Eb|Nb]].
  - destruct (polarity_branch t 3 (channel t 0) pts distZ sigma w)
      as ([t'|e] & w' & E & Hs & Hfr); rewrite E.
    + exists t', w'. destruct Hfr as [Hsh Hch].
      repeat split; try apply Hs; auto.
      * intros Eb c Hc. subst ty. discriminate.
      * congruence.
      * congruence.
    + eexists; eexists; split; [reflexivity|].
      destruct Hs as [? ?]. repeat split; simpl; auto; congruence.
  - destruct (polarity_branch t 4 (channel t 0) pts distZ sigma w)
      as ([t'|e] & w' & E & Hs & Hfr); rewrite E.
    + exists t', w'. destruct Hfr as [Hsh Hch].
      repeat split; try apply Hs; auto; congruence.
    + eexists; eexists; split; [reflexivity|].
      destruct Hs as [? ?]. repeat split; simpl; auto; congruence.
  - eexists; eexists; split; [reflexivity|].
    repeat split; simpl; auto; congruence.
Qed.

(** On an ambiguous point set [getDistanceMap] hands the tensor back as it
    was, whatever the polarity. *)
Lemma getDistanceMap_ambiguous t ty pts distZ sigma w :
  pts <> [] ->
  ~ single_valued 0 pts -> ~ single_valued 1 pts -> ~ single_valued 2 pts ->
  exists w', getDistanceMap t ty pts distZ sigma w = (Ret t, w') /\ same_state w w'.
Proof.
  intros Hne N0 N1 N2. unfold getDistanceMap, try_except. munfold.
  destruct (String.eqb ty KEY_SCRIBBLE_FGD);
    [|destruct (String.eqb ty KEY_SCRIBBLE_BGD)];
    rewrite ?getGaussianDistanceMap_ambiguous by assumption;
    (eexists; split; [reflexivity|]; split; reflexivity).
Qed.

(** ** Session references *)

Lemma lookup_entry_same w w' ref :
  SESSIONSGLOBAL w' = SESSIONSGLOBAL w -> lookup_entry w' ref = lookup_entry w ref.
Proof. unfold lookup_entry. intros ->. reflexivity. Qed.

Lemma lookup_entry_client w ref e :
  lookup_entry w ref = Some e ->
  exists d, SESSIONSGLOBAL w !! ref.1 = Some d /\ d !! ref.2 = Some e.
Proof.
  unfold lookup_entry. destruct (SESSIONSGLOBAL w !! ref.1) as [d|]; [|discriminate].
  simpl. eauto.
Qed.

Lemma sessions_with_lookup (m : gmap string (gmap string entry)) ref s e :
  (d ← m !! ref.1; d !! ref.2) = Some e ->
  (d ← sessions_with m ref s !! ref.1; d !! ref.2) = Some (ESession s).
Proof.
  unfold sessions_with. destruct (m !! ref.1) as [d|] eqn:E; [|discriminate].
  intros _. rewrite lookup_insert_eq. simpl. apply lookup_insert_eq.
Qed.

Lemma sessions_with_other (m : gmap string (gmap string entry)) ref ref' s :
  ref' <> ref ->
  (d ← sessions_with m ref s !! ref'.1; d !! ref'.2) = (d ← m !! ref'.1; d !! ref'.2).
Proof.
  intros Hne. unfold sessions_with. destruct (m !! ref.1) as [d|] eqn:E; [|reflexivity].
  destruct (decide (ref.1 = ref'.1)) as [E1|N1].
  - rewrite E1, lookup_insert_eq. rewrite <- E1, E. simpl.
    apply lookup_insert_ne. intros E2. apply Hne.
    destruct ref, ref'. simpl in *. congruence.
  - rewrite lookup_insert_ne by exact N1. reflexivity.
Qed.

Lemma sessions_with_twice (m : gmap string (gmap string entry)) ref s1 s2 :
  sessions_with (sessions_with m ref s1) ref s2 = sessions_with m ref s2.
Proof.
  unfold sessions_with. destruct (m !! ref.1) as [d|] eqn:E.
  - rewrite lookup_insert_eq, insert_insert_eq, insert_insert_eq. reflexivity.
  - rewrite E. reflexivity.
Qed.

Lemma sessions_with_same (m : gmap string (gmap string entry)) ref s :
  (d ← m !! ref.1; d !! ref.2) = Some (ESession s) -> sessions_with m ref s = m.
Proof.
  unfold sessions_with. destruct (m !! ref.1) as [d|] eqn:E; [|reflexivity].
  simpl. intros Hd. rewrite (insert_id d _ _ Hd). apply insert_id. exact E.
Qed.

Lemma sessions_with_client (m : gmap string (gmap string entry)) ref s :
  is_Some (m !! ref.1) -> is_Some (sessions_with m ref s !! ref.1).
Proof.
  intros [d E]. unfold sessions_with. rewrite E, lookup_insert_eq. eauto.
Qed.

Lemma read_session_run ref w s :
  lookup_entry w ref = Some (ESession s) -> read_session ref w = (Ret s, w).
Proof. intros E. unfold read_session. munfold. rewrite E. reflexivity. Qed.

Lemma read_session_str ref w x :
  lookup_entry w ref = Some (EStr x) -> read_session ref w = (Raise TypeError, w).
Proof. intros E. unfold read_session. munfold. rewrite E. reflexivity. Qed.

Lemma read_session_none ref w :
  lookup_entry w ref = None -> read_session ref w = (Raise KeyError, w).
Proof. intros E. unfold read_session. munfold. rewrite E. reflexivity. Qed.

Lemma modify_session_run ref f w s :
  lookup_entry w ref = Some (ESession s) ->
  modify_session ref f w
  = (Ret tt, mkWorld (sessions_with (SESSIONSGLOBAL w) ref (f s)) (DCMCLIENT w) (console w)).
Proof.
  intros E. unfold modify_session. munfold. rewrite (read_session_run _ _ _ E).
  apply lookup_entry_client in E as (d & Ed & _).
  unfold sessions_with. rewrite Ed. reflexivity.
Qed.

(** C3 (as the code behaves). [getDistanceMap] always returns: with polarity
    'fgd' every channel but 3 is as before (channel 4 in particular), with
    'bgd' every channel but 4 (channel 3 in particular); with any other
    polarity it prints an unknown-scribble-type message and hands back the
    tensor unmodified, without failing.  No session is touched. *)
Theorem getDistanceMap_polarity_frame
    (t : tensor) (ty : string) (pts : list (Z * Z * Z)) (distZ : Z) (sigma : R)
    (w : world) :
  exists t' w',
    getDistanceMap t ty pts distZ sigma w = (Ret t', w')
    /\ same_state w w'
    /\ tshape t' = tshape t
    /\ (ty = KEY_SCRIBBLE_FGD -> forall c, c <> 3%nat -> tchan t' c = tchan t c)
    /\ (ty = KEY_SCRIBBLE_BGD -> forall c, c <> 4%nat -> tchan t' c = tchan t c)
    /\ (ty <> KEY_SCRIBBLE_FGD -> ty <> KEY_SCRIBBLE_BGD ->
        t' = t /\ console w' = console w ++ [Print "Unknown scribbleType"]).
Proof. apply getDistanceMap_spec. Qed.

(** C3 as stated fails: an unknown polarity is not a failure, the call
    returns normally. *)
Lemma getDistanceMap_unknown_polarity_returns :
  getDistanceMap (torch_zeros (1, 1, 1)) "erase" [(0, 0, 0)] DISTMAP_Z DISTMAP_SIGMA
    initial_world
  = (Ret (torch_zeros (1, 1, 1)),
     mkWorld ∅ None [Print "Unknown scribbleType"]).
Proof. reflexivity. Qed.

(** ** The publisher *)

Lemma set_segOrthancID_same s : set_segOrthancID (segOrthancID s) s = s.
Proof. destruct s. reflexivity. Qed.

Lemma sessions_with_unchanged w ref s :
  lookup_entry w ref = Some (ESession s) ->
  SESSIONSGLOBAL w
  = sessions_with (SESSIONSGLOBAL w) ref (set_segOrthancID (segOrthancID s) s).
Proof.
  intros E. rewrite set_segOrthancID_same. symmetry. apply sessions_with_same.
  exact E.
Qed.

Lemma delete_existing_spec env url id w :
  exists w',
    delete_existing env url id w
    = (Ret (match id, requests_delete env with
            | Some _, HttpRaises _ => Some (MsdBare false)
            | _, _ => None
            end), w')
    /\ same_state w w'.
Proof.
  unfold delete_existing. munfold.
  destruct id as [id|]; [|eexists; split; [reflexivity | auto]].
  destruct (requests_delete env) as [e|code jid]; cbv beta iota;
    (eexists; split; [reflexivity|]; split; reflexivity).
Qed.

Lemma post_new_spec env url old w :
  exists w',
    post_new env url old w
    = (Ret (match requests_post env with
            | HttpRaises _ => inl (MsdBare false)
            | HttpStatus code json_id =>
                if code =? 200 then
                  match json_id with
                  | Some id => inr (Some id)
                  | None => inl (MsdBare false)
                  end
                else inr old
            end), w')
    /\ same_state w w'.
Proof.
  unfold post_new. munfold.
  destruct (requests_post env) as [e|code json_id]; cbv beta iota.
  - eexists; split; [reflexivity|]; split; reflexivity.
  - destruct (code =? 200); [destruct json_id as [id|]|destruct (code =? 404)];
      cbv beta iota; (eexists; split; [reflexivity|]; split; reflexivity).
Qed.

(** [makeSEGDicom] never raises; its answer and the published id it leaves in
    the session are those of [publish_outcome]; nothing else changes. *)
Lemma makeSEGDicom_spec env maskArray cid ref w s :
  lookup_entry w ref = Some (ESession s) ->
  exists w',
    makeSEGDicom env maskArray cid ref w
    = (Ret (publish_outcome env maskArray (DCMCLIENT w) s).1, w')
    /\ DCMCLIENT w' = DCMCLIENT w
    /\ SESSIONSGLOBAL w'
       = sessions_with (SESSIONSGLOBAL w) ref
           (set_segOrthancID (publish_outcome env maskArray (DCMCLIENT w) s).2 s).
Proof.
  intros E. pose proof (sessions_with_unchanged w ref s E) as Hsame.
  unfold makeSEGDicom, publish_outcome.
  munfold. rewrite (read_session_run _ _ _ E). cbv beta iota.
  destruct (data s) as [pd|]; cbv beta iota;
    [|eexists; split; [reflexivity|]; split; [reflexivity | exact Hsame]].
  destruct (dcmList s) as [|i l]; cbn [head]; cbv beta iota;
    [eexists; split; [reflexivity|]; split; [reflexivity | exact Hsame]|].
  destruct maskArray as [mask|]; cbv beta iota;
    [|eexists; split; [reflexivity|]; split; [reflexivity | exact Hsame]].
  destruct (write_dicom env) as [e|]; cbv beta iota;
    [eexists; split; [reflexivity|]; split; [reflexivity | exact Hsame]|].
  cbn [DCMCLIENT].
  destruct (DCMCLIENT w) as [client|] eqn:Ec; cbv beta iota;
    [|eexists; split; [reflexivity|]; split; [reflexivity | exact Hsame]].
  match goal with
  | |- context [delete_existing env ?url ?id ?w0] =>
      destruct (delete_existing_spec env url id w0) as (w1 & Ed & Hs1 & Hc1)
  end.
  rewrite Ed. clear Ed.
  assert (SESSIONSGLOBAL w1 = SESSIONSGLOBAL w) as Hs1' by exact Hs1.
  assert (DCMCLIENT w1 = Some client) as Hc1' by exact Hc1.
  clear Hs1 Hc1.
  assert (forall w2, SESSIONSGLOBAL w2 = SESSIONSGLOBAL w1 ->
                     lookup_entry w2 ref = Some (ESession s)) as Hlook.
  { intros w2 H2. rewrite (lookup_entry_same w w2) by congruence. exact E. }
  assert (exists w',
    (let (r, w'0) :=
       let (r, w'0) := post_new env (base_url client) (segOrthancID s) w1 in
       match r with
       | Ret a =>
           match a with
           | inl r0 => mret r0
           | inr instanceOrthanID' =>
               modify_session ref (set_segOrthancID instanceOrthanID');;
               mret (MsdTuple true)
           end w'0
       | Raise e => (Raise e, w'0)
       end in
     match r with
     | Ret a => (Ret a, w'0)
     | Raise e => ((print_exc e;; set_trace;; mret (MsdTuple false)) w'0)
     end)
    = (Ret (match requests_post env with
            | HttpRaises _ => (MsdBare false, segOrthancID s)
            | HttpStatus code json_id =>
                if code =? 200 then
                  match json_id with
                  | Some id => (MsdTuple true, Some id)
                  | None => (MsdBare false, segOrthancID s)
                  end
                else (MsdTuple true, segOrthancID s)
            end).1, w')
    /\ DCMCLIENT w' = Some client
    /\ SESSIONSGLOBAL w'
       = sessions_with (SESSIONSGLOBAL w) ref
           (set_segOrthancID
              (match requests_post env with
               | HttpRaises _ => (MsdBare false, segOrthancID s)
               | HttpStatus code json_id =>
                   if code =? 200 then
                     match json_id with
                     | Some id => (MsdTuple true, Some id)
                     | None => (MsdBare false, segOrthancID s)
                     end
                   else (MsdTuple true, segOrthancID s)
               end).2 s)) as Hpost.
  { destruct (post_new_spec env (base_url client) (segOrthancID s) w1)
      as (w2 & Ep & Hs2 & Hc2).
    rewrite Ep. pose proof (Hlook w2 Hs2) as E2.
    assert (DCMCLIENT w2 = Some client) as Hc by congruence.
    assert (SESSIONSGLOBAL w2 = SESSIONSGLOBAL w) as Hs by congruence.
    munfold.
    destruct (requests_post env) as [e|code json_id]; cbv beta iota.
    - eexists; split; [reflexivity|]; split; [exact Hc|].
      rewrite Hs. exact Hsame.
    - destruct (code =? 200); [destruct json_id as [id|]|]; cbv beta iota;
        try (rewrite (modify_session_run _ _ _ _ E2); cbv beta iota;
             eexists; split; [reflexivity|]; split; [exact Hc|];
             cbn [SESSIONSGLOBAL]; rewrite Hs; reflexivity).
      eexists; split; [reflexivity|]; split; [exact Hc|].
      rewrite Hs. exact Hsame. }
  munfold.
  destruct (segOrthancID s) as [old|] eqn:Eold.
  - destruct (requests_delete env) as [e|code jid]; cbv beta iota.
    + eexists; split; [reflexivity|]; split; [exact Hc1'|].
      rewrite Hs1'. exact Hsame.
    + exact Hpost.
  - cbv beta iota. exact Hpost.
Qed.

(** ** A refine turn *)

Lemma doInference_run env t w :
  exists w', doInference env t w = (Ret (inference_result env t), w') /\ same_state w w'.
Proof.
  unfold doInference, inference_result. munfold.
  destruct (MODEL env t); cbv beta iota;
    (eexists; split; [reflexivity|]; split; reflexivity).
Qed.

Lemma checked_copy_world ref w : (checked_copy ref w).2 = w.
Proof.
  unfold checked_copy, read_session, as_tensor, assert_. munfold.
  destruct (lookup_entry w ref) as [[x|s]|]; try reflexivity. cbv beta iota.
  destruct (torchData s); try reflexivity. cbv beta iota.
  destruct (_ && _); reflexivity.
Qed.

Lemma checked_copy_ret ref w t :
  (checked_copy ref w).1 = Ret t <->
  exists s, lookup_entry w ref = Some (ESession s)
            /\ torchData s = Tensor t
            /\ xis_zero (array_sum (channel t 3)) = true
            /\ xis_zero (array_sum (channel t 4)) = true.
Proof.
  unfold checked_copy, read_session, as_tensor, assert_. munfold.
  destruct (lookup_entry w ref) as [[x|s]|]; cbv beta iota.
  - split; [discriminate | intros (s & [=] & _)].
  - destruct (torchData s) as [| |t0] eqn:Et; cbv beta iota.
    + split; [discriminate | intros (s' & [= <-] & Ht & _); congruence].
    + split; [discriminate | intros (s' & [= <-] & Ht & _); congruence].
    + destruct (xis_zero (array_sum (channel t0 3))) eqn:E3;
        [destruct (xis_zero (array_sum (channel t0 4))) eqn:E4|]; simpl.
      * split.
        -- intros [= <-]. exists s. auto.
        -- intros (s' & [= <-] & Ht & _). congruence.
      * split; [discriminate|]. intros (s' & [= <-] & Ht & _ & H4). congruence.
      * split; [discriminate|]. intros (s' & [= <-] & Ht & H3 & _). congruence.
  - split; [discriminate | intros (s & [=] & _)].
Qed.

Lemma infer_and_publish_spec env cid ref pd t w s :
  lookup_entry w ref = Some (ESession s) ->
  let s1 := set_scribbleCounter (scribbleCounter s + 1) s in
  let out := publish_outcome env (inference_result env t) (DCMCLIENT w) s1 in
  exists w',
    infer_and_publish env cid ref pd t w = (turn_result out.1 pd s1, w')
    /\ DCMCLIENT w' = DCMCLIENT w
    /\ SESSIONSGLOBAL w' = sessions_with (SESSIONSGLOBAL w) ref (after_turn s out.2).
Proof.
  intros E s1 out. unfold infer_and_publish. munfold.
  destruct (doInference_run env t w) as (w1 & Ei & Hs1 & Hc1). rewrite Ei.
  cbv beta iota.
  assert (lookup_entry w1 ref = Some (ESession s)) as E1
    by (rewrite (lookup_entry_same w w1) by exact Hs1; exact E).
  rewrite (modify_session_run _ _ _ _ E1). cbv beta iota.
  match goal with
  | |- context [makeSEGDicom env ?m cid ref ?w0] =>
      destruct (makeSEGDicom_spec env m cid ref w0 s1) as (w2 & Em & Hc2 & Hs2)
  end.
  { unfold lookup_entry. cbn [SESSIONSGLOBAL].
    apply (sessions_with_lookup (SESSIONSGLOBAL w1) ref s1 (ESession s)). exact E1. }
  rewrite Em. cbn [DCMCLIENT SESSIONSGLOBAL] in Hc2, Hs2. cbn [DCMCLIENT].
  rewrite Hc1 in Hc2. rewrite Hc1, Hs1, sessions_with_twice in Hs2.
  fold s1. rewrite Hc1. clear Em.
  assert (lookup_entry w2 ref = Some (ESession (after_turn s out.2))) as E2.
  { unfold lookup_entry. rewrite Hs2.
    apply (sessions_with_lookup (SESSIONSGLOBAL w) ref _ (ESession s)). exact E. }
  unfold unpack2, turn_result. subst out.
  destruct (publish_outcome env (inference_result env t) (DCMCLIENT w) s1)
    as [[b|[|]] id]; cbn [fst snd] in *; munfold; cbv beta iota;
    cbn [negb]; cbv beta iota.
  - exists w2. auto.
  - destruct pd as [pd|]; cbv beta iota.
    + rewrite (read_session_run _ _ _ E2). cbv beta iota. exists w2. auto.
    + exists w2. auto.
  - exists w2. auto.
Qed.

Lemma checked_copy_run ref w s t :
  lookup_entry w ref = Some (ESession s) -> torchData s = Tensor t ->
  xis_zero (array_sum (channel t 3)) = true ->
  xis_zero (array_sum (channel t 4)) = true ->
  checked_copy ref w = (Ret t, w).
Proof.
  intros E Et H3 H4.
  pose proof (checked_copy_world ref w) as Hw.
  assert ((checked_copy ref w).1 = Ret t) as Hr
    by (apply checked_copy_ret; exists s; auto).
  destruct (checked_copy ref w) as [r w']. simpl in *. congruence.
Qed.

Lemma session_present w ref :
  match SESSIONSGLOBAL w !! ref.1 with
  | None => false
  | Some d => bool_decide (is_Some (d !! ref.2))
  end = true <-> is_Some (lookup_entry w ref).
Proof.
  unfold lookup_entry. destruct (SESSIONSGLOBAL w !! ref.1) as [d|]; simpl.
  - rewrite bool_decide_eq_true. reflexivity.
  - split; [discriminate | intros [x [=]]].
Qed.

(** A turn that gets as far as the scribble: the answer and the session
    afterwards are those of the publish step on the tensor [getDistanceMap]
    hands back. *)
Lemma process_ready env payload w s t :
  turn_ready env w (process_ref payload) s t ->
  exists t' w1 w2 w',
    same_state w w1
    /\ getDistanceMap t (scribbleType (process_data payload))
         (points3D (process_data payload)) DISTMAP_Z DISTMAP_SIGMA w1 = (Ret t', w2)
    /\ process env payload w
       = (Ret (answer
                 (turn_result
                    (publish_outcome env (inference_result env t') (DCMCLIENT w)
                       (set_scribbleCounter (scribbleCounter s + 1) s)).1
                    (data s) (set_scribbleCounter (scribbleCounter s + 1) s))), w')
    /\ DCMCLIENT w' = DCMCLIENT w
    /\ SESSIONSGLOBAL w'
       = sessions_with (SESSIONSGLOBAL w) (process_ref payload)
           (after_turn s
              (publish_outcome env (inference_result env t') (DCMCLIENT w)
                 (set_scribbleCounter (scribbleCounter s + 1) s)).2).
Proof.
  intros (Hp & E & Et & H3 & H4).
  set (w1 := mkWorld (SESSIONSGLOBAL w) (DCMCLIENT w)
               ((console w ++ [Print "/process"]) ++ [Print "Memory usage"])).
  assert (lookup_entry w1 (process_ref payload) = Some (ESession s)) as E1 by exact E.
  destruct (getDistanceMap_spec t (scribbleType (process_data payload))
              (points3D (process_data payload)) DISTMAP_Z DISTMAP_SIGMA w1)
    as (t' & w2 & Eg & [Hs2 Hc2] & _).
  change (DCMCLIENT w1) with (DCMCLIENT w) in Hc2.
  change (SESSIONSGLOBAL w1) with (SESSIONSGLOBAL w) in Hs2.
  assert (lookup_entry w2 (process_ref payload) = Some (ESession s)) as E2
    by (rewrite (lookup_entry_same w w2) by exact Hs2; exact E).
  destruct (infer_and_publish_spec env (process_identifier payload)
              (process_ref payload) (data s) t' w2 s E2) as (w3 & Ep & Hc3 & Hs3).
  rewrite Hc2 in Ep, Hc3, Hs3. rewrite Hs2 in Hs3.
  exists t', w1, w2.
  unfold process, process_body, getMemoryUsage. munfold.
  assert (match SESSIONSGLOBAL w !! process_identifier payload with
          | None => false
          | Some d => bool_decide (is_Some (d !! process_caseName (process_data payload)))
          end = true) as ->.
  { apply (session_present w (process_ref payload)). rewrite E. eauto. }
  rewrite Hp. cbn [String.eqb Ascii.eqb Bool.eqb]. munfold. cbv beta iota.
  cbn [SESSIONSGLOBAL DCMCLIENT console].
  fold w1. change (process_identifier payload, process_caseName (process_data payload))
    with (process_ref payload).
  rewrite (read_session_run _ _ _ E1). cbv beta iota.
  rewrite (checked_copy_run _ _ _ _ E1 Et H3 H4). cbv beta iota.
  rewrite Eg. cbv beta iota. rewrite Ep.
  destruct (turn_result _ _ _) as [resp|e]; cbv beta iota;
    (eexists; split; [split; reflexivity|]; split; [reflexivity|];
     split; [reflexivity|]; split; [exact Hc3 | exact Hs3]).
Qed.

(** A turn that does not get as far as the scribble fails with status 500 and
    leaves the session table and the client as they were. *)
Lemma process_not_ready env payload w :
  (forall s t, ~ turn_ready env w (process_ref payload) s t) ->
  exists e w', process env payload w = (Ret (Failed 500 e), w') /\ same_state w w'.
Proof.
  intros Hnot. unfold process, process_body, getMemoryUsage. munfold.
  destruct (String.eqb_spec (platform_system env) "Darwin") as [Hp|Hp];
    munfold; cbv beta iota;
    [|eexists; eexists; split; [reflexivity|]; split; reflexivity].
  change (process_identifier payload, process_caseName (process_data payload))
    with (process_ref payload).
  cbn [SESSIONSGLOBAL DCMCLIENT console].
  set (w1 := mkWorld (SESSIONSGLOBAL w) (DCMCLIENT w)
               ((console w ++ [Print "/process"]) ++ [Print "Memory usage"])).
  destruct (match SESSIONSGLOBAL w !! process_identifier payload with
            | None => false
            | Some d => bool_decide (is_Some (d !! process_caseName (process_data payload)))
            end) eqn:Hpresent;
    [|eexists; eexists; split; [reflexivity|]; split; reflexivity].
  apply (session_present w (process_ref payload)) in Hpresent as [en E].
  assert (lookup_entry w1 (process_ref payload) = Some en) as E1 by exact E.
  destruct en as [x|s].
  - rewrite (read_session_str _ _ _ E1). cbv beta iota.
    eexists; eexists; split; [reflexivity|]; split; reflexivity.
  - rewrite (read_session_run _ _ _ E1). cbv beta iota.
    pose proof (checked_copy_world (process_ref payload) w1) as Hw.
    pose proof (checked_copy_ret (process_ref payload) w1) as Hr.
    destruct (checked_copy (process_ref payload) w1) as [[t|e] w'].
    + exfalso. destruct (Hr t) as [(s' & E' & Et & H3 & H4) _]; [reflexivity|].
      apply (Hnot s' t). repeat split; auto.
    + simpl in Hw. subst w'. cbv beta iota.
      eexists; eexists; split; [reflexivity|]; split; reflexivity.
Qed.

(** Either of the two: every turn is ready for some session and tensor, or for
    none. *)
Lemma turn_ready_dec env w ref :
  (exists s t, turn_ready env w ref s t) \/ (forall s t, ~ turn_ready env w ref s t).
Proof.
  unfold turn_ready.
  destruct (String.eqb_spec (platform_system env) "Darwin") as [Hp|Hp];
    [|right; intros s t (? & _); contradiction].
  destruct (lookup_entry w ref) as [[x|s]|] eqn:E;
    try solve [right; intros s' t' (_ & [=] & _)].
  destruct (torchData s) as [| |t] eqn:Et;
    try solve [right; intros s' t' (_ & [= <-] & Et' & _); congruence].
  destruct (xis_zero (array_sum (channel t 3))) eqn:H3;
    [|right; intros s' t' (_ & [= <-] & Et' & H3' & _);
      assert (t' = t) by congruence; subst; congruence].
  destruct (xis_zero (array_sum (channel t 4))) eqn:H4;
    [|right; intros s' t' (_ & [= <-] & Et' & _ & H4');
      assert (t' = t) by congruence; subst; congruence].
  left. exists s, t. auto.
Qed.

(** ** The reset check *)

Lemma sum_zero (f : voxel -> xreal) (l : list voxel) :
  (forall v, In v l -> f v = XFin 0) ->
  exists r, fold_right (fun v acc => xadd (f v) acc) (XFin 0) l = XFin r /\ r = 0%R.
Proof.
  induction l as [|v l IH]; intros H; simpl.
  - exists 0%R. auto.
  - destruct IH as (r & -> & ->); [intros u Hu; apply H; right; exact Hu|].
    rewrite (H v) by (left; reflexivity). simpl. eexists. split; [reflexivity|]. lra.
Qed.

Lemma sum_prior (f : voxel -> xreal) (l : list voxel) :
  (forall v, In v l -> prior_value (f v)) ->
  let total := fold_right (fun v acc => xadd (f v) acc) (XFin 0) l in
  (total = XNaN \/ exists r, total = XFin r /\ (0 <= r)%R)
  /\ ((exists v, In v l /\ f v <> XFin 0) -> xis_zero total = false).
Proof.
  induction l as [|v l IH]; intros H; simpl.
  - split; [right; exists 0%R; split; [reflexivity | lra]|]. intros (v & [] & _).
  - destruct IH as (Hrange & Hnz); [intros u Hu; apply H; right; exact Hu|].
    assert (prior_value (f v)) as Hv by (apply H; left; reflexivity).
    destruct Hv as [Ev|(a & Ev & Ha)]; rewrite Ev.
    + simpl. split; [left; reflexivity|]. reflexivity.
    + destruct Hrange as [E|(r & E & Hr)]; rewrite E in *; simpl.
      * split; [left; reflexivity | reflexivity].
      * split; [right; eexists; split; [reflexivity | lra]|].
        intros (u & [<-|Hu] & Hne).
        -- rewrite Ev in Hne. destruct (Req_dec_T (a + r) 0) as [E0|_]; [|reflexivity].
           exfalso. apply Hne. f_equal. lra.
        -- assert (r <> 0%R) as Hr0.
           { intros E0. specialize (Hnz (ex_intro _ u (conj Hu Hne))).
             simpl in Hnz. destruct (Req_dec_T r 0); [discriminate | lra]. }
           destruct (Req_dec_T (a + r) 0) as [E0|_]; [lra | reflexivity].
Qed.

Lemma array_sum_zero a : zero_everywhere a -> xis_zero (array_sum a) = true.
Proof.
  intros H. unfold array_sum.
  destruct (sum_zero (elems a) (all_voxels (shape a))) as (r & -> & ->).
  - intros v Hv. apply H, all_voxels_in_range, Hv.
  - simpl. destruct (Req_dec_T 0 0); [reflexivity | lra].
Qed.

Lemma array_sum_stale a : stale a -> xis_zero (array_sum a) = false.
Proof.
  intros [Hprior (v & Hv & Hne)]. unfold array_sum.
  apply (sum_prior (elems a) (all_voxels (shape a))).
  - intros u Hu. apply Hprior, all_voxels_in_range, Hu.
  - exists v. split; [apply all_voxels_in_range; exact Hv | exact Hne].
Qed.

(** ** The example deployment *)

Lemma prepared_world_session :
  lookup_entry prepared_world ex_ref = Some (ESession ex_session).
Proof. vm_compute. reflexivity. Qed.

Lemma prepared_world_client :
  DCMCLIENT prepared_world = Some (mkClient "http://localhost:8042/dicom-web").
Proof. vm_compute. reflexivity. Qed.

Lemma ex_tensor_clean : tensor_clean ex_tensor.
Proof. split; intros v _; reflexivity. Qed.

Lemma prepared_world_ready :
  turn_ready ex_env prepared_world ex_ref ex_session ex_tensor.
Proof.
  split; [reflexivity|]. split; [exact prepared_world_session|].
  split; [reflexivity|].
  split; apply array_sum_zero, ex_tensor_clean.
Qed.

Lemma ambiguous_points :
  [(1, 1, 1); (2, 2, 2)] <> []
  /\ ~ single_valued 0 [(1, 1, 1); (2, 2, 2)]
  /\ ~ single_valued 1 [(1, 1, 1); (2, 2, 2)]
  /\ ~ single_valued 2 [(1, 1, 1); (2, 2, 2)].
Proof.
  split; [discriminate|].
  repeat split; intros [c Hc];
    assert (1 = c) by (apply (Hc (1, 1, 1)); simpl; auto);
    assert (2 = c) by (apply (Hc (2, 2, 2)); simpl; auto); lia.
Qed.

(** The two points of the scenario in the specification do share their first
    coordinate, so a view is detected for them. *)
Lemma scenario_points_share_axis_0 w :
  getViewTypeAndSliceId [(1, 1, 1); (1, 2, 2)] w = (Ret (Some KEY_SAGITTAL, Some 1), w).
Proof. reflexivity. Qed.

(** What a ready turn does when the scribble leaves the tensor as it was. *)
Lemma process_unchanged_tensor env payload w s t :
  turn_ready env w (process_ref payload) s t ->
  (forall w1, exists w2,
     getDistanceMap t (scribbleType (process_data payload))
       (points3D (process_data payload)) DISTMAP_Z DISTMAP_SIGMA w1 = (Ret t, w2)) ->
  exists w',
    process env payload w
    = (Ret (answer
              (turn_result
                 (publish_outcome env (inference_result env t) (DCMCLIENT w)
                    (set_scribbleCounter (scribbleCounter s + 1) s)).1
                 (data s) (set_scribbleCounter (scribbleCounter s + 1) s))), w')
    /\ DCMCLIENT w' = DCMCLIENT w
    /\ SESSIONSGLOBAL w'
       = sessions_with (SESSIONSGLOBAL w) (process_ref payload)
           (after_turn s
              (publish_outcome env (inference_result env t) (DCMCLIENT w)
                 (set_scribbleCounter (scribbleCounter s + 1) s)).2).
Proof.
  intros Hready Hsame.
  destruct (process_ready env payload w s t Hready)
    as (t' & w1 & w2 & w' & _ & Eg & Ep & Hc & Hs).
  destruct (Hsame w1) as (w2' & Eg'). rewrite Eg' in Eg. injection Eg as <- _.
  exists w'. auto.
Qed.

(** C4 (as the code behaves). On a point set that shares no coordinate on any
    axis, no view is detected, [getGaussianDistanceMap] returns nothing and
    [getDistanceMap] hands the tensor back unmodified: no prior is written
    into any channel.  The request does not fail on that account: a turn that
    got as far as the scribble goes on to inference on the unmodified tensor
    and to the publish step, whose outcome is the answer. *)
Theorem ambiguous_scribble_writes_nothing
    (t : tensor) (pts : list (Z * Z * Z)) :
  pts <> [] ->
  ~ single_valued 0 pts -> ~ single_valued 1 pts -> ~ single_valued 2 pts ->
  (forall distZ sigma w,
     getGaussianDistanceMap (channel t 0) pts distZ sigma w = (Ret GdmNone, w))
  /\ (forall ty distZ sigma w,
        exists w', getDistanceMap t ty pts distZ sigma w = (Ret t, w')
                   /\ same_state w w')
  /\ (forall env payload w s,
        points3D (process_data payload) = pts ->
        turn_ready env w (process_ref payload) s t ->
        exists w',
          process env payload w
          = (Ret (answer
                    (turn_result
                       (publish_outcome env (inference_result env t) (DCMCLIENT w)
                          (set_scribbleCounter (scribbleCounter s + 1) s)).1
                       (data s) (set_scribbleCounter (scribbleCounter s + 1) s))), w')
          /\ SESSIONSGLOBAL w'
             = sessions_with (SESSIONSGLOBAL w) (process_ref payload)
                 (after_turn s
                    (publish_outcome env (inference_result env t) (DCMCLIENT w)
                       (set_scribbleCounter (scribbleCounter s + 1) s)).2)).
Proof.
  intros Hne N0 N1 N2. split; [|split].
  - intros distZ sigma w. apply getGaussianDistanceMap_ambiguous; assumption.
  - intros ty distZ sigma w. apply getDistanceMap_ambiguous; assumption.
  - intros env payload w s Hpts Hready.
    destruct (process_unchanged_tensor env payload w s t Hready) as (w' & E & _ & Hs).
    + intros w1. rewrite Hpts.
      destruct (getDistanceMap_ambiguous t (scribbleType (process_data payload)) pts
                  DISTMAP_Z DISTMAP_SIGMA w1 Hne N0 N1 N2) as (w2 & E & _).
      exists w2. exact E.
    + exists w'. auto.
Qed.

Lemma ambiguous_scribble_writes_nothing_witness :
  (forall distZ sigma w,
     getGaussianDistanceMap (channel ex_tensor 0) [(1, 1, 1); (2, 2, 2)] distZ sigma w
     = (Ret GdmNone, w))
  /\ (forall ty distZ sigma w,
        exists w', getDistanceMap ex_tensor ty [(1, 1, 1); (2, 2, 2)] distZ sigma w
                   = (Ret ex_tensor, w')
                   /\ same_state w w')
  /\ (exists w',
        process ex_env ambiguous_scribble prepared_world
        = (Ret (answer
                  (turn_result
                     (publish_outcome ex_env (inference_result ex_env ex_tensor)
                        (DCMCLIENT prepared_world)
                        (set_scribbleCounter (scribbleCounter ex_session + 1)
                           ex_session)).1
                     (data ex_session)
                     (set_scribbleCounter (scribbleCounter ex_session + 1)
                        ex_session))), w')).
Proof.
  destruct ambiguous_points as (Hne & N0 & N1 & N2).
  destruct (ambiguous_scribble_writes_nothing ex_tensor [(1, 1, 1); (2, 2, 2)]
              Hne N0 N1 N2) as (H1 & H2 & H3).
  split; [exact H1|]. split; [exact H2|].
  destruct (H3 ex_env ambiguous_scribble prepared_world ex_session eq_refl
              prepared_world_ready) as (w' & E & _).
  exists w'. exact E.
Defined.

(** C4 as stated fails: the request with the ambiguous scribble does not fail;
    it is answered with the published series and the turn is counted. *)
Lemma ambiguous_scribble_request_succeeds :
  exists w',
    process ex_env ambiguous_scribble prepared_world
    = (Ret (Returned (mkResponse "study-1" "uid-series" "uid-sop"
                        "http://localhost:8042/dicom-web")), w')
    /\ lookup_entry w' ex_ref
       = Some (ESession (after_turn ex_session (Some "seg-1"))).
Proof.
  destruct ambiguous_points as (Hne & N0 & N1 & N2).
  destruct (process_unchanged_tensor ex_env ambiguous_scribble prepared_world
              ex_session ex_tensor prepared_world_ready) as (w' & E & _ & Hs).
  - intros w1.
    destruct (getDistanceMap_ambiguous ex_tensor "fgd" [(1, 1, 1); (2, 2, 2)]
                DISTMAP_Z DISTMAP_SIGMA w1 Hne N0 N1 N2) as (w2 & E & _).
    exists w2. exact E.
  - rewrite prepared_world_client in E, Hs. exists w'. split; [exact E|].
    unfold lookup_entry. rewrite Hs.
    apply (sessions_with_lookup _ ex_ref _ (ESession ex_session)).
    exact prepared_world_session.
Qed.

(** ** Outcomes of the publish step *)


Lemma publish_outcome_id env mask client s :
  (publish_outcome env mask client s).2 <> segOrthancID s ->
  exists id, requests_post env = HttpStatus 200 (Some id)
             /\ (publish_outcome env mask client s).2 = Some id.
Proof.
  unfold publish_outcome.
  destruct (data s); [|simpl; congruence].
  destruct (dcmList s); [simpl; congruence|].
  destruct mask; [|simpl; congruence].
  destruct (write_dicom env); [simpl; congruence|].
  destruct client; [|simpl; congruence].
  assert (forall old,
    (match requests_post env with
     | HttpRaises _ => (MsdBare false, old)
     | HttpStatus code json_id =>
         if code =? 200 then
           match json_id with
           | Some id => (MsdTuple true, Some id)
           | None => (MsdBare false, old)
           end
         else (MsdTuple true, old)
     end).2 <> old ->
    exists id, requests_post env = HttpStatus 200 (Some id)
               /\ (match requests_post env with
                   | HttpRaises _ => (MsdBare false, old)
                   | HttpStatus code json_id =>
                       if code =? 200 then
                         match json_id with
                         | Some id => (MsdTuple true, Some id)
                         | None => (MsdBare false, old)
                         end
                       else (MsdTuple true, old)
                   end).2 = Some id) as Hpost.
  { intros old. destruct (requests_post env) as [e|code [id|]]; simpl; try congruence.
    - destruct (Z.eqb_spec code 200) as [->|]; simpl; [|congruence].
      intros _. exists id. auto.
    - destruct (code =? 200); simpl; congruence. }
  destruct (segOrthancID s) as [old|]; [destruct (requests_delete env)|];
    simpl; try congruence; apply Hpost.
Qed.

Lemma publish_outcome_success env mask client s pd i l m c id :
  data s = Some pd -> dcmList s = i :: l -> mask = Some m ->
  write_dicom env = None -> client = Some c ->
  (segOrthancID s = None \/ exists code jid, requests_delete env = HttpStatus code jid) ->
  requests_post env = HttpStatus 200 (Some id) ->
  publish_outcome env mask client s = (MsdTuple true, Some id).
Proof.
  intros Hd Hl Hm Hw Hc Hdel Hp. unfold publish_outcome.
  rewrite Hd, Hl, Hm, Hw, Hc, Hp.
  destruct Hdel as [->|(code & jid & ->)]; [reflexivity|].
  destruct (segOrthancID s); reflexivity.
Qed.

(** ** What a refine turn does to the server *)

(** Every [/process] request is answered; it either fails before the scribble
    and changes nothing, or gets as far as the scribble and then leaves the
    session with the counter one higher and the published id of the publish
    step. *)
Lemma process_effect env payload w :
  exists r w',
    process env payload w = (Ret r, w')
    /\ DCMCLIENT w' = DCMCLIENT w
    /\ (((forall s t, ~ turn_ready env w (process_ref payload) s t)
         /\ (exists e, r = Failed 500 e)
         /\ SESSIONSGLOBAL w' = SESSIONSGLOBAL w)
        \/ (exists s t t',
              turn_ready env w (process_ref payload) s t
              /\ r = answer
                       (turn_result
                          (publish_outcome env (inference_result env t') (DCMCLIENT w)
                             (set_scribbleCounter (scribbleCounter s + 1) s)).1
                          (data s) (set_scribbleCounter (scribbleCounter s + 1) s))
              /\ SESSIONSGLOBAL w'
                 = sessions_with (SESSIONSGLOBAL w) (process_ref payload)
                     (after_turn s
                        (publish_outcome env (inference_result env t') (DCMCLIENT w)
                           (set_scribbleCounter (scribbleCounter s + 1) s)).2))).
Proof.
  destruct (turn_ready_dec env w (process_ref payload)) as [(s & t & Hr)|Hn].
  - destruct (process_ready env payload w s t Hr)
      as (t' & w1 & w2 & w' & _ & _ & Ep & Hc & Hs).
    eexists. exists w'. split; [exact Ep|]. split; [exact Hc|].
    right. exists s, t, t'. auto.
  - destruct (process_not_ready env payload w Hn) as (e & w' & Ep & Hs & Hc).
    eexists. exists w'. split; [exact Ep|]. split; [exact Hc|].
    left. split; [exact Hn|]. split; [eauto | exact Hs].
Qed.

Lemma turn_ready_session env w ref s s' t :
  lookup_entry w ref = Some (ESession s) -> turn_ready env w ref s' t -> s' = s.
Proof. intros E (_ & E' & _). congruence. Qed.

Lemma answer_returned {A} (r : result A) body :
  answer r = Returned body -> r = Ret body.
Proof. destruct r; simpl; congruence. Qed.

Lemma turn_result_true status pd s body :
  turn_result status pd s = Ret body -> status = MsdTuple true.
Proof. destruct status as [b|[|]]; simpl; congruence. Qed.

Lemma after_turn_fields s id :
  data (after_turn s id) = data s
  /\ torchData (after_turn s id) = torchData s
  /\ dcmList (after_turn s id) = dcmList s
  /\ segSOPInstanceUID (after_turn s id) = segSOPInstanceUID s
  /\ segSeriesInstanceUID (after_turn s id) = segSeriesInstanceUID s
  /\ dateTime (after_turn s id) = dateTime s
  /\ scribbleCounter (after_turn s id) = scribbleCounter s + 1
  /\ segOrthancID (after_turn s id) = id.
Proof. destruct s. repeat split. Qed.

(** X1. A [/process] request is always answered and never changes the archive
    client.  Sessions other than the one it addresses are left as they are,
    and in the addressed session only the scribble counter and the published
    id can change: the descriptor, the cached tensor, the instance list, the
    two SEG UIDs and the creation time stay. *)
Theorem process_frame (env : environment) (payload : PayloadProcess) (w : world) :
  exists r w',
    process env payload w = (Ret r, w')
    /\ DCMCLIENT w' = DCMCLIENT w
    /\ (forall ref, ref <> process_ref payload ->
          lookup_entry w' ref = lookup_entry w ref)
    /\ (forall x, lookup_entry w (process_ref payload) = Some (EStr x) ->
          lookup_entry w' (process_ref payload) = Some (EStr x))
    /\ (forall s, lookup_entry w (process_ref payload) = Some (ESession s) ->
          exists s',
            lookup_entry w' (process_ref payload) = Some (ESession s')
            /\ data s' = data s
            /\ torchData s' = torchData s
            /\ dcmList s' = dcmList s
            /\ segSOPInstanceUID s' = segSOPInstanceUID s
            /\ segSeriesInstanceUID s' = segSeriesInstanceUID s
            /\ dateTime s' = dateTime s).
Proof.
  destruct (process_effect env payload w)
    as (r & w' & E & Hc & [(_ & _ & Hs)|(s0 & t & t' & Hr & _ & Hs)]);
    exists r, w'; (split; [exact E|]); (split; [exact Hc|]).
  - split; [intros ref _; apply lookup_entry_same; exact Hs|].
    split; [intros x Hx; rewrite (lookup_entry_same w w') by exact Hs; exact Hx|].
    intros s Hl. exists s.
    split; [rewrite (lookup_entry_same w w') by exact Hs; exact Hl|]. repeat split.
  - split; [|split].
    + intros ref Hne. unfold lookup_entry. rewrite Hs. apply sessions_with_other.
      exact Hne.
    + intros x Hx. destruct Hr as (_ & Hl & _). congruence.
    + intros s Hl. rewrite (turn_ready_session _ _ _ _ _ _ Hl Hr) in Hs.
      eexists. split.
      * unfold lookup_entry. rewrite Hs.
        apply (sessions_with_lookup _ _ _ (ESession s)). exact Hl.
      * destruct (after_turn_fields s
                    (publish_outcome env (inference_result env t') (DCMCLIENT w)
                       (set_scribbleCounter (scribbleCounter s0 + 1) s0)).2)
          as (H1 & H2 & H3 & H4 & H5 & H6 & _).
        repeat split; assumption.
Qed.







(** ** What [/prepare] keeps *)

Lemma wp_read_session ref (Q : result session -> world -> Prop) w :
  (forall s, lookup_entry w ref = Some (ESession s) -> Q (Ret s) w) ->
  (forall e, Q (Raise e) w) ->
  wp (read_session ref) Q w.
Proof.
  intros Hs He. unfold wp, read_session. munfold.
  destruct (lookup_entry w ref) as [[x|s]|]; simpl; auto.
Qed.

Lemma wp_modify_session ref f (Q : result unit -> world -> Prop) w :
  (forall s, lookup_entry w ref = Some (ESession s) ->
     Q (Ret tt) (mkWorld (sessions_with (SESSIONSGLOBAL w) ref (f s)) (DCMCLIENT w)
                   (console w))) ->
  (forall e, Q (Raise e) w) ->
  wp (modify_session ref f) Q w.
Proof.
  intros Hs He. unfold wp.
  destruct (lookup_entry w ref) as [[x|s]|] eqn:E.
  - unfold modify_session. munfold. rewrite (read_session_str _ _ _ E). apply He.
  - rewrite (modify_session_run _ _ _ _ E). apply Hs. reflexivity.
  - unfold modify_session. munfold. rewrite (read_session_none _ _ E). apply He.
Qed.

Lemma wp_as_tensor d (Q : result tensor -> world -> Prop) w :
  (forall t, d = Tensor t -> Q (Ret t) w) -> (forall e, Q (Raise e) w) ->
  wp (as_tensor d) Q w.
Proof. intros Ht He. destruct d; simpl; [apply He | apply He | apply Ht; reflexivity]. Qed.

Ltac wp_step :=
  lazymatch goal with
  | |- wp (_ ≫= _) _ _ => apply wp_bind
  | |- wp (try_except _ _) _ _ => apply wp_try
  | |- wp (mret _) _ _ => apply wp_ret
  | |- wp (raise _) _ _ => apply wp_raise
  | |- wp (emit _) _ _ => apply wp_emit
  | |- wp (print _) _ _ => apply wp_emit
  | |- wp (print_exc _) _ _ => apply wp_emit
  | |- wp set_trace _ _ => apply wp_emit
  | |- wp get_world _ _ => apply wp_get_world
  | |- wp (of_option ?o _) _ _ => apply wp_of_option; destruct o eqn:?
  | |- wp (read_session _) _ _ => apply wp_read_session; [intros ? ?|intros ?]
  | |- wp (as_tensor _) _ _ => apply wp_as_tensor; [intros ? ?|intros ?]
  end.

Lemma lookup_sessions_with_same w ref s0 s l c :
  lookup_entry w ref = Some (ESession s0) ->
  lookup_entry (mkWorld (sessions_with (SESSIONSGLOBAL w) ref s) c l) ref
  = Some (ESession s).
Proof. intros E. apply (sessions_with_lookup _ _ _ _ E). Qed.

Lemma lookup_sessions_with_other w ref ref' s l c :
  ref' <> ref ->
  lookup_entry (mkWorld (sessions_with (SESSIONSGLOBAL w) ref s) c l) ref'
  = lookup_entry w ref'.
Proof. intros Hne. apply (sessions_with_other _ _ _ _ Hne). Qed.

Lemma tensor_clean_zeros sh : tensor_clean (torch_zeros sh).
Proof. split; intros v _; reflexivity. Qed.

Lemma tensor_clean_set_channel t c a t' :
  (c < 3)%nat -> set_channel t c a = Some t' -> tensor_clean t -> tensor_clean t'.
Proof.
  intros Hc Es [H3 H4]. apply set_channel_frame in Es as [Hsh Hch].
  split; intros v Hv; unfold channel in *; simpl in *;
    rewrite Hch by lia; [apply H3 | apply H4]; simpl; rewrite <- Hsh; exact Hv.
Qed.

Ltac wp_world H :=
  cbv beta iota;
  lazymatch type of H with
  | evolves _ _ _ ?wnew =>
      let w1 := fresh "w" in revert H; generalize wnew; intros w1 H
  end.

Ltac wp_log L H :=
  lazymatch goal with
  | |- wp (emit ?ev) _ ?w => apply wp_emit; apply (L _ w ev) in H
  | |- wp (print ?m) _ ?w => apply wp_emit; apply (L _ w (Print m)) in H
  | |- wp (print_exc ?e) _ ?w => apply wp_emit; apply (L _ w (Traceback e)) in H
  | |- wp set_trace _ ?w => apply wp_emit; apply (L _ w Breakpoint) in H
  end; wp_world H.

Ltac wp_modify L H :=
  lazymatch goal with
  | |- wp (modify_session _ ?f) _ ?w =>
      let s := fresh "s" in
      let E := fresh "E" in
      apply wp_modify_session; [intros s E|intros ?];
      [eapply (L _ w s (f s)) in H; [wp_world H | exact E | |]|]
  end.

Ltac wp_run L H := repeat (cbv beta iota; first [wp_log L H | wp_step]); try exact H.

Lemma tensor_ok_tensor t s : tensor_clean t -> tensor_ok (set_torchData (Tensor t) s).
Proof. intros H t' [= <-]. exact H. Qed.

Lemma tensor_ok_list s : tensor_ok (set_torchData EmptyList s).
Proof. intros t [=]. Qed.

Lemma tensor_ok_dcmList v s : tensor_ok s -> tensor_ok (set_dcmList v s).
Proof. intros H t Ht. apply H. exact Ht. Qed.

Lemma tensor_ok_data v s : tensor_ok s -> tensor_ok (set_data v s).
Proof. intros H t Ht. apply H. exact Ht. Qed.

Lemma lookup_entry_in sessions c l ref d :
  sessions !! ref.1 = Some d -> lookup_entry (mkWorld sessions c l) ref = d !! ref.2.
Proof. unfold lookup_entry. cbn [SESSIONSGLOBAL]. intros ->. reflexivity. Qed.

Lemma registered_lookup env payload w :
  is_Some (lookup_entry (registered env payload w) (prepare_ref payload)).
Proof.
  unfold registered. cbv zeta.
  destruct (SESSIONSGLOBAL w !! prepare_identifier payload) as [d|] eqn:E1.
  - rewrite E1. destruct (d !! caseName (prepare_data payload)) as [e|] eqn:E2.
    + rewrite (lookup_entry_in _ _ _ _ d) by exact E1. unfold prepare_ref; cbn [fst snd]. rewrite E2. eauto.
    + erewrite lookup_entry_in by apply lookup_insert_eq.
      unfold prepare_ref; cbn [fst snd]. rewrite lookup_insert_eq. eauto.
  - rewrite lookup_insert_eq.
    destruct (_ !! caseName (prepare_data payload)) as [e|] eqn:E2.
    + erewrite lookup_entry_in by apply lookup_insert_eq. unfold prepare_ref; cbn [fst snd]. rewrite E2. eauto.
    + erewrite lookup_entry_in by apply lookup_insert_eq.
      unfold prepare_ref; cbn [fst snd]. rewrite lookup_insert_eq. eauto.
Qed.

Lemma bind_run {A B} (m : M A) (k : A -> M B) w a w1 :
  m w = (Ret a, w1) -> (m ≫= k) w = k a w1.
Proof. intros E. unfold mbind, M_bind. rewrite E. reflexivity. Qed.

Lemma bind_run_raise {A B} (m : M A) (k : A -> M B) w e w1 :
  m w = (Raise e, w1) -> (m ≫= k) w = (Raise e, w1).
Proof. intros E. unfold mbind, M_bind. rewrite E. reflexivity. Qed.

Ltac run_step :=
  first [ rewrite (bind_run get_world _ _ _ _ eq_refl)
        | rewrite (bind_run (mret tt) _ _ _ _ eq_refl)
        | rewrite (bind_run (set_sessions _) _ _ _ _ eq_refl) ];
  cbv beta; cbn [SESSIONSGLOBAL DCMCLIENT console].

Lemma prepare_body_registered env payload w :
  prepare_body env payload w = prepare_body env payload (registered env payload w).
Proof.
  unfold prepare_body, registered. cbv zeta. destruct w as [sg c l].
  cbn [SESSIONSGLOBAL DCMCLIENT console].
  destruct (sg !! prepare_identifier payload) as [d|] eqn:E1.
  - rewrite E1. destruct (d !! caseName (prepare_data payload)) as [e|] eqn:E2.
    + repeat (run_step; rewrite ?E1, ?E2). reflexivity.
    + repeat (run_step; rewrite ?lookup_insert_eq, ?E1, ?E2).
      rewrite ?insert_insert_eq. reflexivity.
  - rewrite lookup_insert_eq.
    destruct (_ !! caseName (prepare_data payload)) as [e|] eqn:E2.
    + repeat (run_step; rewrite ?lookup_insert_eq, ?E1, ?E2). reflexivity.
    + repeat (run_step; rewrite ?lookup_insert_eq, ?E1, ?E2).
      rewrite ?insert_insert_eq. reflexivity.
Qed.

Lemma lookup_entry_insert sessions cid d c l ref :
  lookup_entry (mkWorld (<[cid := d]> sessions) c l) ref
  = if decide (ref.1 = cid) then d !! ref.2 else lookup_entry (mkWorld sessions c l) ref.
Proof.
  unfold lookup_entry. cbn [SESSIONSGLOBAL]. destruct (decide (ref.1 = cid)) as [->|Hne].
  - rewrite lookup_insert_eq. reflexivity.
  - rewrite lookup_insert_ne by congruence. reflexivity.
Qed.

(** Step 0 keeps every entry that is there. *)
Lemma registered_keeps env payload w ref e :
  lookup_entry w ref = Some e -> lookup_entry (registered env payload w) ref = Some e.
Proof.
  unfold registered. cbv zeta. destruct w as [sg c l].
  cbn [SESSIONSGLOBAL DCMCLIENT console]. intros E.
  destruct (sg !! prepare_identifier payload) as [d|] eqn:E1.
  - rewrite E1. destruct (d !! caseName (prepare_data payload)) as [e'|] eqn:E2;
      [exact E|].
    rewrite lookup_entry_insert. destruct (decide _) as [Ec|Hne]; [|exact E].
    unfold lookup_entry in E. cbn [SESSIONSGLOBAL] in E. rewrite Ec, E1 in E.
    simpl in E. rewrite lookup_insert_ne; [exact E|]. congruence.
  - assert (ref.1 <> prepare_identifier payload) as Hne.
    { intros Ec. unfold lookup_entry in E. cbn [SESSIONSGLOBAL] in E.
      rewrite Ec, E1 in E. discriminate. }
    rewrite lookup_insert_eq.
    destruct (_ !! caseName (prepare_data payload)) as [e'|] eqn:E2;
      rewrite ?lookup_entry_insert; repeat (destruct (decide _); [contradiction|]);
      exact E.
Qed.

(** A session that is there after Step 0 was there before or is the fresh
    one. *)
Lemma registered_sessions env payload w ref s :
  lookup_entry (registered env payload w) ref = Some (ESession s) ->
  lookup_entry w ref = Some (ESession s) \/ s = new_session env.
Proof.
  unfold registered. cbv zeta. destruct w as [sg c l].
  cbn [SESSIONSGLOBAL DCMCLIENT console].
  destruct (sg !! prepare_identifier payload) as [d|] eqn:E1.
  - rewrite E1. destruct (d !! caseName (prepare_data payload)) as [e'|] eqn:E2;
      [auto|].
    rewrite lookup_entry_insert. destruct (decide _) as [Ec|Hne]; [|auto].
    destruct (decide (ref.2 = caseName (prepare_data payload))) as [->|Hn].
    + rewrite lookup_insert_eq. intros [= <-]. auto.
    + rewrite lookup_insert_ne by congruence. intros E. left.
      unfold lookup_entry. cbn [SESSIONSGLOBAL]. rewrite Ec, E1. exact E.
  - rewrite lookup_insert_eq.
    destruct (_ !! caseName (prepare_data payload)) as [e'|] eqn:E2;
      rewrite ?lookup_entry_insert.
    + destruct (decide _) as [Ec|Hne]; [|auto].
      intros E. exfalso.
      apply lookup_insert_Some in E as [[_ [=]]|[_ E]].
      apply lookup_singleton_Some in E as [_ [=]].
    + destruct (decide _) as [Ec|Hne]; [|auto].
      destruct (decide (ref.2 = caseName (prepare_data payload))) as [->|Hn].
      * rewrite lookup_insert_eq. intros [= <-]. auto.
      * rewrite lookup_insert_ne by congruence. intros E. exfalso.
        apply lookup_insert_Some in E as [[_ [=]]|[_ E]].
        apply lookup_singleton_Some in E as [_ [=]].
Qed.

(** On a session slot, Step 0 leaves a session. *)
Lemma registered_slot env payload w :
  session_slot payload w ->
  exists s, lookup_entry (registered env payload w) (prepare_ref payload)
            = Some (ESession s).
Proof.
  intros (Hua & Hci & Hstr).
  destruct (registered_lookup env payload w) as [[x|s] E]; [|eauto]. exfalso.
  revert E. unfold registered. cbv zeta. destruct w as [sg c l].
  cbn [SESSIONSGLOBAL DCMCLIENT console]. unfold prepare_ref in *.
  destruct (sg !! prepare_identifier payload) as [d|] eqn:E1.
  - rewrite E1. destruct (d !! caseName (prepare_data payload)) as [e'|] eqn:E2.
    + apply Hstr.
    + rewrite lookup_entry_insert. cbn [fst snd].
      destruct (decide _); [|contradiction]. rewrite lookup_insert_eq. discriminate.
  - rewrite lookup_insert_eq.
    destruct (_ !! caseName (prepare_data payload)) as [e'|] eqn:E2.
    + apply lookup_insert_Some in E2 as [[E2 _]|[_ E2]]; [congruence|].
      apply lookup_singleton_Some in E2 as [E2 _]. congruence.
    + rewrite lookup_entry_insert. cbn [fst snd].
      destruct (decide _); [|contradiction]. rewrite lookup_insert_eq. discriminate.
Qed.

Section Evolves.

Variable Rs : session -> session -> Prop.
Variable ref0 : session_ref.
Hypothesis Rs_refl : forall s, Rs s s.
Hypothesis Rs_trans : forall s1 s2 s3, Rs s1 s2 -> Rs s2 s3 -> Rs s1 s3.
Hypothesis Rs_torchData : forall v s, Rs s (set_torchData v s).
Hypothesis Rs_dcmList : forall v s, Rs s (set_dcmList v s).

Lemma evolves_refl w : evolves Rs ref0 w w.
Proof.
  split; [auto|]. split; [auto|]. split; [auto|]. split; [|auto].
  intros s Hs. exists s. auto.
Qed.

Lemma evolves_trans w1 w2 w3 :
  evolves Rs ref0 w1 w2 -> evolves Rs ref0 w2 w3 -> evolves Rs ref0 w1 w3.
Proof.
  intros (A1 & B1 & C1 & D1 & E1) (A2 & B2 & C2 & D2 & E2).
  split; [auto|]. split; [auto|]. split; [auto|]. split; [|auto].
  intros s Hs. destruct (D1 s Hs) as (s' & Hs' & R1).
  destruct (D2 s' Hs') as (s'' & Hs'' & R2). exists s''. split; [exact Hs''|].
  exact (Rs_trans _ _ _ R1 R2).
Qed.

Lemma evolves_same w w' : same_state w w' -> evolves Rs ref0 w w'.
Proof.
  intros [Hs Hc]. unfold evolves, all_clean.
  split; [intros c; rewrite Hc; auto|].
  split; [intros ref e _; rewrite (lookup_entry_same w w') by exact Hs; auto|].
  split; [intros x; rewrite (lookup_entry_same w w') by exact Hs; auto|].
  split.
  - intros s E. exists s. rewrite (lookup_entry_same w w') by exact Hs. auto.
  - intros H ref s. rewrite (lookup_entry_same w w') by exact Hs. apply H.
Qed.

Lemma evolves_log w0 w ev :
  evolves Rs ref0 w0 w ->
  evolves Rs ref0 w0 (mkWorld (SESSIONSGLOBAL w) (DCMCLIENT w) (console w ++ [ev])).
Proof.
  intros H. apply (evolves_trans _ _ _ H). apply evolves_same. split; reflexivity.
Qed.

Lemma evolves_modify w0 w s s' :
  evolves Rs ref0 w0 w ->
  lookup_entry w ref0 = Some (ESession s) ->
  Rs s s' -> (tensor_ok s -> tensor_ok s') ->
  evolves Rs ref0 w0
    (mkWorld (sessions_with (SESSIONSGLOBAL w) ref0 s') (DCMCLIENT w) (console w)).
Proof.
  intros H E HR Hok. apply (evolves_trans _ _ _ H). clear H.
  split; [auto|]. split; [|split; [|split]].
  - intros ref e Hne He. rewrite lookup_sessions_with_other by exact Hne. exact He.
  - intros x Hx. congruence.
  - intros s1 Hs1. exists s'. split; [apply (lookup_sessions_with_same _ _ s); exact E|].
    congruence.
  - intros Hclean ref s1. destruct (decide (ref = ref0)) as [->|Hne].
    + rewrite (lookup_sessions_with_same _ _ s) by exact E. intros [= <-].
      apply Hok, (Hclean ref0). exact E.
    + rewrite lookup_sessions_with_other by exact Hne. apply Hclean.
Qed.

Lemma getCTArray_evolves env w0 w (Q : result (option ndarray) -> world -> Prop) :
  evolves Rs ref0 w0 w ->
  (forall a w', evolves Rs ref0 w0 w' -> Q (Ret a) w') ->
  wp (getCTArray env ref0) Q w.
Proof.
  intros H HQ. unfold getCTArray. cbv zeta. wp_run evolves_log H; try (apply HQ, H).
  destruct (retrieve_ct env) as [e| |partial e|ctInstances ctArray]; wp_run evolves_log H; try (apply HQ, H).
  wp_modify evolves_modify H; wp_run evolves_log H; try (apply HQ, H); [|apply Rs_torchData|intros _; apply tensor_ok_tensor, tensor_clean_zeros].
  wp_modify evolves_modify H; wp_run evolves_log H; try (apply HQ, H); [|apply Rs_torchData|].
  - wp_modify evolves_modify H; wp_run evolves_log H; try (apply HQ, H); [apply Rs_dcmList | apply tensor_ok_dcmList].
  - intros _. apply tensor_ok_tensor.
    eapply tensor_clean_set_channel; [|eassumption|apply tensor_clean_zeros]. lia.
Qed.

Lemma getPTArray_evolves env w0 w (Q : result (option ndarray) -> world -> Prop) :
  evolves Rs ref0 w0 w ->
  (forall a w', evolves Rs ref0 w0 w' -> Q (Ret a) w') ->
  wp (getPTArray env ref0) Q w.
Proof.
  intros H HQ. unfold getPTArray. cbv zeta. wp_run evolves_log H; try (apply HQ, H).
  destruct (retrieve_pt env) as [e| |partial e|ptInstances ptArray]; wp_run evolves_log H; try (apply HQ, H).
  wp_modify evolves_modify H; wp_run evolves_log H; try (apply HQ, H); [apply Rs_torchData|].
  intros Hok. apply tensor_ok_tensor.
  eapply tensor_clean_set_channel; [|eassumption|]; [lia|].
  apply Hok. congruence.
Qed.

Lemma fetch_seg_evolves answer so msg w0 w (Q : result (option ndarray) -> world -> Prop) :
  evolves Rs ref0 w0 w ->
  (forall r w', evolves Rs ref0 w0 w' -> Q r w') ->
  wp (fetch_seg answer so msg) Q w.
Proof.
  intros H HQ. unfold fetch_seg.
  destruct (String.eqb _ _); [apply HQ, H|]. wp_run evolves_log H.
  destruct answer as [e|a]; wp_run evolves_log H; [|apply HQ, H].
  destruct e; wp_run evolves_log H; try (apply HQ, H).
  destruct (_ =? 404); wp_run evolves_log H; apply HQ, H.
Qed.

Lemma getSEGs_evolves env w0 w (Q : result (option ndarray * option ndarray) -> world -> Prop) :
  evolves Rs ref0 w0 w ->
  (forall a w', evolves Rs ref0 w0 w' -> Q (Ret a) w') ->
  wp (getSEGs env ref0) Q w.
Proof.
  intros H HQ. unfold getSEGs. cbv zeta. wp_run evolves_log H; try (apply HQ, H).
  apply fetch_seg_evolves with (w0 := w0); [exact H|].
  clear dependent w. intros [gt|e] w H; wp_run evolves_log H; try (apply HQ, H).
  apply fetch_seg_evolves with (w0 := w0); [exact H|].
  clear dependent w. intros [[a|]|e] w H; wp_run evolves_log H; try (apply HQ, H).
  wp_modify evolves_modify H; wp_run evolves_log H; try (apply HQ, H); [apply Rs_torchData|].
  intros Hok. apply tensor_ok_tensor.
  eapply tensor_clean_set_channel; [|eassumption|]; [lia|].
  apply Hok. congruence.
Qed.

Lemma getDCMClient_evolves env url w0 w (Q : result (option dcmclient) -> world -> Prop) :
  evolves Rs ref0 w0 w ->
  (forall c w', evolves Rs ref0 w0 w' -> DCMCLIENT w' = DCMCLIENT w -> Q (Ret c) w') ->
  wp (getDCMClient env url) Q w.
Proof.
  intros H HQ. unfold getDCMClient.
  destruct (DICOMwebClient env url) as [c|].
  - apply HQ; [exact H | reflexivity].
  - wp_step. apply wp_emit. cbv beta iota. apply HQ; [|reflexivity].
    apply evolves_log. exact H.
Qed.

Lemma evolves_client w0 w c :
  evolves Rs ref0 w0 w -> DCMCLIENT w = None ->
  evolves Rs ref0 w0 (mkWorld (SESSIONSGLOBAL w) c (console w)).
Proof.
  intros H Hc. apply (evolves_trans _ _ _ H).
  split; [intros c'; rewrite Hc; discriminate|].
  split; [auto|]. split; [auto|]. split; [|auto].
  intros s E. exists s. auto.
Qed.

Lemma registered_evolves env payload w :
  evolves Rs ref0 w (registered env payload w).
Proof.
  split; [auto|]. split; [|split; [|split]].
  - intros ref e _. apply registered_keeps.
  - intros x. apply registered_keeps.
  - intros s E. exists s. split; [apply registered_keeps, E | apply Rs_refl].
  - intros Hclean ref s E. apply registered_sessions in E as [E| ->].
    + apply (Hclean ref), E.
    + intros t [=].
Qed.

End Evolves.

Lemma evolves_weaken (Rs Rs' : session -> session -> Prop) ref w w' :
  (forall s s', Rs s s' -> Rs' s s') -> evolves Rs ref w w' -> evolves Rs' ref w w'.
Proof.
  intros Hsub (A & B & C & D & E). split; [auto|]. split; [auto|]. split; [auto|].
  split; [|auto]. intros s Hs. destruct (D s Hs) as (s' & Hs' & HR). eauto.
Qed.

Lemma same_identity_refl s : same_identity s s.
Proof. repeat split. Qed.

Lemma same_identity_trans s1 s2 s3 :
  same_identity s1 s2 -> same_identity s2 s3 -> same_identity s1 s3.
Proof. unfold same_identity. intros (? & ? & ? & ? & ?) (? & ? & ? & ? & ?).
  repeat split; congruence. Qed.

Lemma same_descriptor_refl s : same_descriptor s s.
Proof. repeat split. Qed.

Lemma same_descriptor_trans s1 s2 s3 :
  same_descriptor s1 s2 -> same_descriptor s2 s3 -> same_descriptor s1 s3.
Proof.
  intros [H1 E1] [H2 E2]. split; [eapply same_identity_trans; eauto | congruence].
Qed.

Lemma same_descriptor_torchData v s : same_descriptor s (set_torchData v s).
Proof. repeat split. Qed.

Lemma same_descriptor_dcmList v s : same_descriptor s (set_dcmList v s).
Proof. repeat split. Qed.

Lemma same_identity_data v s : same_identity s (set_data v s).
Proof. repeat split. Qed.

Lemma same_identity_torchData v s : same_identity s (set_torchData v s).
Proof. repeat split. Qed.


Lemma prepare_body_string env payload w x :
  lookup_entry w (prepare_ref payload) = Some (EStr x) ->
  prepare_body env payload w = (Raise TypeError, w).
Proof.
  intros E. pose proof E as E'. apply lookup_entry_client in E' as (d & E1 & E2).
  unfold prepare_ref in *. cbn [fst snd] in *.
  unfold prepare_body. cbv zeta. destruct w as [sg c l].
  cbn [SESSIONSGLOBAL] in *.
  repeat (run_step; rewrite ?E1, ?E2).
  rewrite (bind_run_raise (read_session _) _ _ TypeError (mkWorld sg c l));
    [reflexivity|].
  apply read_session_str with (x := x). exact E.
Qed.

Lemma wp_read_session_at ref s (Q : result session -> world -> Prop) w :
  lookup_entry w ref = Some (ESession s) -> Q (Ret s) w -> wp (read_session ref) Q w.
Proof. intros E H. unfold wp. rewrite (read_session_run _ _ _ E). exact H. Qed.

Lemma wp_modify_session_at ref f s (Q : result unit -> world -> Prop) w :
  lookup_entry w ref = Some (ESession s) ->
  Q (Ret tt) (mkWorld (sessions_with (SESSIONSGLOBAL w) ref (f s)) (DCMCLIENT w)
                (console w)) ->
  wp (modify_session ref f) Q w.
Proof. intros E H. unfold wp. rewrite (modify_session_run _ _ _ _ E). exact H. Qed.

Lemma wp_set_client c (Q : result unit -> world -> Prop) w :
  Q (Ret tt) (mkWorld (SESSIONSGLOBAL w) c (console w)) -> wp (set_client c) Q w.
Proof. intros H. exact H. Qed.

(** The body of [prepare] on a world that holds the session of the case:
    whatever the archive answers, the outcome is that of [prepare_answer],
    the state has evolved as [evolves] says and the session holds the
    descriptor of the request; with the descriptor already there nothing
    changes. *)
Lemma prepare_body_present env payload w s :
  lookup_entry w (prepare_ref payload) = Some (ESession s) ->
  wp (prepare_body env payload)
     (fun r w' =>
        r = prepare_answer env payload s
        /\ evolves same_identity (prepare_ref payload) w w'
        /\ (exists s', lookup_entry w' (prepare_ref payload) = Some (ESession s')
                       /\ data s' = Some (prepare_data payload))
        /\ (data s = Some (prepare_data payload) -> same_state w w')) w.
Proof.
  intros E. pose proof E as E'. apply lookup_entry_client in E' as (d & E1 & E2).
  unfold prepare_ref in E1, E2. cbn [fst snd] in E1, E2.
  unfold prepare_body. cbv zeta.
  change (prepare_identifier payload, caseName (prepare_data payload))
    with (prepare_ref payload).
  wp_step. wp_step. cbv beta iota. wp_step. rewrite E1. wp_step. cbv beta iota.
  wp_step. wp_step. cbv beta iota. wp_step. rewrite E1, E2. wp_step. cbv beta iota.
  wp_step. apply (wp_read_session_at _ s); [exact E|]. cbv beta iota.
  wp_step. unfold prepare_answer, getMemoryUsage.
  destruct (bool_decide (data s ≠ Some (prepare_data payload))) eqn:Hnew.
  - apply bool_decide_eq_true in Hnew.
    rewrite (bool_decide_eq_false_2 (data s = Some (prepare_data payload))) by exact Hnew.
    wp_step. apply (wp_modify_session_at _ _ s); [exact E|]. cbv beta iota.
    wp_step. eapply wp_modify_session_at;
      [apply (lookup_sessions_with_same _ _ s); exact E|].
    cbv beta iota. cbn [SESSIONSGLOBAL DCMCLIENT console].
    rewrite sessions_with_twice.
    set (s2 := set_torchData EmptyList (set_data (Some (prepare_data payload)) s)).
    set (w2 := mkWorld (sessions_with (SESSIONSGLOBAL w) (prepare_ref payload) s2)
                 (DCMCLIENT w) (console w)).
    assert (evolves same_identity (prepare_ref payload) w w2) as H12.
    { apply (evolves_modify same_identity (prepare_ref payload)
               same_identity_trans w w s s2);
        [apply evolves_refl, same_identity_refl | exact E | repeat split |].
      intros _ t [=]. }
    assert (lookup_entry w2 (prepare_ref payload) = Some (ESession s2)) as E2'
      by (apply (lookup_sessions_with_same _ _ s); exact E).
    pose proof (evolves_log same_descriptor (prepare_ref payload)
                  same_descriptor_refl same_descriptor_trans) as Llog.
    assert (forall w', evolves same_descriptor (prepare_ref payload) w2 w' ->
              evolves same_identity (prepare_ref payload) w w'
              /\ (exists s', lookup_entry w' (prepare_ref payload) = Some (ESession s')
                             /\ data s' = Some (prepare_data payload))
              /\ (data s = Some (prepare_data payload) -> same_state w w')) as Hleaf.
    { intros w' Hev. split; [|split].
      - apply (evolves_trans _ _ same_identity_trans _ _ _ H12).
        apply (evolves_weaken same_descriptor); [intros ? ? Hsd; exact (proj1 Hsd)|].
        exact Hev.
      - destruct Hev as (_ & _ & _ & Hd & _).
        destruct (Hd s2 E2') as (s' & Es' & Hsd). destruct Hsd as [_ Ed]. exists s'.
        split; [exact Es'|]. rewrite Ed. reflexivity.
      - intros Hsame. contradiction. }
    apply wp_mono with
      (Q := fun r w' =>
              r = Ret false /\ evolves same_descriptor (prepare_ref payload) w2 w').
    2:{ intros r w' HQ. cbv beta in HQ. destruct HQ as [-> Hev]. cbv beta iota.
        wp_step. wp_log Llog Hev. wp_step.
        destruct (String.eqb (platform_system env) "Darwin").
        - wp_log Llog Hev. wp_step. split; [reflexivity | apply Hleaf, Hev].
        - wp_step. split; [reflexivity | apply Hleaf, Hev]. }
    clear Hleaf.
    match goal with
    | |- wp ?m ?Q _ =>
        cut (forall wc, evolves same_descriptor (prepare_ref payload) w2 wc -> wp m Q wc)
    end.
    { intros HH. apply HH, evolves_refl, same_descriptor_refl. }
    clear E2' H12. generalize w2. clear w2. intros wstart wc H.
    assert (forall wc, evolves same_descriptor (prepare_ref payload) wstart wc ->
              wp (mret false)
                 (fun r w' => r = Ret false
                    /\ evolves same_descriptor (prepare_ref payload) wstart w') wc)
      as Hend by (intros ? ?; split; [reflexivity | assumption]).
    wp_step. wp_step. cbv beta iota. wp_step.
    match goal with
    | |- wp _ ?Q1 _ =>
        assert (forall wc, evolves same_descriptor (prepare_ref payload) wstart wc ->
                  Q1 (Ret tt) wc) as Hfetch
    end; [|
      destruct (DCMCLIENT wc) as [c|] eqn:Ec; [wp_step; apply Hfetch, H|];
      wp_step;
      apply (getDCMClient_evolves same_descriptor (prepare_ref payload)
               same_descriptor_refl same_descriptor_trans) with (w0 := wstart);
        [exact H|];
      intros c w' H' Hc'; cbv beta iota; apply wp_set_client;
      apply Hfetch;
      apply (evolves_client same_descriptor (prepare_ref payload)
               same_descriptor_refl same_descriptor_trans);
        [exact H' | congruence]].
    cbv beta iota.
    clear dependent wc. intros wc H.
    wp_step. wp_step. cbv beta iota. wp_step.
    destruct (DCMCLIENT wc) as [c|]; [|wp_step; cbv beta iota; apply Hend, H].
    wp_step.
    apply (getCTArray_evolves same_descriptor (prepare_ref payload)
             same_descriptor_refl same_descriptor_trans same_descriptor_torchData
             same_descriptor_dcmList) with (w0 := wstart); [exact H|].
    clear dependent wc. intros [ct|] wc H; cbv beta iota;
      [|wp_step; cbv beta iota; apply Hend, H].
    wp_step.
    apply (getPTArray_evolves same_descriptor (prepare_ref payload)
             same_descriptor_refl same_descriptor_trans same_descriptor_torchData)
      with (w0 := wstart); [exact H|].
    clear dependent wc. intros [pt|] wc H; cbv beta iota;
      [|wp_step; cbv beta iota; apply Hend, H].
    wp_step.
    apply (getSEGs_evolves same_descriptor (prepare_ref payload)
             same_descriptor_refl same_descriptor_trans same_descriptor_torchData)
      with (w0 := wstart); [exact H|].
    clear dependent wc. intros segs wc H; cbv beta iota.
    wp_step. cbv beta iota. apply Hend, H.
  - apply bool_decide_eq_false in Hnew.
    assert (data s = Some (prepare_data payload)) as Hsame
      by (destruct (decide (data s = Some (prepare_data payload))); tauto).
    rewrite (bool_decide_eq_true_2 _ Hsame).
    assert (forall w', same_state w w' ->
              evolves same_identity (prepare_ref payload) w w'
              /\ (exists s', lookup_entry w' (prepare_ref payload) = Some (ESession s')
                             /\ data s' = Some (prepare_data payload))
              /\ (data s = Some (prepare_data payload) -> same_state w w')) as Hleaf.
    { intros w' Hs. split; [apply evolves_same; [apply same_identity_refl | exact Hs]|].
      split; [|auto]. exists s. split; [|exact Hsame].
      rewrite (lookup_entry_same w w') by apply Hs. exact E. }
    wp_step. cbv beta iota. wp_step. apply wp_emit. cbv beta iota. wp_step.
    destruct (String.eqb (platform_system env) "Darwin").
    + apply wp_emit. cbv beta iota. wp_step.
      split; [reflexivity|]. apply Hleaf. split; reflexivity.
    + wp_step. split; [reflexivity|]. apply Hleaf. split; reflexivity.
Qed.

Lemma prepare_run env payload w :
  prepare env payload w
  = match prepare_body env payload w with
    | (Ret b, w') => (Ret (Returned b), w')
    | (Raise e, w') =>
        (Ret (Failed 500 e),
         mkWorld (SESSIONSGLOBAL w') (DCMCLIENT w') (console w' ++ [Traceback e]))
    end.
Proof.
  unfold prepare. munfold. destruct (prepare_body env payload w) as [[b|e] w'];
    reflexivity.
Qed.

Lemma registered_state env payload w e :
  lookup_entry w (prepare_ref payload) = Some e ->
  same_state w (registered env payload w).
Proof.
  intros E. apply lookup_entry_client in E as (d & E1 & E2).
  unfold prepare_ref in E1, E2. cbn [fst snd] in E1, E2.
  unfold registered. cbv zeta. rewrite E1, E1, E2. split; reflexivity.
Qed.

(** Every [/prepare] request is answered.  A case name that hits a string
    entry fails on the first read of the session; otherwise the answer is
    that of [prepare_answer] on the session found after Step 0, and the
    session holds the descriptor of the request afterwards. *)
Lemma prepare_effect env payload w :
  exists r w',
    prepare env payload w = (Ret r, w')
    /\ evolves same_identity (prepare_ref payload) w w'
    /\ ((exists x,
           lookup_entry (registered env payload w) (prepare_ref payload) = Some (EStr x)
           /\ r = Failed 500 TypeError
           /\ same_state (registered env payload w) w')
        \/ (exists s s',
              lookup_entry (registered env payload w) (prepare_ref payload)
              = Some (ESession s)
              /\ r = answer (prepare_answer env payload s)
              /\ lookup_entry w' (prepare_ref payload) = Some (ESession s')
              /\ data s' = Some (prepare_data payload)
              /\ (data s = Some (prepare_data payload) ->
                  same_state (registered env payload w) w'))).
Proof.
  pose proof (registered_evolves same_identity (prepare_ref payload)
                same_identity_refl env payload w) as Hreg.
  rewrite prepare_run, prepare_body_registered.
  destruct (registered_lookup env payload w) as [[x|s] E].
  - rewrite (prepare_body_string _ _ _ _ E). eexists. eexists.
    split; [reflexivity|]. split.
    + apply (evolves_log _ _ same_identity_refl same_identity_trans). exact Hreg.
    + left. exists x. split; [exact E|]. split; [reflexivity|]. split; reflexivity.
  - pose proof (prepare_body_present env payload _ s E) as Hp. unfold wp in Hp.
    destruct (prepare_body env payload (registered env payload w)) as [r w'].
    cbn [fst snd] in Hp. destruct Hp as (-> & Hev & (s' & Es' & Ed) & Hsame).
    pose proof (evolves_trans _ _ same_identity_trans _ _ _ Hreg Hev) as Hev'.
    unfold prepare_answer. destruct (String.eqb (platform_system env) "Darwin").
    + eexists. eexists. split; [reflexivity|]. split; [exact Hev'|].
      right. exists s, s'. repeat split; try assumption; apply Hsame; assumption.
    + eexists. eexists. split; [reflexivity|]. split.
      * apply (evolves_log _ _ same_identity_refl same_identity_trans). exact Hev'.
      * right. exists s, s'. split; [exact E|]. split; [reflexivity|].
        split; [exact Es'|]. split; [exact Ed|].
        intros Hd. destruct (Hsame Hd) as [? ?]. split; assumption.
Qed.

(** X4. Whatever the payload and whatever the archive answers, a [/prepare]
    request is answered, and: an archive client that is set stays the same;
    entries under other references stay as they are; a string entry under
    the addressed reference stays; an existing session under the addressed
    reference stays a session with the same scribble counter, SEG UIDs,
    published id and creation time. *)
Theorem prepare_frame (env : environment) (payload : PayloadPrepare) (w : world) :
  exists r w',
    prepare env payload w = (Ret r, w')
    /\ (forall c, DCMCLIENT w = Some c -> DCMCLIENT w' = Some c)
    /\ (forall ref e, ref <> prepare_ref payload ->
          lookup_entry w ref = Some e -> lookup_entry w' ref = Some e)
    /\ (forall x, lookup_entry w (prepare_ref payload) = Some (EStr x) ->
          lookup_entry w' (prepare_ref payload) = Some (EStr x))
    /\ (forall s, lookup_entry w (prepare_ref payload) = Some (ESession s) ->
          exists s',
            lookup_entry w' (prepare_ref payload) = Some (ESession s')
            /\ scribbleCounter s' = scribbleCounter s
            /\ segSOPInstanceUID s' = segSOPInstanceUID s
            /\ segSeriesInstanceUID s' = segSeriesInstanceUID s
            /\ segOrthancID s' = segOrthancID s
            /\ dateTime s' = dateTime s).
Proof.
  destruct (prepare_effect env payload w) as (r & w' & E & (A & B & C & D & _) & _).
  exists r, w'. split; [exact E|]. split; [exact A|]. split; [exact B|].
  split; [exact C|]. intros s Hs. destruct (D s Hs) as (s' & Hs' & HR).
  exists s'. split; [exact Hs' | exact HR].
Qed.

Lemma process_all_clean env payload w :
  all_clean w -> all_clean (process env payload w).2.
Proof.
  intros Hclean.
  destruct (process_effect env payload w)
    as (r & w' & E & Hc & [(_ & _ & Hs)|(s0 & t & t' & Hr & _ & Hs)]);
    rewrite E; cbn [snd]; intros ref s.
  - rewrite (lookup_entry_same w w') by exact Hs. apply Hclean.
  - unfold lookup_entry. rewrite Hs.
    destruct Hr as (_ & Hl & _).
    destruct (decide (ref = process_ref payload)) as [->|Hne].
    + rewrite (sessions_with_lookup _ _ _ _ Hl). intros [= <-].
      destruct (after_turn_fields s0
                  (publish_outcome env (inference_result env t') (DCMCLIENT w)
                     (set_scribbleCounter (scribbleCounter s0 + 1) s0)).2)
        as (_ & Ht & _).
      intros t1 Ht1. apply (Hclean _ _ Hl). congruence.
    + rewrite sessions_with_other by exact Hne. apply Hclean.
Qed.

Lemma reachable_all_clean w : reachable w -> all_clean w.
Proof.
  induction 1 as [|env payload w _ IH|env payload w _ IH].
  - intros ref s. unfold lookup_entry. cbn [SESSIONSGLOBAL initial_world].
    rewrite lookup_empty. discriminate.
  - destruct (prepare_effect env payload w) as (r & w' & E & (_ & _ & _ & _ & Hc) & _).
    rewrite E. apply Hc, IH.
  - apply process_all_clean, IH.
Qed.

(** X5. In every state the server can reach by answering [/prepare] and
    [/process] requests, a cached tensor has channels 3 and 4 zero everywhere.
    So the reset assertion of [/process] never fails there: on Darwin every
    request that addresses a session with a cached tensor gets as far as the
    scribble. *)
Theorem reachable_tensor_clean
    (w : world) (ref : session_ref) (s : session) (t : tensor) :
  reachable w ->
  lookup_entry w ref = Some (ESession s) ->
  torchData s = Tensor t ->
  tensor_clean t
  /\ forall env, platform_system env = "Darwin" -> turn_ready env w ref s t.
Proof.
  intros Hr E Et.
  assert (tensor_clean t) as Hc by (apply (reachable_all_clean w Hr ref s E), Et).
  split; [exact Hc|]. intros env Hp. destruct Hc as [H3 H4].
  split; [exact Hp|]. split; [exact E|]. split; [exact Et|].
  split; apply array_sum_zero; assumption.
Qed.

Lemma reachable_tensor_clean_witness :
  tensor_clean ex_tensor
  /\ forall env, platform_system env = "Darwin" ->
       turn_ready env prepared_world ex_ref ex_session ex_tensor.
Proof.
  apply (reachable_tensor_clean prepared_world ex_ref ex_session ex_tensor).
  - apply (reach_prepare ex_env (mkPayloadPrepare ex_case "client-1") initial_world).
    apply reach_initial.
  - exact prepared_world_session.
  - reflexivity.
Defined.

Lemma prepare_same_descriptor env payload w s :
  platform_system env = "Darwin" ->
  lookup_entry w (prepare_ref payload) = Some (ESession s) ->
  data s = Some (prepare_data payload) ->
  prepare env payload w
  = (Ret (Returned true),
     mkWorld (SESSIONSGLOBAL w) (DCMCLIENT w)
       (console w ++ [Print "/prepare"; Print "Memory usage"])).
Proof.
  intros Hp E Hd. pose proof E as E'. apply lookup_entry_client in E' as (d & E1 & E2).
  unfold prepare_ref in E1, E2. cbn [fst snd] in E1, E2.
  rewrite prepare_run. unfold prepare_body, getMemoryUsage. cbv zeta.
  change (prepare_identifier payload, caseName (prepare_data payload))
    with (prepare_ref payload).
  rewrite Hp. destruct w as [sg c l]. cbn [SESSIONSGLOBAL DCMCLIENT console] in *.
  repeat (run_step; rewrite ?E1, ?E2).
  rewrite (bind_run (read_session _) _ _ s _ (read_session_run _ _ _ E)).
  rewrite (bool_decide_eq_false_2 (data s ≠ Some (prepare_data payload)))
    by (intros Hn; apply Hn, Hd).
  rewrite (bind_run (mret true) _ _ _ _ eq_refl).
  rewrite (bind_run (print _) _ _ _ _ eq_refl).
  cbn [String.eqb Ascii.eqb Bool.eqb].
  rewrite (bind_run (print _) _ _ _ _ eq_refl).
  cbn [SESSIONSGLOBAL DCMCLIENT console]. rewrite <- app_assoc. reflexivity.
Qed.

(** X6. On Darwin a [/prepare] request for a case whose session already holds
    the descriptor of the request answers that the data is already loaded,
    contacts nothing and leaves every session and the client as they are: the
    console only grows by the two log lines. *)
Theorem prepare_idempotent
    (env : environment) (payload : PayloadPrepare) (w : world) (s : session) :
  platform_system env = "Darwin" ->
  lookup_entry w (prepare_ref payload) = Some (ESession s) ->
  data s = Some (prepare_data payload) ->
  exists w',
    prepare env payload w = (Ret (Returned true), w')
    /\ same_state w w'
    /\ console w' = console w ++ [Print "/prepare"; Print "Memory usage"].
Proof.
  intros Hp E Hd. eexists. split; [apply (prepare_same_descriptor _ _ _ s); assumption|].
  split; [split; reflexivity | reflexivity].
Qed.

Lemma prepare_idempotent_witness :
  exists w',
    prepare ex_env (mkPayloadPrepare ex_case "client-1") prepared_world
    = (Ret (Returned true), w')
    /\ same_state prepared_world w'
    /\ console w' = console prepared_world ++ [Print "/prepare"; Print "Memory usage"].
Proof.
  apply (prepare_idempotent ex_env (mkPayloadPrepare ex_case "client-1")
           prepared_world ex_session).
  - reflexivity.
  - exact prepared_world_session.
  - reflexivity.
Defined.

(** X7. Once a [/prepare] request for a case has been answered - whatever
    the archive answered, whether the arrays could be fetched or not, and
    even when the request failed on the platform check - the session holds
    the descriptor: a repeated request on Darwin answers that the data is
    already loaded and fetches nothing, so a failed fetch is never retried. *)
Theorem prepare_settles
    (env env' : environment) (payload : PayloadPrepare) (w : world) :
  session_slot payload w ->
  platform_system env' = "Darwin" ->
  exists w2,
    prepare env' payload (prepare env payload w).2 = (Ret (Returned true), w2)
    /\ same_state (prepare env payload w).2 w2
    /\ console w2
       = console (prepare env payload w).2 ++ [Print "/prepare"; Print "Memory usage"].
Proof.
  intros Hslot Hp.
  destruct (prepare_effect env payload w)
    as (r & w1 & E & _ & [(x & Ex & _)|(s & s' & _ & _ & Es' & Ed & _)]).
  - destruct (registered_slot env payload w Hslot) as (s & Es). congruence.
  - rewrite E. cbn [snd]. eexists.
    split; [apply (prepare_same_descriptor _ _ _ s'); assumption|].
    split; [split; reflexivity | reflexivity].
Qed.

Lemma prepare_settles_witness :
  exists w2,
    prepare ex_env (mkPayloadPrepare ex_case "client-1")
      (prepare offline_env
         (mkPayloadPrepare ex_case "client-1") initial_world).2
    = (Ret (Returned true), w2)
    /\ same_state
         (prepare offline_env
            (mkPayloadPrepare ex_case "client-1") initial_world).2 w2
    /\ console w2
       = console (prepare offline_env
                    (mkPayloadPrepare ex_case "client-1") initial_world).2
         ++ [Print "/prepare"; Print "Memory usage"].
Proof.
  apply (prepare_settles offline_env ex_env
           (mkPayloadPrepare ex_case "client-1") initial_world).
  - split; [discriminate|]. split; [discriminate|]. intros x. discriminate.
  - reflexivity.
Defined.

(** ** Requests that [/process] turns down *)

Lemma process_run env payload w :
  process env payload w
  = match process_body env payload w with
    | (Ret b, w') => (Ret (Returned b), w')
    | (Raise e, w') =>
        (Ret (Failed 500 e),
         mkWorld (SESSIONSGLOBAL w') (DCMCLIENT w') (console w' ++ [Traceback e]))
    end.
Proof.
  unfold process. munfold. destruct (process_body env payload w) as [[b|e] w'];
    reflexivity.
Qed.

Lemma checked_copy_outcome ref w s :
  lookup_entry w ref = Some (ESession s) ->
  checked_copy ref w
  = (match torchData s with
     | EmptyDict => Raise KeyError
     | EmptyList => Raise TypeError
     | Tensor t =>
         if xis_zero (array_sum (channel t 3)) && xis_zero (array_sum (channel t 4))
         then Ret t else Raise AssertionError
     end, w).
Proof.
  intros E. unfold checked_copy.
  rewrite (bind_run (read_session _) _ _ s _ (read_session_run _ _ _ E)).
  destruct (torchData s) as [| |t]; try reflexivity.
  rewrite (bind_run (as_tensor (Tensor t)) _ w t w eq_refl). unfold assert_.
  destruct (_ && _); reflexivity.
Qed.

Lemma process_body_early env payload w :
  platform_system env = "Darwin" ->
  let w1 := mkWorld (SESSIONSGLOBAL w) (DCMCLIENT w)
              (console w ++ [Print "/process"; Print "Memory usage"]) in
  (lookup_entry w (process_ref payload) = None ->
   process_body env payload w
   = (Raise (HTTPException 500 "No data present in python server. Reload page."), w1))
  /\ (forall x, lookup_entry w (process_ref payload) = Some (EStr x) ->
      process_body env payload w = (Raise TypeError, w1))
  /\ (forall s e, lookup_entry w (process_ref payload) = Some (ESession s) ->
      checked_copy (process_ref payload) w1 = (Raise e, w1) ->
      process_body env payload w = (Raise e, w1)).
Proof.
  intros Hp w1.
  assert (process_body env payload w
          = (if match SESSIONSGLOBAL w !! process_identifier payload with
                  | None => false
                  | Some d =>
                      bool_decide (is_Some (d !! process_caseName (process_data payload)))
                  end
               then
                 (sess ← read_session (process_ref payload);
                  preparedDataTorch ← checked_copy (process_ref payload);
                  preparedDataTorch ←
                    getDistanceMap preparedDataTorch
                      (scribbleType (process_data payload))
                      (points3D (process_data payload)) DISTMAP_Z DISTMAP_SIGMA;
                  infer_and_publish env (process_identifier payload)
                    (process_ref payload) (data sess) preparedDataTorch)
               else raise (HTTPException 500
                             "No data present in python server. Reload page.")) w1)
    as Hbody.
  { unfold process_body, getMemoryUsage. cbv zeta. rewrite Hp.
    rewrite (bind_run get_world _ _ _ _ eq_refl).
    rewrite (bind_run (print _) _ _ _ _ eq_refl).
    cbn [String.eqb Ascii.eqb Bool.eqb].
    rewrite (bind_run (print _) _ _ _ _ eq_refl).
    cbn [SESSIONSGLOBAL DCMCLIENT console]. rewrite <- app_assoc. reflexivity. }
  pose proof (session_present w (process_ref payload)) as Hpres.
  unfold process_ref in Hpres at 1 2. cbn [fst snd] in Hpres.
  split; [|split].
  - intros E. rewrite Hbody.
    destruct (match SESSIONSGLOBAL w !! _ with None => false | Some d => _ end);
      [|reflexivity].
    destruct Hpres as [Hpres _]. destruct (Hpres eq_refl) as [en Hen]. congruence.
  - intros x E. rewrite Hbody.
    destruct Hpres as [_ Hpres].
    match goal with
    | |- context [if ?c then _ else _] =>
        assert (c = true) as -> by (apply Hpres; rewrite E; eauto)
    end.
    apply bind_run_raise. apply (read_session_str _ w1 x). exact E.
  - intros s e E Hcopy. rewrite Hbody.
    destruct Hpres as [_ Hpres].
    match goal with
    | |- context [if ?c then _ else _] =>
        assert (c = true) as -> by (apply Hpres; rewrite E; eauto)
    end.
    rewrite (bind_run (read_session _) _ _ s w1 (read_session_run _ w1 _ E)).
    apply bind_run_raise. exact Hcopy.
Qed.

Lemma process_fails_with env payload w e w1 :
  process_body env payload w = (Raise e, w1) ->
  process env payload w
  = (Ret (Failed 500 e),
     mkWorld (SESSIONSGLOBAL w1) (DCMCLIENT w1) (console w1 ++ [Traceback e])).
Proof. intros E. rewrite process_run, E. reflexivity. Qed.

(** X8. On Darwin, a [/process] request that cannot start a turn is answered
    with status 500 and leaves every session and the client as they are.
    The cause is: the no-data exception when nothing is stored under the
    client and case of the request; TypeError when a string is stored there,
    or when the cached tensor is still the empty list (nothing was fetched);
    KeyError when it is still the empty dictionary; AssertionError when
    channel 3 or 4 of the cached tensor holds a stale prior. *)
Theorem process_rejected (env : environment) (payload : PayloadProcess) (w : world) :
  platform_system env = "Darwin" ->
  exists r w',
    process env payload w = (Ret r, w')
    /\ (lookup_entry w (process_ref payload) = None ->
        r = Failed 500 (HTTPException 500 "No data present in python server. Reload page.")
        /\ same_state w w')
    /\ (forall x, lookup_entry w (process_ref payload) = Some (EStr x) ->
        r = Failed 500 TypeError /\ same_state w w')
    /\ (forall s, lookup_entry w (process_ref payload) = Some (ESession s) ->
        (torchData s = EmptyDict -> r = Failed 500 KeyError /\ same_state w w')
        /\ (torchData s = EmptyList -> r = Failed 500 TypeError /\ same_state w w')
        /\ (forall t, torchData s = Tensor t ->
              stale (channel t 3) \/ stale (channel t 4) ->
              r = Failed 500 AssertionError /\ same_state w w')).
Proof.
  intros Hp. destruct (process_body_early env payload w Hp) as (Hnone & Hstr & Hcopy).
  destruct (process_effect env payload w) as (r & w' & E & _).
  exists r, w'. split; [exact E|]. split; [|split].
  - intros El. rewrite (process_fails_with _ _ _ _ _ (Hnone El)) in E.
    injection E as <- <-. split; [reflexivity | split; reflexivity].
  - intros x El. rewrite (process_fails_with _ _ _ _ _ (Hstr x El)) in E.
    injection E as <- <-. split; [reflexivity | split; reflexivity].
  - intros s El.
    assert (forall e,
              (match torchData s with
               | EmptyDict => Raise KeyError
               | EmptyList => Raise TypeError
               | Tensor t =>
                   if xis_zero (array_sum (channel t 3))
                      && xis_zero (array_sum (channel t 4))
                   then Ret t else Raise AssertionError
               end) = Raise e ->
              r = Failed 500 e /\ same_state w w') as Hcase.
    { intros e He.
      rewrite (process_fails_with _ _ _ _ _
                 (Hcopy s e El ltac:(rewrite (checked_copy_outcome _ _ s) by exact El;
                                     rewrite He; reflexivity))) in E.
      injection E as <- <-. split; [reflexivity | split; reflexivity]. }
    split; [|split].
    + intros Et. apply Hcase. rewrite Et. reflexivity.
    + intros Et. apply Hcase. rewrite Et. reflexivity.
    + intros t Et Hstale. apply Hcase. rewrite Et.
      destruct Hstale as [H3|H4].
      * rewrite (array_sum_stale _ H3). reflexivity.
      * rewrite (array_sum_stale _ H4), andb_false_r. reflexivity.
Qed.

Lemma stale_channel_3 : stale (channel stale_tensor 3).
Proof.
  split.
  - intros v _. right. exists 1%R. split; [reflexivity | lra].
  - exists (0, 0, 0). split; [simpl; lia|]. simpl. intros [= H]. lra.
Qed.

Lemma process_rejected_witness :
  exists r w',
    process ex_env valid_scribble stale_world = (Ret r, w')
    /\ r = Failed 500 AssertionError /\ same_state stale_world w'.
Proof.
  destruct (process_rejected ex_env valid_scribble stale_world eq_refl)
    as (r & w' & E & _ & _ & Hs).
  exists r, w'. split; [exact E|].
  destruct (Hs (set_torchData (Tensor stale_tensor) ex_session) eq_refl)
    as (_ & _ & Hstale).
  apply (Hstale stale_tensor eq_refl). left. exact stale_channel_3.
Defined.

Lemma process_wrong_platform env payload w :
  platform_system env <> "Darwin" ->
  process env payload w
  = (Ret (Failed 500 UnboundLocalError),
     mkWorld (SESSIONSGLOBAL w) (DCMCLIENT w)
       (console w ++ [Print "/process"; Traceback UnboundLocalError])).
Proof.
  intros Hp. apply String.eqb_neq in Hp.
  rewrite process_run. unfold process_body, getMemoryUsage. cbv zeta. rewrite Hp.
  rewrite (bind_run get_world _ _ _ _ eq_refl).
  rewrite (bind_run (print _) _ _ _ _ eq_refl).
  rewrite (bind_run_raise (raise UnboundLocalError) _ _ UnboundLocalError _ eq_refl).
  cbn [SESSIONSGLOBAL DCMCLIENT console]. rewrite <- app_assoc. reflexivity.
Qed.

(** X9. On a platform other than Darwin [getMemoryUsage] reads a variable it
    never bound, so every request fails with status 500: [/process] before
    it looks at the session, with the state unchanged, and [/prepare] at its
    very end - after the session has been registered under the descriptor
    of the request. *)
Theorem wrong_platform_fails
    (env : environment) (prep : PayloadPrepare) (proc : PayloadProcess) (w : world) :
  platform_system env <> "Darwin" ->
  (exists w',
     process env proc w = (Ret (Failed 500 UnboundLocalError), w')
     /\ same_state w w')
  /\ (exists e w',
        prepare env prep w = (Ret (Failed 500 e), w')
        /\ (session_slot prep w ->
            e = UnboundLocalError
            /\ exists s', lookup_entry w' (prepare_ref prep) = Some (ESession s')
                          /\ data s' = Some (prepare_data prep))).
Proof.
  intros Hp. split.
  - eexists. split; [apply process_wrong_platform, Hp | split; reflexivity].
  - apply String.eqb_neq in Hp.
    destruct (prepare_effect env prep w)
      as (r & w' & E & _ & [(x & Ex & -> & _)|(s & s' & Es & -> & Es' & Ed & _)]).
    + exists TypeError, w'. split; [exact E|]. intros Hslot.
      destruct (registered_slot env prep w Hslot) as (s & Es). congruence.
    + unfold prepare_answer in E. rewrite Hp in E. exists UnboundLocalError, w'.
      split; [exact E|]. intros _. split; [reflexivity|]. exists s'. auto.
Qed.

Lemma wrong_platform_fails_witness :
  exists e w',
    prepare offline_env (mkPayloadPrepare ex_case "client-1") initial_world
    = (Ret (Failed 500 e), w')
    /\ e = UnboundLocalError
    /\ exists s', lookup_entry w' ex_ref = Some (ESession s')
                  /\ data s' = Some ex_case.
Proof.
  destruct (wrong_platform_fails offline_env (mkPayloadPrepare ex_case "client-1")
              valid_scribble initial_world) as (_ & e & w' & E & H).
  - discriminate.
  - exists e, w'. split; [exact E|]. apply H.
    split; [discriminate|]. split; [discriminate|]. intros x. discriminate.
Defined.

Lemma registered_origin env payload w s :
  lookup_entry (registered env payload w) (prepare_ref payload) = Some (ESession s) ->
  data s = Some (prepare_data payload) ->
  lookup_entry w (prepare_ref payload) = Some (ESession s).
Proof.
  intros E Hd. apply registered_sessions in E as [E| ->]; [exact E|]. discriminate.
Qed.

(** X10. On Darwin a [/prepare] request for a case name that is a session
    slot is never answered with an error, whatever the archive does: no
    client, no instances, unreadable series are all swallowed.  The answer
    only tells whether the session already held the descriptor; afterwards
    the session holds it in every case. *)
Theorem prepare_answer_flag
    (env : environment) (payload : PayloadPrepare) (w : world) :
  platform_system env = "Darwin" ->
  session_slot payload w ->
  exists b w' s',
    prepare env payload w = (Ret (Returned b), w')
    /\ (b = true <->
        exists s, lookup_entry w (prepare_ref payload) = Some (ESession s)
                  /\ data s = Some (prepare_data payload))
    /\ lookup_entry w' (prepare_ref payload) = Some (ESession s')
    /\ data s' = Some (prepare_data payload).
Proof.
  intros Hp Hslot.
  destruct (prepare_effect env payload w)
    as (r & w' & E & _ & [(x & Ex & _)|(s & s' & Es & -> & Es' & Ed & _)]).
  - destruct (registered_slot env payload w Hslot) as (s & Es). congruence.
  - unfold prepare_answer in E. rewrite Hp in E. cbn [String.eqb Ascii.eqb Bool.eqb] in E.
    eexists. exists w', s'. split; [exact E|]. split; [|auto].
    rewrite bool_decide_eq_true. split.
    + intros Hd. exists s. split; [|exact Hd]. apply (registered_origin env); assumption.
    + intros (s0 & E0 & Hd0). apply (registered_keeps env payload) in E0. congruence.
Qed.

Lemma prepare_answer_flag_witness :
  exists b w' s',
    prepare unreachable_env (mkPayloadPrepare ex_case "client-1") initial_world
    = (Ret (Returned b), w')
    /\ (b = true <->
        exists s, lookup_entry initial_world ex_ref = Some (ESession s)
                  /\ data s = Some ex_case)
    /\ lookup_entry w' ex_ref = Some (ESession s')
    /\ data s' = Some ex_case.
Proof.
  apply (prepare_answer_flag unreachable_env (mkPayloadPrepare ex_case "client-1")
           initial_world).
  - reflexivity.
  - split; [discriminate|]. split; [discriminate|]. intros x. discriminate.
Defined.

(** ** The publish step *)

(** X11. When [makeSEGDicom] replaces a published object - an id is stored,
    packaging succeeds, the archive answers the delete call with any status
    and the create call with status 200 and an id - it saves the file under
    the case name and the current counter, issues the delete for the stored
    id before the create, stores the new id and reports success.  The status
    of the delete call is not looked at. *)
Theorem makeSEGDicom_replaces
    (env : environment) (mask : ndarray) (cid : string) (ref : session_ref)
    (w : world) (s : session) (pd : PreparedData) (i : instance) (l : list instance)
    (c : dcmclient) (old new : string) (code : Z) (jid : option string) :
  lookup_entry w ref = Some (ESession s) ->
  data s = Some pd -> dcmList s = i :: l ->
  write_dicom env = None -> DCMCLIENT w = Some c ->
  segOrthancID s = Some old ->
  requests_delete env = HttpStatus code jid ->
  requests_post env = HttpStatus 200 (Some new) ->
  makeSEGDicom env (Some mask) cid ref w
  = (Ret (MsdTuple true),
     mkWorld (sessions_with (SESSIONSGLOBAL w) ref (set_segOrthancID (Some new) s))
       (DCMCLIENT w)
       (console w ++ [SaveDicom (caseName pd) (scribbleCounter s);
                      HttpDelete (base_url c ++ "/instances/" ++ old);
                      HttpPost (base_url c ++ "/instances")])).
Proof.
  intros E Hd Hl Hw Hc Hold Hdel Hpost.
  unfold makeSEGDicom, delete_existing, post_new. munfold.
  rewrite (read_session_run _ _ _ E). cbv beta iota.
  rewrite Hd, Hl, Hw. cbn [head]. cbv beta iota. cbn [DCMCLIENT]. rewrite Hc, Hold.
  cbv beta iota. rewrite Hdel. cbv beta iota. rewrite Hpost.
  cbn [Z.eqb Pos.eqb]. cbv beta iota.
  match goal with
  | |- context [modify_session ref ?f ?w0] =>
      rewrite (modify_session_run ref f w0 s E)
  end.
  cbv beta iota. cbn [SESSIONSGLOBAL DCMCLIENT console].
  rewrite <- ?app_assoc. reflexivity.
Qed.

Lemma makeSEGDicom_replaces_witness :
  makeSEGDicom ex_env (Some one_voxel_ct) "client-1" ex_ref stored_world
  = (Ret (MsdTuple true),
     mkWorld (sessions_with (SESSIONSGLOBAL stored_world) ex_ref
                (set_segOrthancID (Some "seg-1") stored_session))
       (DCMCLIENT stored_world)
       (console stored_world
          ++ [SaveDicom "case-1" 0;
              HttpDelete ("http://localhost:8042" ++ "/instances/" ++ "seg-0");
              HttpPost ("http://localhost:8042" ++ "/instances")])).
Proof.
  exact (makeSEGDicom_replaces ex_env one_voxel_ct "client-1" ex_ref stored_world
           stored_session ex_case (mkInstance 1 "study-1") []
           (mkClient "http://localhost:8042") "seg-0" "seg-1" 200 None
           eq_refl eq_refl eq_refl eq_refl eq_refl eq_refl eq_refl eq_refl).
Defined.




(** ** The network output *)




(** ** The scribble written into the tensor *)

Lemma getViewTypeAndSliceId_detects pts w :
  pts <> [] ->
  single_valued 0 pts \/ single_valued 1 pts \/ single_valued 2 pts ->
  exists vt sl, getViewTypeAndSliceId pts w = (Ret (Some vt, Some sl), w).
Proof.
  intros Hne Hsv. unfold getViewTypeAndSliceId, try_except.
  destruct ((length (np_unique (map (coord 0) pts)) =? 1)%nat) eqn:H0.
  { apply unique_count_one in H0 as [c Hc]; [|exact Hne].
    rewrite (scan_views_hit 0 _ pts c) by assumption. eauto. }
  assert (~ single_valued 0 pts) as N0
    by (intros H; apply unique_count_one in H; congruence).
  rewrite scan_views_miss by assumption.
  destruct ((length (np_unique (map (coord 1) pts)) =? 1)%nat) eqn:H1.
  { apply unique_count_one in H1 as [c Hc]; [|exact Hne].
    rewrite (scan_views_hit 1 _ pts c) by assumption. eauto. }
  assert (~ single_valued 1 pts) as N1
    by (intros H; apply unique_count_one in H; congruence).
  rewrite scan_views_miss by assumption.
  destruct Hsv as [H|[H|[c Hc]]]; [contradiction | contradiction |].
  rewrite (scan_views_hit 2 _ pts c) by assumption. eauto.
Qed.

Lemma shape_eqb_refl sh : shape_eqb sh sh = true.
Proof. apply voxel_eqb_eq. reflexivity. Qed.

(** X14. A scribble of polarity 'fgd' (channel 3) or 'bgd' (channel 4) whose
    points (x, y, z) are not empty, share a value on some axis, all lie inside
    the volume when read as voxels (y, x, z) ([swap_xy]) and leave at least
    one voxel unmarked: [getDistanceMap] returns a tensor of the same shape
    whose other channels are untouched and whose channel of that polarity
    holds, at every voxel of the volume, a number of [0,1] that is 1 exactly
    at the voxels (y, x, z) of the points.  No session is touched. *)
Theorem getDistanceMap_writes_prior
    (t : tensor) (ty : string) (c : nat) (pts : list (Z * Z * Z)) (w : world) :
  (ty = KEY_SCRIBBLE_FGD /\ c = 3%nat) \/ (ty = KEY_SCRIBBLE_BGD /\ c = 4%nat) ->
  pts <> [] ->
  single_valued 0 pts \/ single_valued 1 pts \/ single_valued 2 pts ->
  Forall (fun p => in_range (tshape t) (swap_xy p)) pts ->
  (exists u, in_range (tshape t) u /\ ~ In u (map swap_xy pts)) ->
  exists t' w',
    getDistanceMap t ty pts DISTMAP_Z DISTMAP_SIGMA w = (Ret t', w')
    /\ same_state w w'
    /\ tshape t' = tshape t
    /\ (forall c', c' <> c -> tchan t' c' = tchan t c')
    /\ forall v, in_range (tshape t) v ->
         exists r, tchan t' c v = XFin r /\ (0 <= r <= 1)%R
                   /\ (r = 1%R <-> In v (map swap_xy pts)).
Proof.
  intros Hty Hne Hsv Hin (u & Hu & Hnot).
  pose proof (point_voxels_inside _ _ Hin) as Hpts.
  set (marked := map swap_xy pts) in *.
  destruct (getViewTypeAndSliceId_detects pts w Hne Hsv) as (vt & sl & Hview).
  destruct (edt_complement_defined (tshape t) pts marked (sampling_of vt DISTMAP_Z)
              Hpts Hne) as (edm & mx & Hedt & Hmax).
  assert ((sampling_of vt DISTMAP_Z).1.1 <> 0 /\ (sampling_of vt DISTMAP_Z).1.2 <> 0
          /\ (sampling_of vt DISTMAP_Z).2 <> 0) as Hs
    by (apply sampling_of_nonzero; discriminate).
  destruct (array_max_sign _ _ _ _ _ Hedt Hmax Hs) as (m & -> & _ & Hpos).
  specialize (Hpos u Hu Hnot).
  destruct (prior_values _ _ _ _ _ DISTMAP_SIGMA Hedt Hmax)
    as (Hsh & m' & Em & _ & _ & Hval).
  injection Em as <-.
  assert (DISTMAP_SIGMA <> 0%R) as Hsigma by (unfold DISTMAP_SIGMA; lra).
  specialize (Hval Hpos Hsigma Hs).
  pose proof (getGaussianDistanceMap_run (channel t 0) pts DISTMAP_Z DISTMAP_SIGMA w
                vt sl marked edm (XFin m) Hview Hpts Hedt Hmax) as Hrun.
  set (g := array_map (gaussian DISTMAP_SIGMA)
              (array_map (fun d => xsub (XFin 1) (xdiv d (XFin m))) edm)) in *.
  assert (set_channel t c g
          = Some (mkTensor (tshape t)
                    (fun c' => if Nat.eqb c' c then elems g else tchan t c'))) as Hset.
  { unfold set_channel. rewrite Hsh, shape_eqb_refl. reflexivity. }
  assert (getDistanceMap t ty pts DISTMAP_Z DISTMAP_SIGMA w
          = (Ret (mkTensor (tshape t)
                    (fun c' => if Nat.eqb c' c then elems g else tchan t c')), w))
    as Hget.
  { unfold getDistanceMap, try_except, write_prior, unpack3. munfold.
    destruct Hty as [[-> ->]|[-> ->]]; cbn [String.eqb Ascii.eqb Bool.eqb KEY_SCRIBBLE_FGD
                                             KEY_SCRIBBLE_BGD];
      rewrite Hrun; cbv beta iota; rewrite Hset; reflexivity. }
  eexists. exists w. split; [exact Hget|]. split; [split; reflexivity|].
  split; [reflexivity|]. split.
  - intros c' Hc. cbn [tchan]. apply Nat.eqb_neq in Hc. rewrite Hc. reflexivity.
  - intros v Hv. cbn [tchan]. rewrite Nat.eqb_refl. apply Hval. exact Hv.
Qed.

Lemma getDistanceMap_writes_prior_witness :
  exists t' w',
    getDistanceMap (torch_zeros (1, 2, 1)) "fgd" [(1, 0, 0)] DISTMAP_Z DISTMAP_SIGMA
      initial_world = (Ret t', w')
    /\ same_state initial_world w'
    /\ tshape t' = (1, 2, 1)
    /\ (forall c', c' <> 3%nat -> tchan t' c' = tchan (torch_zeros (1, 2, 1)) c')
    /\ forall v, in_range (1, 2, 1) v ->
         exists r, tchan t' 3 v = XFin r /\ (0 <= r <= 1)%R
                   /\ (r = 1%R <-> In v [(0, 1, 0)]).
Proof.
  apply (getDistanceMap_writes_prior (torch_zeros (1, 2, 1)) "fgd" 3 [(1, 0, 0)]
           initial_world).
  - left. split; reflexivity.
  - discriminate.
  - left. exists 1. intros p [<-|[]]. reflexivity.
  - constructor; [simpl; lia | constructor].
  - exists (0, 0, 0). split; [simpl; lia|]. intros [E|[]]. discriminate.
Defined.



(** ** What the fetchers load *)

Lemma try_run {A} (body : M A) (handler : exn -> M A) w a w1 :
  body w = (Ret a, w1) -> try_except body handler w = (Ret a, w1).
Proof. intros E. unfold try_except. rewrite E. reflexivity. Qed.

Lemma try_run_raise {A} (body : M A) (handler : exn -> M A) w e w1 :
  body w = (Raise e, w1) -> try_except body handler w = handler e w1.
Proof. intros E. unfold try_except. rewrite E. reflexivity. Qed.

Lemma set_channel_fits t c a :
  shape a = tshape t ->
  set_channel t c a
  = Some (mkTensor (tshape t) (fun c' => if Nat.eqb c' c then elems a else tchan t c')).
Proof. intros E. unfold set_channel. rewrite E, shape_eqb_refl. reflexivity. Qed.

Lemma set_torchData_twice v1 v2 s :
  set_torchData v2 (set_torchData v1 s) = set_torchData v2 s.
Proof. destruct s. reflexivity. Qed.

Lemma getCTArray_loaded env ref w s pd insts ct :
  lookup_entry w ref = Some (ESession s) ->
  data s = Some pd ->
  retrieve_ct env = SeriesLoaded insts ct ->
  getCTArray env ref w
  = (Ret (Some ct),
     mkWorld
       (sessions_with (SESSIONSGLOBAL w) ref
          (set_dcmList insts
             (set_torchData
                (Tensor (mkTensor (shape ct)
                           (fun c => if Nat.eqb c 0 then elems ct else fun _ => XFin 0)))
                s)))
       (DCMCLIENT w)
       (console w ++ [RetrieveSeries (StudyInstanceUID (searchObjCT pd))
                        (SeriesInstanceUID (searchObjCT pd))])).
Proof.
  intros E Hd Hct. unfold getCTArray. cbv zeta.
  set (ev := RetrieveSeries (StudyInstanceUID (searchObjCT pd))
               (SeriesInstanceUID (searchObjCT pd))).
  set (w1 := mkWorld (SESSIONSGLOBAL w) (DCMCLIENT w) (console w ++ [ev])).
  set (t := mkTensor (shape ct)
              (fun c => if Nat.eqb c 0 then elems ct else fun _ => XFin 0)).
  assert (lookup_entry w1 ref = Some (ESession s)) as E1 by exact E.
  apply try_run.
  rewrite (bind_run (read_session ref) _ w s w (read_session_run _ _ _ E)).
  rewrite Hd. rewrite (bind_run (of_option (Some pd) KeyError) _ w pd w eq_refl).
  rewrite (bind_run (emit ev) _ w tt w1 eq_refl). rewrite Hct.
  apply try_run.
  rewrite (bind_run (modify_session ref _) _ w1 tt _ (modify_session_run _ _ _ _ E1)).
  rewrite (set_channel_fits (torch_zeros (shape ct)) 0 ct eq_refl).
  match goal with
  | |- (of_option (Some ?x) _ ≫= _) ?w0 = _ =>
      rewrite (bind_run (of_option (Some x) RuntimeError) _ w0 x w0 eq_refl)
  end.
  match goal with
  | |- (modify_session ref ?f ≫= _) ?w0 = _ =>
      rewrite (bind_run (modify_session ref f) _ w0 tt _
                 (modify_session_run ref f w0 _
                    (lookup_sessions_with_same w1 ref s _ _ _ E1)))
  end.
  cbn [SESSIONSGLOBAL DCMCLIENT console].
  match goal with
  | |- (modify_session ref ?f ≫= _) ?w0 = _ =>
      rewrite (bind_run (modify_session ref f) _ w0 tt _
                 (modify_session_run ref f w0 _
                    (sessions_with_lookup _ ref _ _
                       (sessions_with_lookup _ ref _ _ E1))))
  end.
  cbn [SESSIONSGLOBAL DCMCLIENT console].
  rewrite !sessions_with_twice, set_torchData_twice. reflexivity.
Qed.

(** X16. When the primary series is retrieved, [getCTArray] replaces the
    cached tensor by a fresh one of the shape of the CT array with the array
    in channel 0 and zero in every other channel - whatever a previous
    tensor held - stores the instance list, keeps the descriptor, logs the
    one retrieval and returns the array; no other session changes. *)
Theorem getCTArray_loads
    (env : environment) (ref : session_ref) (w : world) (s : session)
    (pd : PreparedData) (insts : list instance) (ct : ndarray) :
  lookup_entry w ref = Some (ESession s) ->
  data s = Some pd ->
  retrieve_ct env = SeriesLoaded insts ct ->
  exists w' s' t,
    getCTArray env ref w = (Ret (Some ct), w')
    /\ lookup_entry w' ref = Some (ESession s')
    /\ torchData s' = Tensor t /\ dcmList s' = insts /\ same_descriptor s s'
    /\ tshape t = shape ct /\ tchan t 0 = elems ct
    /\ (forall c v, c <> 0%nat -> tchan t c v = XFin 0)
    /\ DCMCLIENT w' = DCMCLIENT w
    /\ (forall ref', ref' <> ref -> lookup_entry w' ref' = lookup_entry w ref')
    /\ console w'
       = console w ++ [RetrieveSeries (StudyInstanceUID (searchObjCT pd))
                         (SeriesInstanceUID (searchObjCT pd))].
Proof.
  intros E Hd Hct. eexists. eexists. eexists.
  split; [apply (getCTArray_loaded env ref w s pd insts ct); assumption|].
  split; [apply (lookup_sessions_with_same w ref s); exact E|].
  split; [reflexivity|]. split; [reflexivity|]. split; [repeat split|].
  split; [reflexivity|]. split; [reflexivity|]. split.
  - intros c v Hc. cbn [tchan]. apply Nat.eqb_neq in Hc. rewrite Hc. reflexivity.
  - split; [reflexivity|]. split; [|reflexivity].
    intros ref' Hne. apply lookup_sessions_with_other. exact Hne.
Qed.

Lemma getCTArray_loads_witness :
  exists w' s' t,
    getCTArray ex_env ex_ref prepared_world = (Ret (Some one_voxel_ct), w')
    /\ lookup_entry w' ex_ref = Some (ESession s')
    /\ torchData s' = Tensor t /\ dcmList s' = [mkInstance 1 "study-1"]
    /\ same_descriptor ex_session s'
    /\ tshape t = shape one_voxel_ct /\ tchan t 0 = elems one_voxel_ct
    /\ (forall c v, c <> 0%nat -> tchan t c v = XFin 0)
    /\ DCMCLIENT w' = DCMCLIENT prepared_world
    /\ (forall ref', ref' <> ex_ref ->
          lookup_entry w' ref' = lookup_entry prepared_world ref')
    /\ console w'
       = console prepared_world
         ++ [RetrieveSeries (StudyInstanceUID (searchObjCT ex_case))
               (SeriesInstanceUID (searchObjCT ex_case))].
Proof.
  apply (getCTArray_loads ex_env ex_ref prepared_world ex_session ex_case
           [mkInstance 1 "study-1"] one_voxel_ct).
  - exact prepared_world_session.
  - reflexivity.
  - reflexivity.
Defined.

Lemma getCTArray_nothing env ref w :
  retrieve_ct env = SeriesEmpty \/ (exists e, retrieve_ct env = SeriesRaises e) ->
  exists w', getCTArray env ref w = (Ret None, w') /\ same_state w w'.
Proof.
  intros Hct. unfold getCTArray. cbv zeta. munfold.
  destruct (read_session ref w) as [[s|e] w0] eqn:Er.
  - assert (w0 = w) as ->.
    { unfold read_session in Er. munfold.
      destruct (lookup_entry w ref) as [[?|?]|]; congruence. }
    destruct (data s) as [pd|]; cbv beta iota;
      [|eexists; split; [reflexivity | split; reflexivity]].
    destruct Hct as [->|[e ->]]; cbv beta iota;
      (eexists; split; [reflexivity | split; reflexivity]).
  - assert (w0 = w) as ->.
    { unfold read_session in Er. munfold.
      destruct (lookup_entry w ref) as [[?|?]|]; congruence. }
    eexists; split; [reflexivity | split; reflexivity].
Qed.

(** X17. When the second series is retrieved but its array does not fit
    the cached tensor (neither the same shape nor broadcastable to it),
    [getPTArray] swallows the error: it still returns the array, so that
    [prepare] goes on, while the session and with it channel 1 stay as they
    were. *)
Theorem getPTArray_shape_mismatch
    (env : environment) (ref : session_ref) (w : world) (s : session)
    (pd : PreparedData) (t : tensor) (insts : list instance) (pt : ndarray) :
  lookup_entry w ref = Some (ESession s) ->
  data s = Some pd -> torchData s = Tensor t ->
  retrieve_pt env = SeriesLoaded insts pt ->
  shape pt <> tshape t -> broadcastable (shape pt) (tshape t) = false ->
  exists w',
    getPTArray env ref w = (Ret (Some pt), w')
    /\ same_state w w'
    /\ console w'
       = console w ++ [RetrieveSeries (StudyInstanceUID (searchObjPET pd))
                         (SeriesInstanceUID (searchObjPET pd));
                       Traceback RuntimeError].
Proof.
  intros E Hd Ht Hpt Hshape Hbc. unfold getPTArray. cbv zeta.
  set (ev := RetrieveSeries (StudyInstanceUID (searchObjPET pd))
               (SeriesInstanceUID (searchObjPET pd))).
  set (w1 := mkWorld (SESSIONSGLOBAL w) (DCMCLIENT w) (console w ++ [ev])).
  assert (lookup_entry w1 ref = Some (ESession s)) as E1 by exact E.
  assert (set_channel t 1 pt = None) as Hset.
  { unfold set_channel. rewrite Hbc.
    destruct (shape_eqb (shape pt) (tshape t)) eqn:Heq; [|reflexivity].
    apply voxel_eqb_eq in Heq. contradiction. }
  eexists. split.
  - apply try_run.
    rewrite (bind_run (read_session ref) _ w s w (read_session_run _ _ _ E)).
    rewrite Hd. rewrite (bind_run (of_option (Some pd) KeyError) _ w pd w eq_refl).
    rewrite (bind_run (emit ev) _ w tt w1 eq_refl). rewrite Hpt.
    rewrite (try_run_raise _ _ w1 RuntimeError w1).
    + reflexivity.
    + rewrite (bind_run (read_session ref) _ w1 s w1 (read_session_run _ _ _ E1)).
      rewrite Ht. rewrite (bind_run (as_tensor (Tensor t)) _ w1 t w1 eq_refl).
      rewrite Hset. reflexivity.
  - split; [split; reflexivity|]. unfold w1. cbn [console].
    rewrite <- app_assoc. reflexivity.
Qed.

Lemma getPTArray_shape_mismatch_witness :
  exists w',
    getPTArray mismatch_env ex_ref prepared_world = (Ret (Some (np_zeros (2, 2, 2))), w')
    /\ same_state prepared_world w'
    /\ console w'
       = console prepared_world
         ++ [RetrieveSeries (StudyInstanceUID (searchObjPET ex_case))
               (SeriesInstanceUID (searchObjPET ex_case));
             Traceback RuntimeError].
Proof.
  apply (getPTArray_shape_mismatch mismatch_env ex_ref prepared_world ex_session
           ex_case ex_tensor [mkInstance 1 "study-1"] (np_zeros (2, 2, 2))).
  - exact prepared_world_session.
  - reflexivity.
  - reflexivity.
  - reflexivity.
  - discriminate.
  - reflexivity.
Defined.

Lemma wp_of_run {A} (m : M A) (Q : result A -> world -> Prop) w r w' :
  m w = (r, w') -> Q r w' -> wp m Q w.
Proof. intros E H. unfold wp. rewrite E. exact H. Qed.

Lemma prepare_body_without_ct env payload w s :
  lookup_entry w (prepare_ref payload) = Some (ESession s) ->
  data s <> Some (prepare_data payload) ->
  no_primary_series env payload w ->
  wp (prepare_body env payload)
     (fun _ w' =>
        lookup_entry w' (prepare_ref payload)
        = Some (ESession (set_torchData EmptyList
                            (set_data (Some (prepare_data payload)) s)))) w.
Proof.
  intros E Hnew Hno. pose proof E as E'.
  apply lookup_entry_client in E' as (d & E1 & E2).
  unfold prepare_ref in E1, E2. cbn [fst snd] in E1, E2.
  unfold prepare_body. cbv zeta.
  change (prepare_identifier payload, caseName (prepare_data payload))
    with (prepare_ref payload).
  wp_step. wp_step. cbv beta iota. wp_step. rewrite E1. wp_step. cbv beta iota.
  wp_step. wp_step. cbv beta iota. wp_step. rewrite E1, E2. wp_step. cbv beta iota.
  wp_step. apply (wp_read_session_at _ s); [exact E|]. cbv beta iota.
  rewrite (bool_decide_eq_true_2 _ Hnew).
  wp_step. wp_step. apply (wp_modify_session_at _ _ s); [exact E|]. cbv beta iota.
  wp_step. eapply wp_modify_session_at;
    [apply (lookup_sessions_with_same _ _ s); exact E|].
  cbv beta iota. cbn [SESSIONSGLOBAL DCMCLIENT console]. rewrite sessions_with_twice.
  set (s2 := set_torchData EmptyList (set_data (Some (prepare_data payload)) s)).
  set (P := fun w' : world =>
              SESSIONSGLOBAL w'
              = sessions_with (SESSIONSGLOBAL w) (prepare_ref payload) s2
              /\ (DCMCLIENT w' = None \/ retrieve_ct env = SeriesEmpty
                  \/ exists e, retrieve_ct env = SeriesRaises e)).
  assert (forall w', P w' -> lookup_entry w' (prepare_ref payload) = Some (ESession s2))
    as Hfin.
  { intros w' [Hs _]. unfold lookup_entry. rewrite Hs.
    apply (sessions_with_lookup _ _ _ _ E). }
  assert (forall w' ev, P w' ->
            P (mkWorld (SESSIONSGLOBAL w') (DCMCLIENT w') (console w' ++ [ev]))) as Hlog
    by (intros w' ev HP; exact HP).
  apply wp_mono with (Q := fun r w' => r = Ret false /\ P w').
  2:{ intros r w' HQ. cbv beta in HQ. destruct HQ as [-> HP]. cbv beta iota.
      wp_step. apply wp_emit. cbv beta iota. wp_step. unfold getMemoryUsage.
      destruct (String.eqb (platform_system env) "Darwin").
      - apply wp_emit. cbv beta iota. wp_step. apply Hfin. exact HP.
      - wp_step. apply Hfin. exact HP. }
  wp_step. wp_step. cbv beta iota. cbn [DCMCLIENT]. wp_step.
  match goal with
  | |- wp _ ?Q1 _ =>
      assert (forall wc, P wc -> Q1 (Ret tt) wc) as Hfetch
  end.
  { intros wc HP. cbv beta iota. wp_step. wp_step. cbv beta iota. wp_step.
    destruct (DCMCLIENT wc) as [c|] eqn:Ec.
    - destruct HP as [Hs [Hc|Hct]]; [congruence|].
      wp_step. destruct (getCTArray_nothing env (prepare_ref payload) wc Hct)
        as (w' & Eg & Hst & Hcl).
      apply (wp_of_run _ _ _ _ _ Eg). cbv beta iota. wp_step. cbv beta iota.
      wp_step. split; [reflexivity|]. split; [congruence | auto].
    - wp_step. cbv beta iota. wp_step. split; [reflexivity | exact HP]. }
  destruct (DCMCLIENT w) as [c|] eqn:Ec.
  - wp_step. apply Hfetch. split; [reflexivity|].
    destruct Hno as [[Hc _]|Hct]; [congruence | auto].
  - wp_step. unfold getDCMClient.
    destruct (DICOMwebClient env _) as [c|] eqn:Ed.
    + wp_step. cbv beta iota. apply wp_set_client. apply Hfetch.
      split; [reflexivity|]. destruct Hno as [[_ Hd]|Hct]; [congruence | auto].
    + wp_step. apply wp_emit. cbv beta iota. wp_step. cbv beta iota.
      apply wp_set_client. apply Hfetch. split; [reflexivity|]. left. reflexivity.
Qed.

(** X18. When the primary series cannot be had - no archive client can be
    created, or the retrieval finds no instance or raises - a [/prepare]
    request with a new descriptor still registers the descriptor and leaves
    the cached tensor as the empty list.  A [/process] request on Darwin for
    that case is then answered with status 500 (TypeError) and changes
    nothing. *)
Theorem prepare_without_ct
    (env env' : environment) (payload : PayloadPrepare) (proc : PayloadProcess)
    (w : world) :
  session_slot payload w ->
  (forall s, lookup_entry w (prepare_ref payload) = Some (ESession s) ->
     data s <> Some (prepare_data payload)) ->
  no_primary_series env payload w ->
  process_ref proc = prepare_ref payload ->
  platform_system env' = "Darwin" ->
  exists r w' s' w'',
    prepare env payload w = (Ret r, w')
    /\ lookup_entry w' (prepare_ref payload) = Some (ESession s')
    /\ data s' = Some (prepare_data payload)
    /\ torchData s' = EmptyList
    /\ process env' proc w' = (Ret (Failed 500 TypeError), w'')
    /\ same_state w' w''.
Proof.
  intros Hslot Hnew Hno Href Hp.
  destruct (registered_slot env payload w Hslot) as (s & Es).
  assert (data s <> Some (prepare_data payload)) as Hs.
  { destruct (registered_sessions env payload w _ s Es) as [E| ->];
      [apply Hnew, E | discriminate]. }
  assert (no_primary_series env payload (registered env payload w)) as Hno' by exact Hno.
  pose proof (prepare_body_without_ct env payload _ s Es Hs Hno') as Hw.
  unfold wp in Hw. rewrite <- prepare_body_registered in Hw.
  assert (exists r w',
            prepare env payload w = (Ret r, w')
            /\ lookup_entry w' (prepare_ref payload)
               = Some (ESession (set_torchData EmptyList
                                   (set_data (Some (prepare_data payload)) s))))
    as (r & w' & E & El).
  { rewrite prepare_run. destruct (prepare_body env payload w) as [[b|e] w1];
      cbn [snd] in Hw; eexists; eexists; (split; [reflexivity | exact Hw]). }
  destruct (process_body_early env' proc w' Hp) as (_ & _ & Hcopy).
  rewrite Href in Hcopy.
  eexists r, w', _, _. split; [exact E|]. split; [exact El|].
  split; [reflexivity|]. split; [reflexivity|]. split.
  - apply process_fails_with. apply (Hcopy _ TypeError El).
    exact (checked_copy_outcome (prepare_ref payload)
             (mkWorld (SESSIONSGLOBAL w') (DCMCLIENT w')
                (console w' ++ [Print "/process"; Print "Memory usage"])) _ El).
  - split; reflexivity.
Qed.

Lemma prepare_without_ct_witness :
  exists r w' s' w'',
    prepare unreachable_env (mkPayloadPrepare ex_case "client-1") initial_world
    = (Ret r, w')
    /\ lookup_entry w' ex_ref = Some (ESession s')
    /\ data s' = Some ex_case
    /\ torchData s' = EmptyList
    /\ process ex_env valid_scribble w' = (Ret (Failed 500 TypeError), w'')
    /\ same_state w' w''.
Proof.
  apply (prepare_without_ct unreachable_env ex_env (mkPayloadPrepare ex_case "client-1")
           valid_scribble initial_world).
  - split; [discriminate|]. split; [discriminate|]. intros x. discriminate.
  - intros s. discriminate.
  - left. split; reflexivity.
  - reflexivity.
  - reflexivity.
Defined.

(** X19. An HTTP error on the retrieval of the predicted SEG object is not
    an error for [getSEGs]: with no ground-truth object asked for, it
    returns without any mask and leaves every session and the client as
    they are.  Status 404 differs from the other codes only by a log line. *)
Theorem getSEGs_http_error
    (env : environment) (ref : session_ref) (w : world) (s : session)
    (pd : PreparedData) (code : Z) :
  lookup_entry w ref = Some (ESession s) ->
  data s = Some pd ->
  StudyInstanceUID (searchObjRTSGT pd) = "" ->
  StudyInstanceUID (searchObjRTSPred pd) <> "" ->
  retrieve_seg_pred env = SegRaises (HTTPError code) ->
  exists w',
    getSEGs env ref w = (Ret (None, None), w')
    /\ same_state w w'
    /\ console w'
       = console w
         ++ RetrieveInstance (StudyInstanceUID (searchObjRTSPred pd))
              (SeriesInstanceUID (searchObjRTSPred pd))
              (SOPInstanceUID (searchObjRTSPred pd))
         :: (if code =? 404 then [Print "No SEG-Pred instance found"] else []).
Proof.
  intros E Hd Hgt Hpred Hraise. apply String.eqb_neq in Hpred.
  unfold getSEGs, fetch_seg. cbv zeta. rewrite Hraise. munfold.
  rewrite (read_session_run _ _ _ E). cbv beta iota. rewrite Hd. cbv beta iota.
  rewrite Hgt, Hpred. cbn [String.eqb]. cbv beta iota.
  destruct (code =? 404); cbv beta iota;
    (eexists; split; [reflexivity|]; split; [split; reflexivity|]);
    cbn [console]; rewrite <- ?app_assoc; reflexivity.
Qed.

Lemma getSEGs_http_error_witness :
  exists w',
    getSEGs seg_missing_env ex_ref seg_world = (Ret (None, None), w')
    /\ same_state seg_world w'
    /\ console w'
       = console seg_world
         ++ RetrieveInstance (StudyInstanceUID (searchObjRTSPred seg_case))
              (SeriesInstanceUID (searchObjRTSPred seg_case))
              (SOPInstanceUID (searchObjRTSPred seg_case))
         :: (if 404 =? 404 then [Print "No SEG-Pred instance found"] else []).
Proof.
  apply (getSEGs_http_error seg_missing_env ex_ref seg_world
           (set_data (Some seg_case) ex_session) seg_case 404).
  - reflexivity.
  - reflexivity.
  - reflexivity.
  - discriminate.
  - reflexivity.
Defined.
